(** * State aggregator of the dashboard ([dashboard/state_aggregator.py])

    A shallow embedding of [StateAPIManager]: the filter engine
    ([_filter]), the eight list operations and [summary], followed by the
    properties established about them.

    Conventions of the embedding.
    - A Python exception is a value of [exn]; a computation that may raise
      has type [result A].
    - A Python [dict] is an association list in insertion order whose keys
      are pairwise different; [d[k] = v] overwrites in place or appends.
    - Fields of records are [value]s: [None], booleans, integers, strings
      and nested dictionaries.  A string is the sequence of its UTF-8 bytes,
      which splits on [,] and [=] and orders as the code points do.
    - [await] is sequencing: a coroutine is modelled by the result it
      settles to. *)

From Stdlib Require Import List String Ascii ZArith Bool Lia Arith.
From Stdlib Require Import Permutation Sorted OrderedTypeEx DecimalString.
Import ListNotations.

Local Open Scope string_scope.
Local Open Scope list_scope.

Set Implicit Arguments.
Set Warnings "-register-all".

(* ================================================================== *)
(** * Exceptions and the error monad *)
(* ================================================================== *)

Inductive exn : Type :=
| KeyError
| TypeError
| AttributeError
| ZeroDivisionError
| Raised (msg : string).   (* raised by a collaborator (client, decoder) *)

Inductive result (A : Type) : Type :=
| Ok (a : A)
| Err (e : exn).

Arguments Ok {A} a.
Arguments Err {A} e.

Definition bind {A B : Type} (m : result A) (f : A -> result B) : result B :=
  match m with
  | Ok a => f a
  | Err e => Err e
  end.

Declare Scope exc_scope.
Delimit Scope exc_scope with exc.
Notation "x <- m ;; k" := (bind m (fun x => k))
  (at level 61, m at next level, right associativity) : exc_scope.
Notation "m ;;; k" := (bind m (fun _ => k))
  (at level 61, right associativity) : exc_scope.
Local Open Scope exc_scope.

(** [for x in xs: ys.append(f x)] where [f] may raise. *)
Fixpoint mapM {A B : Type} (f : A -> result B) (xs : list A) : result (list B) :=
  match xs with
  | [] => Ok []
  | x :: xs' => y <- f x ;; ys <- mapM f xs' ;; Ok (y :: ys)
  end.

(* ================================================================== *)
(** * Strings *)
(* ================================================================== *)

(** [s.split(sep)] for a one-character separator: never the empty list. *)
Fixpoint split (sep : ascii) (s : string) : list string :=
  match s with
  | EmptyString => [EmptyString]
  | String c s' =>
      if Ascii.eqb c sep then EmptyString :: split sep s'
      else match split sep s' with
           | [] => [String c EmptyString]
           | w :: ws => String c w :: ws
           end
  end.

(** Number of occurrences of a character, used to state well-formedness
    of clauses. *)
Fixpoint count_char (c : ascii) (s : string) : nat :=
  match s with
  | EmptyString => 0
  | String a s' => (if Ascii.eqb a c then 1 else 0) + count_char c s'
  end.

(** The filter string made of the clauses [cs], separated by commas. *)
Fixpoint join_clauses (cs : list string) : string :=
  match cs with
  | [] => EmptyString
  | [c] => c
  | c :: cs' => c ++ String "," (join_clauses cs')
  end.

(** [str(n)] for a non-negative integer. *)
Definition str_of_nat (n : nat) : string :=
  NilZero.string_of_uint (Nat.to_uint n).

(* ================================================================== *)
(** * Values and dictionaries *)
(* ================================================================== *)

Inductive value : Type :=
| VNone
| VBool (b : bool)
| VInt (z : Z)
| VStr (s : string)
| VDict (items : list (string * value)).

(** A normalized record: the [dict] produced by [message_to_dict]. *)
Definition record := list (string * value).

(** Truth value of an object ([if not data]). *)
Definition truthy (v : value) : bool :=
  match v with
  | VNone => false
  | VBool b => b
  | VInt z => negb (Z.eqb z 0)
  | VStr s => negb (String.eqb s EmptyString)
  | VDict items => match items with [] => false | _ => true end
  end.

(** [v == s] for a [str] [s]: only an equal string is equal to a string. *)
Definition eq_str (v : value) (s : string) : bool :=
  match v with
  | VStr s' => String.eqb s' s
  | _ => false
  end.

(** Dictionaries with string keys. *)
Section StrDict.
Variable V : Type.

Fixpoint lookup (k : string) (d : list (string * V)) : option V :=
  match d with
  | [] => None
  | (k', v) :: d' => if String.eqb k' k then Some v else lookup k d'
  end.

(** [d[k] = v] *)
Fixpoint dict_set (k : string) (v : V) (d : list (string * V)) : list (string * V) :=
  match d with
  | [] => [(k, v)]
  | (k', v') :: d' =>
      if String.eqb k' k then (k', v) :: d' else (k', v') :: dict_set k v d'
  end.

(** [del d[k]] *)
Fixpoint dict_del (k : string) (d : list (string * V)) : list (string * V) :=
  match d with
  | [] => []
  | (k', v') :: d' =>
      if String.eqb k' k then d' else (k', v') :: dict_del k d'
  end.
End StrDict.

(** [d[k]] on a record. *)
Definition getitem (d : record) (k : string) : result value :=
  match lookup k d with
  | Some v => Ok v
  | None => Err KeyError
  end.

(** [v[k]] on an arbitrary value with a string subscript: only a [dict]
    can be subscripted by a key; a string or a number raises [TypeError]. *)
Definition getitem_value (v : value) (k : string) : result value :=
  match v with
  | VDict items => getitem items k
  | _ => Err TypeError
  end.

(* ================================================================== *)
(** * Filter engine: [StateAPIManager._filter] *)
(* ================================================================== *)

(** Objects that [_filter] may be handed: [d.get(column)] is the only
    thing it asks of an element of [data]. *)
Class HasGet (A : Type) : Type :=
  py_get : A -> string -> result value.

(** [dict.get(column)]: the value, or [None] when the key is absent. *)
#[global] Instance record_get : HasGet record :=
  fun d column =>
    match lookup column d with
    | Some v => Ok v
    | None => Ok VNone
    end.

(** A [str] has no attribute [get]. *)
#[global] Instance str_get : HasGet string :=
  fun _ _ => Err AttributeError.

(** Lines 81-86: the dictionary [kv_filters]. *)
Definition add_clause (kv_filters : list (string * string)) (kv : string)
  : list (string * string) :=
  match split "=" kv with
  | [k; v] => dict_set k v kv_filters
  | _ => kv_filters
  end.

Definition parse_filters (filters : string) : list (string * string) :=
  fold_left add_clause (split "," filters) [].

(** Lines 90-98: the inner loop over [kv_filters.items()], started with
    [match = True]. *)
Fixpoint match_clauses {A : Type} `{HasGet A} (d : A)
    (items : list (string * string)) (matched : bool) : result bool :=
  match items with
  | [] => Ok matched
  | (column, value) :: rest =>
      data <- py_get d column ;;
      if negb (truthy data) then Ok false                   (* break *)
      else if negb (eq_str data value) then match_clauses d rest false
      else match_clauses d rest matched
  end.

(** Lines 88-102: the outer loop. *)
Fixpoint filter_loop {A : Type} `{HasGet A} (kv_filters : list (string * string))
    (data : list A) : result (list A) :=
  match data with
  | [] => Ok []
  | d :: data' =>
      matched <- match_clauses d kv_filters true ;;
      rest <- filter_loop kv_filters data' ;;
      Ok (if matched then d :: rest else rest)
  end.

Definition _filter {A : Type} `{HasGet A} (filters : string) (data : list A)
  : result (list A) :=
  filter_loop (parse_filters filters) data.

(* ================================================================== *)
(** * Paginator: sort, truncate, key by identifier *)
(* ================================================================== *)

(** Integers as Python compares and hashes them: [bool] is a subclass of
    [int]. *)
Definition as_int (v : value) : option Z :=
  match v with
  | VInt z => Some z
  | VBool b => Some (if b then 1 else 0)%Z
  | _ => None
  end.

(** [a < b]: defined between two strings (code-point order) and between
    two numbers; every other pairing raises [TypeError]. *)
Definition py_lt (a b : value) : result bool :=
  match a, b with
  | VStr s, VStr t => Ok (String.ltb s t)
  | _, _ =>
      match as_int a, as_int b with
      | Some x, Some y => Ok (Z.ltb x y)
      | _, _ => Err TypeError
      end
  end.

(** [list.sort(key=...)] is stable and compares keys with [<] only.  Its
    outcome does not depend on the algorithm: a sort compares every element
    with another one and links all of them, so it raises [TypeError] exactly
    when two keys of the list cannot be ordered, and the order of the
    result is otherwise determined by stability.  Insertion from the right
    is the simplest stable one. *)
Section Sort.
Variable A : Type.

Fixpoint insert_sorted (k : value) (x : A) (l : list (value * A))
  : result (list (value * A)) :=
  match l with
  | [] => Ok [(k, x)]
  | (k', y) :: l' =>
      less <- py_lt k' k ;;
      if less then (r <- insert_sorted k x l' ;; Ok ((k', y) :: r))
      else Ok ((k, x) :: l)
  end.

Fixpoint sort_keyed (l : list (value * A)) : result (list (value * A)) :=
  match l with
  | [] => Ok []
  | (k, x) :: l' => s <- sort_keyed l' ;; insert_sorted k x s
  end.
End Sort.

(** [result.sort(key=lambda entry: entry[key])]: the keys are computed for
    every entry first (a missing key raises [KeyError]), then compared. *)
Definition sort_by (key : string) (entries : list record) : result (list record) :=
  keyed <- mapM (fun entry => k <- getitem entry key ;; Ok (k, entry)) entries ;;
  sorted <- sort_keyed keyed ;;
  Ok (map snd sorted).

(** [islice(result, limit)] for [limit >= 0]. *)
Definition islice {A : Type} (l : list A) (limit : nat) : list A := firstn limit l.

(** Equality of dictionary keys: [True == 1], and [None], numbers and
    strings are pairwise different. *)
Definition key_eqb (a b : value) : bool :=
  match a, b with
  | VNone, VNone => true
  | VStr s, VStr t => String.eqb s t
  | _, _ =>
      match as_int a, as_int b with
      | Some x, Some y => Z.eqb x y
      | _, _ => false
      end
  end.

(** A [dict] cannot be a key: [TypeError: unhashable type]. *)
Definition hashable (k : value) : bool :=
  match k with
  | VDict _ => false
  | _ => true
  end.

(** Dictionaries keyed by values (identifiers, node ids, class names). *)
Section ValDict.
Variable V : Type.

Fixpoint vlookup (k : value) (d : list (value * V)) : option V :=
  match d with
  | [] => None
  | (k', v) :: d' => if key_eqb k' k then Some v else vlookup k d'
  end.

(** [d[k] = v]: an existing key keeps its place (and its key object). *)
Fixpoint vset (k : value) (v : V) (d : list (value * V)) : list (value * V) :=
  match d with
  | [] => [(k, v)]
  | (k', v') :: d' =>
      if key_eqb k' k then (k', v) :: d' else (k', v') :: vset k v d'
  end.
End ValDict.

(** [{d[key]: d for d in entries}] *)
Fixpoint dict_of_from (key : string) (entries : list record)
    (acc : list (value * record)) : result (list (value * record)) :=
  match entries with
  | [] => Ok acc
  | d :: entries' =>
      k <- getitem d key ;;
      if hashable k then dict_of_from key entries' (vset k d acc)
      else Err TypeError
  end.

Definition dict_of (key : string) (entries : list record)
  : result (list (value * record)) :=
  dict_of_from key entries [].

(* ================================================================== *)
(** * Result envelope, options and warnings *)
(* ================================================================== *)

(** [data] and [warnings] default to [None]. *)
Record StateApiResult (D : Type) : Type := {
  data : option D;
  warnings : option (list string)
}.

Arguments data {D} _.
Arguments warnings {D} _.

Record ListApiOptions : Type := {
  limit : nat;
  timeout : Z;
  filter : string
}.

Definition GCS_QUERY_FAILURE_WARNING : string :=
  "Failed to query data from GCS. It is due to "
  ++ "(1) GCS is unexpectedly failed. "
  ++ "(2) GCS is overloaded by lots of work. "
  ++ "(3) There's an uexpected network issues. Please check the GCS logs to "
  ++ "find the root cause.".

(** [RAYLET_QUERY_FAILURE_WARNING.format(total=..., network_failures=...)] *)
Definition RAYLET_QUERY_FAILURE_WARNING (total network_failures : nat) : string :=
  "Failed to query data from some raylets. You might have data loss. "
  ++ "Queryed " ++ str_of_nat total ++ " raylets "
  ++ "and " ++ str_of_nat network_failures ++ " raylets failed to reply. It is due to "
  ++ "(1) Raylet is unexpectedly failed. "
  ++ "(2) Raylet is overloaded by lots of work. "
  ++ "(3) There's an uexpected network issues. Please check the Raylet logs to "
  ++ "find the root cause.".

(** [AGENT_QUERY_FAILURE_WARNING.format(total=..., network_failures=...)] *)
Definition AGENT_QUERY_FAILURE_WARNING (total network_failures : nat) : string :=
  "Failed to query data from some Ray agents. You might have data loss. "
  ++ "Queryed " ++ str_of_nat total ++ " Ray agents "
  ++ "and " ++ str_of_nat network_failures ++ " Ray agents failed to reply. It is due to "
  ++ "(1) Ray agent is unexpectedly failed. "
  ++ "(2) Ray agent is overloaded by lots of work. "
  ++ "(3) There's an uexpected network issues. Please check the Ray agent logs to "
  ++ "find the root cause.".

(** Modelled from the spec: [filter_fields] of [ray.experimental.state.common]
    is not part of the sources at hand.  "Each variant declares an allow-list
    of fields; any field not on the list is dropped during normalization." *)
Definition filter_fields (data : record) (state_dataclass : list string) : record :=
  List.filter (fun kv => existsb (String.eqb (fst kv)) state_dataclass) data.

(** [await asyncio.gather] of the awaitables [aws], without
    [return_exceptions]: the list of results in the order of [aws], or an
    exception one of them raised.  The model reports the exception of the
    first raising awaitable of the list; the general statements below do
    not depend on which one is reported. *)
Definition gather {A : Type} (aws : list (result A)) : result (list A) :=
  mapM (fun aw => aw) aws.

(* ================================================================== *)
(** * The summary mapping and its mutation *)
(* ================================================================== *)

(** [node_to_summary] is a [defaultdict(dict)] whose entries are plain
    dictionaries and [defaultdict(int)] counters, nested in one another;
    the leaves are integers and formatted strings.  Keys are node
    identifiers, class names, task names and fixed strings. *)
Inductive default_factory : Type :=
| NoFactory     (* a plain [dict] *)
| IntFactory    (* [defaultdict(int)] *)
| DictFactory.  (* [defaultdict(dict)] *)

Inductive sval : Type :=
| SInt (z : Z)
| SStr (s : string)
| SDict (factory : default_factory) (items : list (value * sval)).

(** What [__missing__] creates. *)
Definition new_default (factory : default_factory) : option sval :=
  match factory with
  | NoFactory => None
  | IntFactory => Some (SInt 0)
  | DictFactory => Some (SDict NoFactory [])
  end.

(** [d[k]] as an expression: the entry, and [d] after the read (a
    defaultdict stores the value it creates for a missing key). *)
Definition subscript (k : value) (d : sval) : result (sval * sval) :=
  match d with
  | SDict factory items =>
      if hashable k then
        match vlookup k items with
        | Some child => Ok (child, d)
        | None =>
            match new_default factory with
            | Some child => Ok (child, SDict factory (vset k child items))
            | None => Err KeyError
            end
        end
      else Err TypeError
  | _ => Err TypeError
  end.

(** [d[k] = v] *)
Definition store (k : value) (v : sval) (d : sval) : result sval :=
  match d with
  | SDict factory items =>
      if hashable k then Ok (SDict factory (vset k v items)) else Err TypeError
  | _ => Err TypeError
  end.

(** A statement that reads and mutates the object it is run on, or
    raises. *)
Definition M (A : Type) : Type := sval -> result (A * sval).

Definition ret {A : Type} (a : A) : M A := fun d => Ok (a, d).

Definition bindM {A B : Type} (m : M A) (f : A -> M B) : M B :=
  fun d =>
    match m d with
    | Ok (a, d') => f a d'
    | Err e => Err e
    end.

Declare Scope store_scope.
Delimit Scope store_scope with store.
Notation "x <- m ;; k" := (bindM m (fun x => k))
  (at level 61, m at next level, right associativity) : store_scope.
Notation "m ;;; k" := (bindM m (fun _ => k))
  (at level 61, right associativity) : store_scope.

(** An expression that does not touch the mapping. *)
Definition lift {A : Type} (r : result A) : M A :=
  fun d =>
    match r with
    | Ok a => Ok (a, d)
    | Err e => Err e
    end.

(** Run [m] on the object [d[k]]: the entry is shared, so what [m] does to
    it is seen through [d]. *)
Definition at_key {A : Type} (k : value) (m : M A) : M A :=
  fun d =>
    match subscript k d with
    | Ok (child, d1) =>
        match m child with
        | Ok (a, child') =>
            match store k child' d1 with
            | Ok d2 => Ok (a, d2)
            | Err e => Err e
            end
        | Err e => Err e
        end
    | Err e => Err e
    end.

(** [d[k] = v] as a statement. *)
Definition setitem (k : value) (v : sval) : M unit :=
  fun d =>
    match store k v d with
    | Ok d' => Ok (tt, d')
    | Err e => Err e
    end.

(** [k in d].  It is only ever asked of dictionaries. *)
Definition contains (k : value) : M bool :=
  fun d =>
    match d with
    | SDict _ items =>
        if hashable k
        then Ok (match vlookup k items with Some _ => true | None => false end, d)
        else Err TypeError
    | _ => Err TypeError
    end.

(** [d[k] += 1] *)
Definition incr (k : value) : M unit :=
  fun d =>
    match subscript k d with
    | Ok (SInt z, d1) =>
        match store k (SInt (z + 1)) d1 with
        | Ok d2 => Ok (tt, d2)
        | Err e => Err e
        end
    | Ok (_, _) => Err TypeError
    | Err e => Err e
    end.

(** [if cond: body] *)
Definition when (cond : bool) (body : M unit) : M unit :=
  if cond then body else ret tt.

(** [for x in xs: body x] *)
Fixpoint for_each {A : Type} (xs : list A) (body : A -> M unit) : M unit :=
  match xs with
  | [] => ret tt
  | x :: xs' => bindM (body x) (fun _ => for_each xs' body)
  end.

(** [d.get(k, default)] on a record. *)
Definition get_default (d : record) (k : string) (default : value) : value :=
  match lookup k d with
  | Some v => v
  | None => default
  end.

(** A number as arithmetic takes it; anything else makes [+] or [/] raise
    [TypeError]. *)
Definition as_number (v : value) : result Z :=
  match as_int v with
  | Some z => Ok z
  | None => Err TypeError
  end.

(** One element of [DataOrganizer.get_all_node_summary()], in the shape
    the provider gives it: the [raylet] mapping, and the entries that are
    read at fixed positions. *)
Record NodeSummary : Type := {
  raylet : record;                (* node_summary["raylet"] *)
  cpu : value;                    (* node_summary["cpu"] *)
  disk_root_percent : value;      (* node_summary["disk"]["/"]["percent"] *)
  diskIoSpeed : Z * Z;            (* node_summary["diskIoSpeed"][0], [1] *)
  networkSpeed : Z * Z;           (* node_summary["networkSpeed"][0], [1] *)
  mem_percent : value             (* node_summary["mem"][2] *)
}.

(* ================================================================== *)
(** * List operations *)
(* ================================================================== *)

Module StateAPIManager.
Section Methods.

(** Collaborators that are outside the file: the wire messages and their
    decoder [dashboard_utils.message_to_dict] (arguments: message,
    fields to decode, [including_default_value_fields],
    [preserving_proto_field_name]), the field lists of the state
    dataclasses, the memory table of [memory_utils] (given by the
    [as_dict()] of each entry of its [table]), the runtime environment
    deserializer ([RuntimeEnv.deserialize(...).to_dict()]) and the job
    records. *)
Variable message : Type.
Variable message_to_dict : message -> list string -> bool -> bool -> result record.
Variables ActorState PlacementGroupState NodeState WorkerState
          TaskState ObjectState RuntimeEnvState : list string.
Variable construct_memory_table : list record -> result (list record).
Variable runtime_env_to_dict : value -> result value.
Variable JobInfo : Type.

Record GetAllActorInfoReply : Type := { actor_table_data : list message }.
Record GetAllPlacementGroupReply : Type := { placement_group_table_data : list message }.
Record GetAllNodeInfoReply : Type := { node_info_list : list message }.
Record GetAllWorkerInfoReply : Type := { worker_table_data : list message }.
Record GetTasksInfoReply : Type := { task_info_entries : list message }.
Record GetNodeStatsReply : Type := { core_workers_stats : list message }.
Record GetRuntimeEnvsInfoReply : Type := { runtime_env_states : list message }.

(** [StateDataSourceClient]: every call settles to a reply, to [None]
    (a falsy reply) or raises.  The timeout is passed through. *)
Record StateDataSourceClient : Type := {
  get_all_actor_info : Z -> result (option GetAllActorInfoReply);
  get_all_placement_group_info : Z -> result (option GetAllPlacementGroupReply);
  get_all_node_info : Z -> result (option GetAllNodeInfoReply);
  get_all_worker_info : Z -> result (option GetAllWorkerInfoReply);
  get_job_info : result (list (string * JobInfo));
  get_all_registered_raylet_ids : list string;
  get_task_info : string -> Z -> result (option GetTasksInfoReply);
  get_object_info : string -> Z -> result (option GetNodeStatsReply);
  get_all_registered_agent_ids : list string;
  get_runtime_envs_info : string -> Z -> result (option GetRuntimeEnvsInfoReply)
}.

Variable _client : StateDataSourceClient.

(** Lines 494-506. *)
Definition _message_to_dict (message0 : message) (fields_to_decode : list string)
    (preserving_proto_field_name : bool) : result record :=
  message_to_dict message0 fields_to_decode true preserving_proto_field_name.

(** Lines 117-120: the body of the loop over [reply.actor_table_data]. *)
Definition actor_data (message0 : message) : result record :=
  data <- _message_to_dict message0 ["actor_id"; "owner_id"; "raylet_id"] true ;;
  Ok (filter_fields data ActorState).

(** Lines 104-128. *)
Definition list_actors (option : ListApiOptions)
  : result (StateApiResult (list (value * record))) :=
  reply <- get_all_actor_info _client (timeout option) ;;
  match reply with
  | None => Ok {| data := None; warnings := Some [GCS_QUERY_FAILURE_WARNING] |}
  | Some reply =>
      result <- mapM actor_data (actor_table_data reply) ;;
      result <- _filter (filter option) result ;;
      result <- sort_by "actor_id" result ;;
      data <- dict_of "actor_id" (islice result (limit option)) ;;
      Ok {| data := Some data; warnings := None |}
  end.

(** Lines 144-149. *)
Definition placement_group_data (message0 : message) : result record :=
  data <- _message_to_dict message0 ["placement_group_id"] true ;;
  Ok (filter_fields data PlacementGroupState).

(** Lines 130-156. *)
Definition list_placement_groups (option : ListApiOptions)
  : result (StateApiResult (list (value * record))) :=
  reply <- get_all_placement_group_info _client (timeout option) ;;
  match reply with
  | None => Ok {| data := None; warnings := Some [GCS_QUERY_FAILURE_WARNING] |}
  | Some reply =>
      result <- mapM placement_group_data (placement_group_table_data reply) ;;
      result <- _filter (filter option) result ;;
      result <- sort_by "placement_group_id" result ;;
      data <- dict_of "placement_group_id" (islice result (limit option)) ;;
      Ok {| data := Some data; warnings := None |}
  end.

(** Lines 171-173. *)
Definition node_data (message0 : message) : result record :=
  data <- _message_to_dict message0 ["node_id"] true ;;
  Ok (filter_fields data NodeState).

(** Lines 158-180. *)
Definition list_nodes (option : ListApiOptions)
  : result (StateApiResult (list (value * record))) :=
  reply <- get_all_node_info _client (timeout option) ;;
  match reply with
  | None => Ok {| data := None; warnings := Some [GCS_QUERY_FAILURE_WARNING] |}
  | Some reply =>
      result <- mapM node_data (node_info_list reply) ;;
      result <- _filter (filter option) result ;;
      result <- sort_by "node_id" result ;;
      data <- dict_of "node_id" (islice result (limit option)) ;;
      Ok {| data := Some data; warnings := None |}
  end.

(** Lines 195-200. *)
Definition worker_data (message0 : message) : result record :=
  data <- _message_to_dict message0 ["worker_id"; "raylet_id"] true ;;
  worker_address <- getitem data "worker_address" ;;
  worker_id <- getitem_value worker_address "worker_id" ;;
  let data := dict_set "worker_id" worker_id data in
  Ok (filter_fields data WorkerState).

(** Lines 182-207. *)
Definition list_workers (option : ListApiOptions)
  : result (StateApiResult (list (value * record))) :=
  reply <- get_all_worker_info _client (timeout option) ;;
  match reply with
  | None => Ok {| data := None; warnings := Some [GCS_QUERY_FAILURE_WARNING] |}
  | Some reply =>
      result <- mapM worker_data (worker_table_data reply) ;;
      result <- _filter (filter option) result ;;
      result <- sort_by "worker_id" result ;;
      data <- dict_of "worker_id" (islice result (limit option)) ;;
      Ok {| data := Some data; warnings := None |}
  end.

(** Lines 209-215.  [get_job_info] returns a [dict] from job identifier
    to [JobInfo]; [_filter] iterates over its argument, and iterating over
    a [dict] yields its keys. *)
Definition list_jobs (option : ListApiOptions)
  : result (StateApiResult (list string)) :=
  result <- get_job_info _client ;;
  result <- _filter (filter option) (map fst result) ;;
  match result with
  | [] => Ok {| data := None; warnings := Some [GCS_QUERY_FAILURE_WARNING] |}
  | _ => Ok {| data := Some result; warnings := None |}
  end.

(** The loop shared by the three fan-out operations (lines 232-246,
    281-299, 347-361): a falsy reply is counted and skipped, the entries
    of every other reply are converted and appended. *)
Fixpoint collect_replies {R : Type} (convert : R -> result (list record))
    (replies : list (option R)) (network_failures : nat) (result0 : list record)
  : result (nat * list record) :=
  match replies with
  | [] => Ok (network_failures, result0)
  | None :: replies' =>
      collect_replies convert replies' (network_failures + 1) result0
  | Some reply :: replies' =>
      entries <- convert reply ;;
      collect_replies convert replies' network_failures (result0 ++ entries)
  end.

(** Lines 241-246. *)
Definition task_data (task : message) : result record :=
  data <- _message_to_dict task ["task_id"] true ;;
  Ok (filter_fields data TaskState).

(** Lines 239-246: the entries of one reply. *)
Definition task_reply_data (reply : GetTasksInfoReply) : result (list record) :=
  mapM task_data (task_info_entries reply).

(** Lines 217-264. *)
Definition list_tasks (option : ListApiOptions)
  : result (StateApiResult (list (value * record))) :=
  let raylet_ids := get_all_registered_raylet_ids _client in
  replies <- gather (map (fun node_id => get_task_info _client node_id (timeout option))
                         raylet_ids) ;;
  collected <- collect_replies task_reply_data replies 0 [] ;;
  let '(network_failures, result) := collected in
  let warnings0 :=
    if negb (Nat.eqb network_failures 0)
    then Some [RAYLET_QUERY_FAILURE_WARNING (List.length raylet_ids) network_failures]
    else None in
  result <- _filter (filter option) result ;;
  result <- sort_by "task_id" result ;;
  data <- dict_of "task_id" (islice result (limit option)) ;;
  Ok {| data := Some data; warnings := warnings0 |}.

(** Lines 288-299: the worker statistics of one reply. *)
Definition object_reply_data (reply : GetNodeStatsReply) : result (list record) :=
  mapM (fun core_worker_stat => _message_to_dict core_worker_stat ["object_id"] false)
       (core_workers_stats reply).

(** Lines 304-311: the body of the loop over [memory_table.table]. *)
Definition object_data (entry : record) : result record :=
  let data := entry in
  object_ref <- getitem data "object_ref" ;;
  let data := dict_set "object_id" object_ref data in
  let data := dict_del "object_ref" data in
  Ok (filter_fields data ObjectState).

(** Lines 266-329. *)
Definition list_objects (option : ListApiOptions)
  : result (StateApiResult (list (value * record))) :=
  let raylet_ids := get_all_registered_raylet_ids _client in
  replies <- gather (map (fun node_id => get_object_info _client node_id (timeout option))
                         raylet_ids) ;;
  collected <- collect_replies object_reply_data replies 0 [] ;;
  let '(network_failures, worker_stats) := collected in
  memory_table <- construct_memory_table worker_stats ;;
  result <- mapM object_data memory_table ;;
  let warnings0 :=
    if negb (Nat.eqb network_failures 0)
    then Some [RAYLET_QUERY_FAILURE_WARNING (List.length raylet_ids) network_failures]
    else None in
  result <- _filter (filter option) result ;;
  result <- sort_by "object_id" result ;;
  data <- dict_of "object_id" (islice result (limit option)) ;;
  Ok {| data := Some data; warnings := warnings0 |}.

(** Lines 356-361. *)
Definition runtime_env_data (state : message) : result record :=
  data <- _message_to_dict state [] true ;;
  runtime_env <- getitem data "runtime_env" ;;
  runtime_env <- runtime_env_to_dict runtime_env ;;
  let data := dict_set "runtime_env" runtime_env data in
  Ok (filter_fields data RuntimeEnvState).

(** Lines 354-361: the entries of one reply. *)
Definition runtime_env_reply_data (reply : GetRuntimeEnvsInfoReply)
  : result (list record) :=
  mapM runtime_env_data (runtime_env_states reply).

(** Lines 331-378. *)
Definition list_runtime_envs (option : ListApiOptions)
  : result (StateApiResult (list record)) :=
  let agent_ids := get_all_registered_agent_ids _client in
  replies <- gather (map (fun node_id =>
                            get_runtime_envs_info _client node_id (timeout option))
                         agent_ids) ;;
  collected <- collect_replies runtime_env_reply_data replies 0 [] ;;
  let '(network_failures, result) := collected in
  let warnings0 :=
    if negb (Nat.eqb network_failures 0)
    then Some [AGENT_QUERY_FAILURE_WARNING (List.length agent_ids) network_failures]
    else None in
  result <- _filter (filter option) result ;;
  result <- sort_by "ref_cnt" result ;;
  Ok {| data := Some (islice result (limit option)); warnings := warnings0 |}.

(* ---------------------------------------------------------------- *)
(** ** Summary aggregator (lines 380-492) *)
(* ---------------------------------------------------------------- *)

(** Rendering of floating-point results is left to the parameters:
    [format_value v] is [f"{v}"], [format_quotient a b] is
    [f"{round(a / b, 3)}"] and [format_percent a b] is
    [f"{round(a / b * 100, 3)}"], the last two for [b <> 0]. *)
Variable format_value : value -> string.
Variable format_quotient : Z -> Z -> string.
Variable format_percent : Z -> Z -> string.
Variable get_all_node_summary : result (list NodeSummary).

Local Open Scope store_scope.

(** Lines 416-421: the value of [object_store_percent], as rendered on
    line 424. *)
Definition object_store_percent (node_summary : NodeSummary) : result string :=
  let used := get_default (raylet node_summary) "object_store_used_memory" (VInt 0) in
  (available <- getitem (raylet node_summary) "object_store_available_memory" ;;
   used <- as_number used ;;
   available <- as_number available ;;
   if Z.eqb (used + available) 0 then Err ZeroDivisionError
   else Ok (format_percent used (used + available)))%exc.

(** Lines 398-424: the body of the loop over [all_node_summary]. *)
Definition summarize_node (node_summary : NodeSummary) : M unit :=
  node_id <- lift (getitem (raylet node_summary) "nodeId") ;;
  at_key node_id
    (setitem (VStr "cpu") (SStr (format_value (cpu node_summary) ++ "%"))) ;;;
  at_key node_id
    (setitem (VStr "disk_utilization")
       (SStr (format_value (disk_root_percent node_summary) ++ "%"))) ;;;
  at_key node_id
    (setitem (VStr "disk_read")
       (SStr (format_quotient (fst (diskIoSpeed node_summary)) (Z.lxor 1024 2)
              ++ " MB"))) ;;;
  at_key node_id
    (setitem (VStr "disk_write")
       (SStr (format_quotient (snd (diskIoSpeed node_summary)) (Z.lxor 1024 2)
              ++ " MB"))) ;;;
  at_key node_id
    (setitem (VStr "network_sent_speed")
       (SStr (format_quotient (fst (networkSpeed node_summary)) 1024 ++ " KB"))) ;;;
  at_key node_id
    (setitem (VStr "network_recv_speed")
       (SStr (format_quotient (snd (networkSpeed node_summary)) 1024 ++ " KB"))) ;;;
  at_key node_id
    (setitem (VStr "mem_utilization")
       (SStr (format_value (mem_percent node_summary) ++ "%"))) ;;;
  percent <- lift (object_store_percent node_summary) ;;
  at_key node_id
    (setitem (VStr "object_store_utilization") (SStr (percent ++ "%"))).

(** The two counters bumped by each branch of lines 443-465. *)
Definition count_actor_state (node_id class_name : value) (counter : string) : M unit :=
  at_key node_id (at_key (VStr "actors") (at_key class_name (incr (VStr counter)))) ;;;
  at_key (VStr "actors") (at_key class_name (incr (VStr counter))).

(** Lines 427-465: the body of the loop over [actors.data.values()]. *)
Definition summarize_actor (actor : record) : M unit :=
  address <- lift (getitem actor "address") ;;
  node_id <- lift (getitem_value address "raylet_id") ;;
  present <- at_key node_id (contains (VStr "actors")) ;;
  when (negb present)
    (at_key node_id (setitem (VStr "actors") (SDict IntFactory []))) ;;;
  present <- contains (VStr "actors") ;;
  when (negb present) (setitem (VStr "actors") (SDict NoFactory [])) ;;;
  class_name <- lift (getitem actor "class_name") ;;
  present <- at_key (VStr "actors") (contains class_name) ;;
  when (negb present)
    (at_key (VStr "actors") (setitem class_name (SDict NoFactory []))) ;;;
  at_key (VStr "actors") (setitem class_name (SDict IntFactory [])) ;;;
  at_key node_id (at_key (VStr "actors") (incr (VStr "cnt"))) ;;;
  at_key (VStr "actors") (at_key class_name (incr (VStr "cnt"))) ;;;
  present <- at_key node_id (at_key (VStr "actors") (contains class_name)) ;;
  when (negb present)
    (at_key node_id
       (at_key (VStr "actors") (setitem class_name (SDict IntFactory [])))) ;;;
  state <- lift (getitem actor "state") ;;
  if eq_str state "DEPENDENCIES_UNREADY" then
    count_actor_state node_id class_name "dep_unready_cnt"
  else if eq_str state "PENDING_CREATION" then
    count_actor_state node_id class_name "pending_cnt"
  else if eq_str state "ALIVE" then
    count_actor_state node_id class_name "alive_cnt"
  else if eq_str state "RESTARTING" then
    count_actor_state node_id class_name "restarting_cnt"
  else if eq_str state "DEAD" then
    count_actor_state node_id class_name "dead_cnt"
  else ret tt.

(** Lines 468-481: the body of the loop over [tasks.data.values()]. *)
Definition summarize_task (task : record) : M unit :=
  type <- lift (getitem task "type") ;;
  if eq_str type "ACTOR_CREATION_TASK" then ret tt          (* continue *)
  else
    present <- contains (VStr "tasks") ;;
    when (negb present) (setitem (VStr "tasks") (SDict NoFactory [])) ;;;
    name <- lift (getitem task "name") ;;
    present <- at_key (VStr "tasks") (contains name) ;;
    when (negb present)
      (at_key (VStr "tasks") (setitem name (SDict IntFactory []))) ;;;
    at_key (VStr "tasks") (at_key name (incr (VStr "cnt"))) ;;;
    scheduling_state <- lift (getitem task "scheduling_state") ;;
    if eq_str scheduling_state "WAITING_FOR_DEPENDENCIES" then
      at_key (VStr "tasks") (at_key name (incr (VStr "wait_for_dep_cnt")))
    else if eq_str scheduling_state "SCHEDULED" then
      at_key (VStr "tasks") (at_key name (incr (VStr "scheduled_cnt")))
    else if eq_str scheduling_state "FINISHED" then
      at_key (VStr "tasks") (at_key name (incr (VStr "finished_cnt")))
    else ret tt.

(** Lines 484-489: the body of the loop over [workers.data.values()]. *)
Definition summarize_worker (worker : record) : M unit :=
  worker_address <- lift (getitem worker "worker_address") ;;
  node_id <- lift (getitem_value worker_address "raylet_id") ;;
  is_alive <- lift (getitem worker "is_alive") ;;
  when (truthy is_alive)
    (present <- at_key node_id (contains (VStr "num_workers")) ;;
     when (negb present) (at_key node_id (setitem (VStr "num_workers") (SInt 0))) ;;;
     at_key node_id (incr (VStr "num_workers"))).

(** [result.data.values()]: [data] is [None] when the list operation
    reported a failure, and [None] has no attribute [values]. *)
Definition data_values (r : StateApiResult (list (value * record)))
  : result (list record) :=
  match data r with
  | Some d => Ok (map snd d)
  | None => Err AttributeError
  end.

(** Lines 380-492. *)
Definition summary : result sval :=
  let op := {| timeout := 30; limit := 1000; filter := "" |} in
  (results <- gather [list_actors op; list_tasks op; list_workers op] ;;
   match results with
   | [actors; tasks; workers] =>
       all_node_summary <- get_all_node_summary ;;
       let node_to_summary := SDict DictFactory [] in
       out <- (for_each all_node_summary summarize_node ;;;
               actor_values <- lift (data_values actors) ;;
               for_each actor_values summarize_actor ;;;
               task_values <- lift (data_values tasks) ;;
               for_each task_values summarize_task ;;;
               worker_values <- lift (data_values workers) ;;
               for_each worker_values summarize_worker)%store node_to_summary ;;
       Ok (snd out)
   | _ => Err TypeError
   end)%exc.

End Methods.
End StateAPIManager.

Import StateAPIManager.

(* ================================================================== *)
(** * Vocabulary of the statements *)
(* ================================================================== *)

(** The text [k=v] of a clause. *)
Definition clause_text (kv : string * string) : string :=
  fst kv ++ String "=" (snd kv).

(** A token of a well-formed clause: not empty, free of [=] and [,]. *)
Definition tokenb (s : string) : bool :=
  negb (String.eqb s EmptyString)
  && Nat.eqb (count_char "=" s) 0 && Nat.eqb (count_char "," s) 0.

Definition well_formed_clause (kv : string * string) : bool :=
  tokenb (fst kv) && tokenb (snd kv).

(** The record has the field of the clause, and its value is the string of
    the clause. *)
Definition satisfies_clause (d : record) (kv : string * string) : bool :=
  match lookup (fst kv) d with
  | Some (VStr s) => String.eqb s (snd kv)
  | _ => false
  end.

Definition satisfies_all (clauses : list (string * string)) (d : record) : bool :=
  forallb (satisfies_clause d) clauses.

(** A later clause names the field [k] again. *)
Definition overridden (k : string) (later : list (string * string)) : bool :=
  existsb (fun kv => String.eqb (fst kv) k) later.

(** The clauses that no later clause overrides. *)
Fixpoint effective (clauses : list (string * string)) : list (string * string) :=
  match clauses with
  | [] => []
  | kv :: later =>
      if overridden (fst kv) later then effective later else kv :: effective later
  end.

(** [kv_filters[k] = v] for a clause given as a pair. *)
Definition set_clause (kv_filters : list (string * string)) (kv : string * string)
  : list (string * string) :=
  dict_set (fst kv) (snd kv) kv_filters.

(** The replies of the peers that answered, and the number of those that
    did not. *)
Definition survivors {R : Type} (replies : list (option R)) : list R :=
  flat_map (fun reply => match reply with Some r => [r] | None => [] end) replies.

Definition failures {R : Type} (replies : list (option R)) : nat :=
  List.length (List.filter (fun reply => match reply with None => true | Some _ => false end)
                           replies).

(** The identifier of a record, when it is a string. *)
Definition str_id (key : string) (d : record) : option string :=
  match lookup key d with
  | Some (VStr s) => Some s
  | _ => None
  end.

(** Records that carry a string under [key], and the string. *)
Definition has_str_id (key : string) (d : record) : Prop :=
  exists s, lookup key d = Some (VStr s).

Definition id_text (key : string) (d : record) : string :=
  match str_id key d with
  | Some s => s
  | None => EmptyString
  end.

(** Every record has a string identifier, and no two have the same. *)
Definition distinct_ids (key : string) (l : list record) : Prop :=
  Forall (has_str_id key) l /\ NoDup (map (id_text key) l).

(** The mapping from identifier to record of records with distinct string
    identifiers. *)
Definition keyed (key : string) (l : list record) : list (value * record) :=
  map (fun d => (VStr (id_text key d), d)) l.

(** Ascending order of the identifiers: no record comes after one with a
    greater identifier. *)
Definition ascending (key : string) (l : list record) : Prop :=
  StronglySorted
    (fun d e => String.ltb (id_text key e) (id_text key d) = false) l.

(** The string of a sort key. *)
Definition key_text (k : value) : string :=
  match k with
  | VStr s => s
  | _ => EmptyString
  end.

Definition keys_ascending {A : Type} (l : list (value * A)) : Prop :=
  StronglySorted
    (fun p q => String.ltb (key_text (fst q)) (key_text (fst p)) = false) l.

(** Every sort key of the list is a string. *)
Definition str_keyed {A : Type} (l : list (value * A)) : Prop :=
  Forall (fun p => exists s, fst p = VStr s) l.

(** The records that a fan-out operation works on: the entries of the
    replies of the peers that answered, in the order of the peers. *)
Definition fetched {R : Type} (convert : R -> result (list record))
    (replies : list (option R)) : result (list record) :=
  (entries <- mapM convert (survivors replies) ;; Ok (List.concat entries))%exc.

(** One warning built from the template when a peer failed, else [None]. *)
Definition expected_warnings (template : nat -> nat -> string) (total failed : nat)
  : option (list string) :=
  if Nat.eqb failed 0 then None else Some [template total failed].

(** What a keyed list operation returns on [records] when the records that
    pass the filter have distinct string identifiers: one entry for each of
    the first [limit] records of the filtered list sorted by identifier. *)
Definition paginates (key : string) (opt : ListApiOptions) (records : list record)
    (warnings0 : option (list string))
    (out : result (StateApiResult (list (value * record)))) : Prop :=
  forall filtered,
    _filter (filter opt) records = Ok filtered ->
    distinct_ids key filtered ->
    exists sorted,
      sort_by key filtered = Ok sorted
      /\ Permutation sorted filtered
      /\ ascending key sorted
      /\ out = Ok {| data := Some (keyed key (firstn (limit opt) sorted));
                     warnings := warnings0 |}
      /\ List.length (keyed key (firstn (limit opt) sorted))
         = Nat.min (limit opt) (List.length filtered).

(** What a keyed list operation does on [records] when a record that passes
    the filter has no identifier. *)
Definition raises_without_id (key : string) (opt : ListApiOptions)
    (records : list record)
    (out : result (StateApiResult (list (value * record)))) : Prop :=
  forall filtered d,
    _filter (filter opt) records = Ok filtered ->
    In d filtered -> lookup key d = None ->
    out = Err KeyError.

(** The statements that end every keyed list operation (lines 123-128,
    151-156, 175-180, 202-207, 258-264, 323-329), for the identifier [key]
    and the warnings computed before them. *)
Definition keyed_page (key : string) (opt : ListApiOptions)
    (warnings0 : option (list string)) (records : list record)
  : result (StateApiResult (list (value * record))) :=
  (result <- _filter (filter opt) records ;;
   result <- sort_by key result ;;
   data <- dict_of key (islice result (limit opt)) ;;
   Ok {| data := Some data; warnings := warnings0 |})%exc.

(** ** Fixtures for the examples *)

(** A decoder for messages that are given by their dictionary. *)
Definition decode_identity (m : record) (_ : list string) (_ _ : bool) : result record :=
  Ok m.

Definition fixture_fields : list string :=
  ["actor_id"; "placement_group_id"; "node_id"; "worker_id"; "task_id";
   "object_id"; "ref_cnt"; "state"; "class_name"; "address"; "name"; "type";
   "scheduling_state"; "worker_address"; "is_alive"; "runtime_env";
   "reference_type"].

(** A client whose coordination service answers [gcs] to every call and
    whose peers answer what [peers] lists for them. *)
Definition fixture_client (gcs : result (option (list record)))
    (jobs : list (string * string))
    (peers : list (string * result (option (list record))))
  : StateDataSourceClient record string :=
  let wrap {R : Type} (mk : list record -> R) (r : result (option (list record)))
    : result (option R) :=
    match r with
    | Ok (Some l) => Ok (Some (mk l))
    | Ok None => Ok None
    | Err e => Err e
    end in
  let peer (node_id : string) : result (option (list record)) :=
    match lookup node_id peers with
    | Some r => r
    | None => Ok None
    end in
  {| get_all_actor_info := fun _ => wrap (@Build_GetAllActorInfoReply record) gcs;
     get_all_placement_group_info :=
       fun _ => wrap (@Build_GetAllPlacementGroupReply record) gcs;
     get_all_node_info := fun _ => wrap (@Build_GetAllNodeInfoReply record) gcs;
     get_all_worker_info := fun _ => wrap (@Build_GetAllWorkerInfoReply record) gcs;
     get_job_info := Ok jobs;
     get_all_registered_raylet_ids := map fst peers;
     get_task_info := fun node_id _ => wrap (@Build_GetTasksInfoReply record) (peer node_id);
     get_object_info := fun node_id _ => wrap (@Build_GetNodeStatsReply record) (peer node_id);
     get_all_registered_agent_ids := map fst peers;
     get_runtime_envs_info :=
       fun node_id _ => wrap (@Build_GetRuntimeEnvsInfoReply record) (peer node_id) |}.

Definition fixture_option (limit0 : nat) (filter0 : string) : ListApiOptions :=
  {| limit := limit0; timeout := 30; filter := filter0 |}.

Definition fixture_actor (actor_id class_name state : string) : record :=
  [("actor_id", VStr actor_id); ("class_name", VStr class_name);
   ("state", VStr state); ("address", VDict [("raylet_id", VStr "n1")])].

Definition fixture_task (task_id name scheduling_state : string) : record :=
  [("task_id", VStr task_id); ("name", VStr name); ("type", VStr "NORMAL_TASK");
   ("scheduling_state", VStr scheduling_state)].

(** A cluster for [summary]: the coordination service knows [actors] and
    [workers], the raylets answer what [peers] lists for them. *)
Definition fixture_cluster (actors workers : list record)
    (peers : list (string * result (option (list record))))
  : StateDataSourceClient record string :=
  let base := fixture_client (Ok None) [] peers in
  {| get_all_actor_info := fun _ => Ok (Some {| actor_table_data := actors |});
     get_all_placement_group_info := get_all_placement_group_info base;
     get_all_node_info := get_all_node_info base;
     get_all_worker_info := fun _ => Ok (Some {| worker_table_data := workers |});
     get_job_info := get_job_info base;
     get_all_registered_raylet_ids := get_all_registered_raylet_ids base;
     get_task_info := get_task_info base;
     get_object_info := get_object_info base;
     get_all_registered_agent_ids := get_all_registered_agent_ids base;
     get_runtime_envs_info := get_runtime_envs_info base |}.

(** Stand-ins for the rendering of numbers in the examples; no statement
    depends on what they print. *)
Definition fixture_format_value (v : value) : string :=
  match v with
  | VStr s => s
  | VInt z => NilZero.string_of_int (Z.to_int z)
  | _ => EmptyString
  end.

Definition fixture_format_ratio (a b : Z) : string :=
  NilZero.string_of_int (Z.to_int a) ++ "/" ++ NilZero.string_of_int (Z.to_int b).

Definition fixture_node (node_id : string) (memory : list (string * value)) : NodeSummary :=
  {| raylet := ("nodeId", VStr node_id) :: memory;
     cpu := VInt 12;
     disk_root_percent := VInt 40;
     diskIoSpeed := (2052, 0)%Z;
     networkSpeed := (2048, 1024)%Z;
     mem_percent := VInt 55 |}.

(** ** Vocabulary for the summary *)

(** The divisor of line 418: used memory (0 when the key is absent) plus
    available memory, when both are numbers. *)
Definition object_store_total (node_summary : NodeSummary) : option Z :=
  match as_int (get_default (raylet node_summary) "object_store_used_memory" (VInt 0)),
        lookup "object_store_available_memory" (raylet node_summary) with
  | Some used, Some v =>
      match as_int v with
      | Some available => Some (used + available)%Z
      | None => None
      end
  | _, _ => None
  end.

(** A node summary that the loop of lines 397-424 can read: a hashable
    node identifier and numeric object-store figures. *)
Definition readable_node (node_summary : NodeSummary) : bool :=
  match lookup "nodeId" (raylet node_summary), object_store_total node_summary with
  | Some node_id, Some _ => hashable node_id
  | _, _ => false
  end.

(** The mapping while the loop over the nodes runs: a [defaultdict(dict)]
    whose entries are plain dictionaries. *)
Definition node_store (s : sval) : Prop :=
  exists items,
    s = SDict DictFactory items
    /\ Forall (fun kv => exists entries, snd kv = SDict NoFactory entries) items.

(** The entry of a dictionary of the mapping under a string key. *)
Definition top_entry (s : sval) (k : string) : option sval :=
  match s with
  | SDict _ items => vlookup (VStr k) items
  | _ => None
  end.

(** The counters of a class in the cluster-wide breakdown,
    [node_to_summary["actors"][class_name]]. *)
Definition cluster_counters (s : sval) (class_name : string) : option sval :=
  match top_entry s "actors" with
  | Some classes => top_entry classes class_name
  | None => None
  end.

(** The counter that lines 443-465 bump for a state. *)
Definition state_counter (state : value) : option string :=
  if eq_str state "DEPENDENCIES_UNREADY" then Some "dep_unready_cnt"
  else if eq_str state "PENDING_CREATION" then Some "pending_cnt"
  else if eq_str state "ALIVE" then Some "alive_cnt"
  else if eq_str state "RESTARTING" then Some "restarting_cnt"
  else if eq_str state "DEAD" then Some "dead_cnt"
  else None.

(** What [d.get(column)] yields on a record. *)
Definition field (d : record) (column : string) : value :=
  match lookup column d with
  | Some v => v
  | None => VNone
  end.

(** The test that lines 92-98 make of one entry of [kv_filters]. *)
Definition clause_passes (d : record) (kv : string * string) : bool :=
  truthy (field d (fst kv)) && eq_str (field d (fst kv)) (snd kv).

(** ** Vocabulary for records that share an identifier *)

(** The last record of a list whose value under [key] equals [k] as a
    dictionary key. *)
Fixpoint last_with (key : string) (k : value) (l : list record) : option record :=
  match l with
  | [] => None
  | d :: l' =>
      match last_with key k l' with
      | Some e => Some e
      | None =>
          match lookup key d with
          | Some k' => if key_eqb k' k then Some d else None
          | None => None
          end
      end
  end.

(** The records of a list with a given identifier, in their order. *)
Definition with_id (key id : string) (l : list record) : list record :=
  List.filter (fun d => String.eqb (id_text key d) id) l.

(** What a keyed list operation returns on [records] when the records that
    pass the filter have string identifiers, distinct or not: the filtered
    records are sorted by identifier, those with the same identifier in the
    order they had, and under an identifier the mapping holds the last of
    the first [limit] sorted records that carries it. *)
Definition keeps_last (key : string) (opt : ListApiOptions) (records : list record)
    (warnings0 : option (list string))
    (out : result (StateApiResult (list (value * record)))) : Prop :=
  forall filtered,
    _filter (filter opt) records = Ok filtered ->
    Forall (has_str_id key) filtered ->
    exists sorted entries,
      sort_by key filtered = Ok sorted
      /\ ascending key sorted
      /\ (forall id, with_id key id sorted = with_id key id filtered)
      /\ out = Ok {| data := Some entries; warnings := warnings0 |}
      /\ forall id,
          vlookup (VStr id) entries
          = last_with key (VStr id) (firstn (limit opt) sorted).

(** ** Vocabulary for the runtime environments *)

(** The number that a sort key stands for, when it is one. *)
Definition key_num (k : value) : Z :=
  match as_int k with
  | Some z => z
  | None => 0%Z
  end.

(** The reference count of a runtime environment, when it is a number. *)
Definition ref_count (d : record) : option Z :=
  match lookup "ref_cnt" d with
  | Some v => as_int v
  | None => None
  end.

Definition count_of (d : record) : Z :=
  match ref_count d with
  | Some z => z
  | None => 0%Z
  end.

(** Ascending order of the reference counts: no record comes after one
    with a greater count. *)
Definition ascending_counts (l : list record) : Prop :=
  StronglySorted (fun d e => (count_of d <=? count_of e)%Z = true) l.

Definition nums_ascending {A : Type} (l : list (value * A)) : Prop :=
  StronglySorted (fun p q => (key_num (fst p) <=? key_num (fst q))%Z = true) l.

(** Every sort key of the list is a number. *)
Definition int_keyed {A : Type} (l : list (value * A)) : Prop :=
  Forall (fun p => as_int (fst p) <> None) l.

(** The records of a list with a given reference count, in their order. *)
Definition with_count (z : Z) (l : list record) : list record :=
  List.filter (fun d => (count_of d =? z)%Z) l.

(** ** Vocabulary for the rollups of the summary *)

(** The value of a counter of a [defaultdict(int)]: 0 until it is
    bumped. *)
Definition counter_value (e : sval) (c : string) : Z :=
  match top_entry e c with
  | Some (SInt z) => z
  | _ => 0%Z
  end.

(** The counters of a task name, [node_to_summary["tasks"][name]]. *)
Definition task_counters (s : sval) (name : string) : option sval :=
  match top_entry s "tasks" with
  | Some names => top_entry names name
  | None => None
  end.

(** A dictionary whose entries under string keys are integers. *)
Definition int_valued (items : list (value * sval)) : Prop :=
  forall c v, vlookup (VStr c) items = Some v -> exists z, v = SInt z.

(** The mapping while the loop over the tasks runs: the key "tasks" is
    absent, or holds a plain dictionary of [defaultdict(int)] counters. *)
Definition task_rollup (s : sval) : Prop :=
  exists f items,
    s = SDict f items
    /\ forall t, vlookup (VStr "tasks") items = Some t ->
         exists names,
           t = SDict NoFactory names
           /\ forall name e, vlookup (VStr name) names = Some e ->
                exists cs, e = SDict IntFactory cs /\ int_valued cs.

(** A task that the loop of lines 467-481 can read: it has a type and,
    unless that is ACTOR_CREATION_TASK, a string name and a scheduling
    state. *)
Definition countable_task (task : record) : bool :=
  match lookup "type" task with
  | Some type =>
      eq_str type "ACTOR_CREATION_TASK"
      || match lookup "name" task, lookup "scheduling_state" task with
         | Some (VStr _), Some _ => true
         | _, _ => false
         end
  | None => false
  end.

(** The counter that lines 476-481 bump for a scheduling state. *)
Definition task_counter (scheduling_state : value) : option string :=
  if eq_str scheduling_state "WAITING_FOR_DEPENDENCIES" then Some "wait_for_dep_cnt"
  else if eq_str scheduling_state "SCHEDULED" then Some "scheduled_cnt"
  else if eq_str scheduling_state "FINISHED" then Some "finished_cnt"
  else None.

(** Whether [task] counts for the counter [c] of [name]: it is not an
    actor-creation task, it has that name, and [c] is [cnt] or the counter
    of its scheduling state. *)
Definition bumps (task : record) (name c : string) : bool :=
  negb (eq_str (field task "type") "ACTOR_CREATION_TASK")
  && eq_str (field task "name") name
  && (String.eqb "cnt" c
      || match task_counter (field task "scheduling_state") with
         | Some c' => String.eqb c' c
         | None => false
         end).

(** The number of tasks of a list that count for a counter of a name. *)
Definition tally (tasks : list record) (name c : string) : nat :=
  List.length (List.filter (fun task => bumps task name c) tasks).

(** Whether the rollup of the tasks has an entry for a name. *)
Definition listed (s : sval) (name : string) : bool :=
  match task_counters s name with
  | Some _ => true
  | None => false
  end.

(** A counter of a name in the rollup of the tasks, 0 when the name has no
    entry. *)
Definition task_count (s : sval) (name c : string) : Z :=
  match task_counters s name with
  | Some e => counter_value e c
  | None => 0%Z
  end.

(** A field of the entry of a node, [node_to_summary[node_id][k]], when
    both are there. *)
Definition node_field (s : sval) (node_id k : string) : option sval :=
  match top_entry s node_id with
  | Some entry => top_entry entry k
  | None => None
  end.

(** The number of live workers that lines 484-489 have counted for a node,
    0 when they have counted none. *)
Definition worker_count (s : sval) (node_id : string) : Z :=
  match node_field s node_id "num_workers" with
  | Some (SInt z) => z
  | _ => 0%Z
  end.

(** A worker that the loop of lines 483-489 can read: its address names a
    raylet by a string, and it says whether it is alive. *)
Definition countable_worker (worker : record) : bool :=
  match lookup "worker_address" worker, lookup "is_alive" worker with
  | Some (VDict address), Some _ =>
      match lookup "raylet_id" address with
      | Some (VStr _) => true
      | _ => false
      end
  | _, _ => false
  end.

(** Whether [worker] is a live worker of the node [node_id]. *)
Definition live_on (node_id : string) (worker : record) : bool :=
  truthy (field worker "is_alive")
  && match field worker "worker_address" with
     | VDict address => eq_str (field address "raylet_id") node_id
     | _ => false
     end.

(** The mapping while the loop over the workers runs: every entry is a
    dictionary in which [num_workers], when present, is an integer. *)
Definition worker_store (s : sval) : Prop :=
  exists items,
    s = SDict DictFactory items
    /\ forall node_id e, vlookup (VStr node_id) items = Some e ->
         exists f entries,
           e = SDict f entries
           /\ forall v, vlookup (VStr "num_workers") entries = Some v ->
                exists z, v = SInt z.

(** The same for the entries of the nodes that satisfy [P] only: the
    entries under other keys may be anything. *)
Definition worker_store_on (P : string -> Prop) (s : sval) : Prop :=
  exists items,
    s = SDict DictFactory items
    /\ forall node_id e, P node_id -> vlookup (VStr node_id) items = Some e ->
         exists f entries,
           e = SDict f entries
           /\ forall v, vlookup (VStr "num_workers") entries = Some v ->
                exists z, v = SInt z.

(** What a dictionary of the mapping creates for a missing key. *)
Definition factory_of (s : sval) : option default_factory :=
  match s with
  | SDict f _ => Some f
  | _ => None
  end.

(** ** Vocabulary for the breakdown of the actors *)

(** The breakdown of the actors of a node,
    [node_to_summary[node_id]["actors"]]. *)
Definition node_actors (s : sval) (node_id : string) : option sval :=
  node_field s node_id "actors".

(** The number of actors counted for a node, 0 when none was. *)
Definition node_actor_count (s : sval) (node_id : string) : Z :=
  match node_actors s node_id with
  | Some d => counter_value d "cnt"
  | None => 0%Z
  end.

(** A counter of a class in the breakdown of a node, 0 when it was never
    bumped. *)
Definition node_class_count (s : sval) (node_id class_name counter : string) : Z :=
  match node_actors s node_id with
  | Some d =>
      match top_entry d class_name with
      | Some e => counter_value e counter
      | None => 0%Z
      end
  | None => 0%Z
  end.

(** An actor that the loop of lines 426-465 can read: its address names a
    raylet by a string, it has a string class name and a state; the node is
    not called "actors" and the class is not called "cnt", the two keys
    that the mapping uses for itself. *)
Definition countable_actor (actor : record) : bool :=
  match lookup "address" actor, lookup "class_name" actor, lookup "state" actor with
  | Some (VDict address), Some (VStr class_name), Some _ =>
      match lookup "raylet_id" address with
      | Some (VStr node_id) =>
          negb (String.eqb node_id "actors") && negb (String.eqb class_name "cnt")
      | _ => false
      end
  | _, _, _ => false
  end.

(** Whether [actor] lives on the node [node_id]. *)
Definition on_node (node_id : string) (actor : record) : bool :=
  match field actor "address" with
  | VDict address => eq_str (field address "raylet_id") node_id
  | _ => false
  end.

Definition of_class (class_name : string) (actor : record) : bool :=
  eq_str (field actor "class_name") class_name.

(** Whether the state of [actor] is the one counted by [counter]. *)
Definition in_state (counter : string) (actor : record) : bool :=
  match state_counter (field actor "state") with
  | Some c => String.eqb c counter
  | None => false
  end.

(** The counters that the cluster-wide breakdown holds for the class of an
    actor once the body of the loop has run for it. *)
Definition counters_of_one (actor : record) : sval :=
  SDict IntFactory
    ((VStr "cnt", SInt 1)
     :: match state_counter (field actor "state") with
        | Some counter => [(VStr counter, SInt 1)]
        | None => []
        end).

(** The counters of one class of the breakdown of a node: a
    [defaultdict(int)] of integers. *)
Definition class_counters (e : sval) : Prop :=
  exists cs, e = SDict IntFactory cs /\ int_valued cs.

(** The breakdown of a node: a [defaultdict(int)] with the number of
    actors under [cnt] and the counters of a class under its name. *)
Definition node_breakdown (d : sval) : Prop :=
  exists ds,
    d = SDict IntFactory ds
    /\ (forall v, vlookup (VStr "cnt") ds = Some v -> exists z, v = SInt z)
    /\ forall c e, c <> "cnt" -> vlookup (VStr c) ds = Some e -> class_counters e.

(** The mapping while the loop over the actors runs: the entry "actors",
    when present, is a dictionary, and the entry of a node is a dictionary
    in which "actors", when present, is a breakdown. *)
Definition actor_store (s : sval) : Prop :=
  exists items,
    s = SDict DictFactory items
    /\ (forall a, vlookup (VStr "actors") items = Some a ->
                  exists f names, a = SDict f names)
    /\ forall n e, n <> "actors" -> vlookup (VStr n) items = Some e ->
         exists f entries,
           e = SDict f entries
           /\ forall d, vlookup (VStr "actors") entries = Some d -> node_breakdown d.

(** ** Vocabulary for the summary as a whole *)

(** A key of the mapping that stands for a node: the mapping keeps the
    cluster-wide breakdown of the actors under "actors" and the rollup of
    the tasks under "tasks", beside the entries of the nodes. *)
Definition node_key (n : string) : Prop := n <> "actors" /\ n <> "tasks".

(** A node summary that [summary] takes in: a string identifier that is a
    node key, and an object-store total that is not zero. *)
Definition summarizable_node (node : NodeSummary) : bool :=
  match lookup "nodeId" (raylet node), object_store_total node with
  | Some (VStr node_id), Some total =>
      negb (String.eqb node_id "actors") && negb (String.eqb node_id "tasks")
      && negb (Z.eqb total 0)
  | _, _ => false
  end.

(** An actor and a worker that [summary] takes in: readable, and on a node
    whose identifier is a node key. *)
Definition summarizable_actor (actor : record) : bool :=
  countable_actor actor && negb (on_node "tasks" actor).

Definition summarizable_worker (worker : record) : bool :=
  countable_worker worker
  && negb (live_on "actors" worker) && negb (live_on "tasks" worker).

(** The mapping after the loop over the nodes: the entries are plain
    dictionaries without breakdown of actors and without number of
    workers, and the keys "actors" and "tasks" are not there. *)
Definition fresh_nodes (s : sval) : Prop :=
  node_store s
  /\ top_entry s "actors" = None
  /\ top_entry s "tasks" = None
  /\ forall n, node_field s n "actors" = None /\ node_field s n "num_workers" = None.

(* ================================================================== *)
(** * Properties of the filter engine *)
(* ================================================================== *)

Lemma split_nonempty sep s : split sep s <> [].
Proof.
  destruct s as [|c s]; simpl; [discriminate|].
  destruct (Ascii.eqb c sep); [discriminate|].
  destruct (split sep s); discriminate.
Qed.

Lemma split_app_sep sep s1 s2 :
  split sep (s1 ++ String sep s2) = split sep s1 ++ split sep s2.
Proof.
  induction s1 as [|c s1 IH]; simpl.
  - now rewrite Ascii.eqb_refl.
  - destruct (Ascii.eqb c sep); [now rewrite IH|].
    rewrite IH. destruct (split sep s1) eqn:E; [|reflexivity].
    now apply split_nonempty in E.
Qed.

Lemma split_no_sep sep s : count_char sep s = 0 -> split sep s = [s].
Proof.
  induction s as [|c s IH]; simpl; [reflexivity|].
  destruct (Ascii.eqb c sep); [discriminate|].
  intros H. now rewrite (IH H).
Qed.

Lemma split_length sep s : List.length (split sep s) = S (count_char sep s).
Proof.
  induction s as [|c s IH]; simpl; [reflexivity|].
  destruct (Ascii.eqb c sep); simpl; [now rewrite IH|].
  destruct (split sep s) eqn:E; [now apply split_nonempty in E|].
  simpl in *. exact IH.
Qed.

(** A comma-separated filter string splits into the pieces of its parts. *)
Lemma split_join_clauses cs :
  cs <> [] -> split "," (join_clauses cs) = flat_map (split ",") cs.
Proof.
  induction cs as [|c cs IH]; [congruence|intros _].
  destruct cs as [|c' cs].
  - simpl. now rewrite app_nil_r.
  - change (join_clauses (c :: c' :: cs)) with (c ++ String "," (join_clauses (c' :: cs)))%string.
    rewrite split_app_sep, IH by discriminate. reflexivity.
Qed.

(** A clause without exactly one [=] leaves [kv_filters] as it is. *)
Lemma add_clause_malformed kv_filters kv :
  count_char "=" kv <> 1 -> add_clause kv_filters kv = kv_filters.
Proof.
  intros H. unfold add_clause.
  pose proof (split_length "=" kv) as L.
  destruct (split "=" kv) as [|a [|b [|c l]]]; try reflexivity.
  simpl in L. congruence.
Qed.

(** A clause with exactly one [=] is recorded, whatever its two sides. *)
Lemma add_clause_applied kv_filters k v :
  count_char "=" k = 0 -> count_char "=" v = 0 ->
  add_clause kv_filters (clause_text (k, v)) = dict_set k v kv_filters.
Proof.
  intros Hk Hv. unfold add_clause, clause_text. simpl fst; simpl snd.
  now rewrite split_app_sep, (split_no_sep _ _ Hk), (split_no_sep _ _ Hv).
Qed.

Lemma fold_add_clause_malformed cs kv_filters :
  Forall (fun c => count_char "=" c <> 1) cs ->
  fold_left add_clause cs kv_filters = kv_filters.
Proof.
  intros H. revert kv_filters.
  induction H as [|c cs Hc _ IH]; intros kv_filters; simpl; [reflexivity|].
  now rewrite add_clause_malformed.
Qed.

Lemma parse_filters_empty : parse_filters "" = [].
Proof. reflexivity. Qed.

Lemma record_get_field (d : record) column : py_get d column = Ok (field d column).
Proof. unfold py_get, record_get, field. now destruct (lookup column d). Qed.

Lemma match_clauses_record (d : record) items matched :
  match_clauses d items matched = Ok (matched && forallb (clause_passes d) items).
Proof.
  revert matched. induction items as [|[column v] items IH]; intros matched; simpl.
  - now rewrite andb_true_r.
  - rewrite record_get_field. simpl. unfold clause_passes at 1. simpl.
    destruct (truthy (field d column)); simpl; [|now rewrite andb_false_r].
    destruct (eq_str (field d column) v); simpl; rewrite IH; [reflexivity|].
    now rewrite andb_false_r.
Qed.

Lemma filter_loop_record kv_filters (data : list record) :
  filter_loop kv_filters data
  = Ok (List.filter (fun d => forallb (clause_passes d) kv_filters) data).
Proof.
  induction data as [|d data IH]; simpl; [reflexivity|].
  rewrite match_clauses_record, IH. simpl. reflexivity.
Qed.

(** On records [_filter] never raises: it keeps the records that pass every
    entry of [kv_filters]. *)
Lemma _filter_record filters (data : list record) :
  _filter filters data
  = Ok (List.filter (fun d => forallb (clause_passes d) (parse_filters filters)) data).
Proof. apply filter_loop_record. Qed.

Lemma _filter_empty (data : list record) : _filter "" data = Ok data.
Proof.
  rewrite _filter_record, parse_filters_empty. simpl.
  induction data as [|d data IH]; simpl; congruence.
Qed.

Lemma _filter_incl filters (data out : list record) :
  _filter filters data = Ok out -> incl out data.
Proof.
  rewrite _filter_record. intros [= <-] d Hd.
  now apply filter_In in Hd.
Qed.

(** ** The dictionary [kv_filters] against the list of clauses *)

Lemma count_char_app c s1 s2 :
  count_char c (s1 ++ s2) = count_char c s1 + count_char c s2.
Proof. induction s1 as [|a s1 IH]; simpl; [reflexivity|]. rewrite IH. lia. Qed.

Lemma tokenb_spec s :
  tokenb s = true -> s <> EmptyString /\ count_char "=" s = 0 /\ count_char "," s = 0.
Proof.
  unfold tokenb. rewrite !andb_true_iff, negb_true_iff, !Nat.eqb_eq.
  intros [[H1 H2] H3]. repeat split; trivial.
  intros ->. discriminate.
Qed.

Lemma clause_text_no_comma kv :
  well_formed_clause kv = true -> count_char "," (clause_text kv) = 0.
Proof.
  unfold well_formed_clause. rewrite andb_true_iff. intros [Hk Hv].
  apply tokenb_spec in Hk, Hv. unfold clause_text.
  rewrite count_char_app. simpl. lia.
Qed.

Lemma fold_add_clause_well_formed cs kv_filters :
  Forall (fun kv => well_formed_clause kv = true) cs ->
  fold_left add_clause (map clause_text cs) kv_filters
  = fold_left set_clause cs kv_filters.
Proof.
  intros H. revert kv_filters.
  induction H as [|[k v] cs Hkv _ IH]; intros kv_filters; simpl; [reflexivity|].
  unfold well_formed_clause in Hkv. apply andb_true_iff in Hkv as [Hk Hv].
  apply tokenb_spec in Hk, Hv. simpl in Hk, Hv.
  rewrite add_clause_applied by tauto. apply IH.
Qed.

Lemma flat_map_split_clauses cs :
  Forall (fun kv => well_formed_clause kv = true) cs ->
  flat_map (split ",") (map clause_text cs) = map clause_text cs.
Proof.
  induction 1 as [|kv cs Hkv _ IH]; simpl; [reflexivity|].
  now rewrite IH, (split_no_sep _ _ (clause_text_no_comma _ Hkv)).
Qed.

Lemma parse_filters_well_formed cs :
  Forall (fun kv => well_formed_clause kv = true) cs ->
  parse_filters (join_clauses (map clause_text cs)) = fold_left set_clause cs [].
Proof.
  intros H. destruct cs as [|kv cs]; [reflexivity|].
  unfold parse_filters.
  rewrite split_join_clauses by discriminate.
  rewrite flat_map_split_clauses by assumption.
  now apply fold_add_clause_well_formed.
Qed.

Section DictSet.
Variable V : Type.
Implicit Types (d : list (string * V)) (k : string) (v : V).

Lemma dict_set_keys d k v x :
  In x (map fst (dict_set k v d)) <-> x = k \/ In x (map fst d).
Proof.
  induction d as [|[k' v'] d IH]; simpl.
  - intuition congruence.
  - destruct (String.eqb_spec k' k) as [->|Hne]; simpl; [intuition congruence|].
    rewrite IH. intuition congruence.
Qed.

Lemma dict_set_NoDup d k v :
  NoDup (map fst d) -> NoDup (map fst (dict_set k v d)).
Proof.
  induction d as [|[k' v'] d IH]; simpl; intros H.
  - constructor; [simpl; tauto|constructor].
  - inversion_clear H as [|? ? Hnin Hd].
    destruct (String.eqb_spec k' k) as [->|Hne]; simpl.
    + now constructor.
    + constructor; [|auto]. rewrite dict_set_keys. intros [->|?]; tauto.
Qed.

Lemma dict_set_In d k v (x : string * V) :
  NoDup (map fst d) ->
  In x (dict_set k v d) <-> x = (k, v) \/ (In x d /\ fst x <> k).
Proof.
  induction d as [|[k' v'] d IH]; simpl; intros H.
  - intuition congruence.
  - inversion_clear H as [|? ? Hnin Hd].
    destruct (String.eqb_spec k' k) as [->|Hne]; simpl.
    + split.
      * intros [<-|Hx]; [now left|]. right. split; [now right|].
        intros E. apply Hnin. rewrite <- E. now apply in_map.
      * intros [->|[[<-|Hx] Hk]]; [now left| |now right].
        now simpl in Hk.
    + rewrite (IH Hd). split.
      * intros [<-|[->|[Hx Hk]]]; [right|now left|right]; simpl; intuition congruence.
      * intros [->|[[<-|Hx] Hk]]; [right; now left|now left|right; right; tauto].
Qed.
End DictSet.

Lemma overridden_cons k kv later :
  overridden k (kv :: later) = String.eqb (fst kv) k || overridden k later.
Proof. reflexivity. Qed.

Lemma fold_set_clause_NoDup cs acc :
  NoDup (map fst acc) -> NoDup (map fst (fold_left set_clause cs acc)).
Proof.
  revert acc. induction cs as [|kv cs IH]; intros acc H; simpl; [assumption|].
  apply IH. now apply dict_set_NoDup.
Qed.

(** [kv_filters] holds the clauses that are not overridden, and what was
    there before and is not named again. *)
Lemma fold_set_clause_In cs acc x :
  NoDup (map fst acc) ->
  In x (fold_left set_clause cs acc)
  <-> In x (effective cs) \/ (In x acc /\ overridden (fst x) cs = false).
Proof.
  revert acc. induction cs as [|kv cs IH]; intros acc H.
  - simpl. tauto.
  - change (fold_left set_clause (kv :: cs) acc)
      with (fold_left set_clause cs (dict_set (fst kv) (snd kv) acc)).
    rewrite IH by now apply dict_set_NoDup.
    rewrite dict_set_In by assumption. rewrite overridden_cons, orb_false_iff.
    rewrite <- surjective_pairing.
    change (effective (kv :: cs))
      with (if overridden (fst kv) cs then effective cs else kv :: effective cs).
    destruct (String.eqb_spec (fst kv) (fst x)) as [E|E];
      destruct (overridden (fst kv) cs) eqn:O; simpl;
      intuition (subst; try congruence).
Qed.

Lemma forallb_same_elements {A : Type} (f : A -> bool) l1 l2 :
  (forall x, In x l1 <-> In x l2) -> forallb f l1 = forallb f l2.
Proof.
  intros H. apply eq_true_iff_eq. rewrite !forallb_forall.
  split; intros G x Hx; apply G, H, Hx.
Qed.

Lemma clause_passes_satisfies d kv :
  snd kv <> EmptyString -> clause_passes d kv = satisfies_clause d kv.
Proof.
  intros Hv. unfold clause_passes, satisfies_clause, field.
  destruct (lookup (fst kv) d) as [[| | |s|]|]; simpl; try reflexivity;
    try (now rewrite andb_false_r).
  destruct (String.eqb_spec s (snd kv)) as [->|]; [|now rewrite andb_false_r].
  rewrite andb_true_r. apply negb_true_iff. now apply String.eqb_neq.
Qed.

Lemma effective_incl cs x : In x (effective cs) -> In x cs.
Proof.
  induction cs as [|kv cs IH]; simpl; [tauto|].
  destruct (overridden (fst kv) cs); simpl; tauto.
Qed.

Lemma effective_covers cs kv :
  In kv cs -> exists kv', In kv' (effective cs) /\ fst kv' = fst kv.
Proof.
  revert kv. induction cs as [|c cs IH]; intros kv; simpl; [tauto|].
  intros [->|Hin].
  - destruct (overridden (fst kv) cs) eqn:O.
    + unfold overridden in O. apply existsb_exists in O as [x [Hx E]].
      apply String.eqb_eq in E. destruct (IH _ Hx) as [kv' [H1 H2]].
      exists kv'. split; [assumption|congruence].
    + exists kv. split; [now left|reflexivity].
  - destruct (IH _ Hin) as [kv' [H1 H2]]. exists kv'. split; [|assumption].
    destruct (overridden (fst c) cs); [assumption|now right].
Qed.

Lemma effective_distinct cs : NoDup (map fst cs) -> effective cs = cs.
Proof.
  induction cs as [|kv cs IH]; simpl; [reflexivity|]. intros H.
  inversion_clear H as [|? ? Hnin Hd].
  replace (overridden (fst kv) cs) with false; [now rewrite IH|].
  symmetry. apply not_true_is_false. unfold overridden. rewrite existsb_exists.
  intros [x [Hx E]]. apply String.eqb_eq in E. apply Hnin. rewrite <- E.
  now apply in_map.
Qed.

Lemma filter_ext_In' {A : Type} (f g : A -> bool) l :
  (forall x, In x l -> f x = g x) -> List.filter f l = List.filter g l.
Proof.
  induction l as [|a l IH]; simpl; intros H; [reflexivity|].
  rewrite (H a) by now left. rewrite IH by (intros; apply H; now right).
  reflexivity.
Qed.

Lemma forallb_ext_In {A : Type} (f g : A -> bool) l :
  (forall x, In x l -> f x = g x) -> forallb f l = forallb g l.
Proof.
  induction l as [|a l IH]; simpl; intros H; [reflexivity|].
  rewrite (H a) by now left. rewrite IH by (intros; apply H; now right).
  reflexivity.
Qed.

Lemma parse_filters_drop_clause before c after :
  count_char "," c = 0 -> count_char "=" c <> 1 ->
  parse_filters (join_clauses (before ++ c :: after))
  = parse_filters (join_clauses (before ++ after)).
Proof.
  intros Hcomma Heq. unfold parse_filters.
  rewrite split_join_clauses by (now destruct before).
  rewrite flat_map_app. simpl flat_map. rewrite (split_no_sep _ _ Hcomma).
  rewrite fold_left_app. simpl fold_left at 1.
  rewrite add_clause_malformed by assumption.
  destruct (before ++ after) as [|c' cs] eqn:E.
  - apply app_eq_nil in E as [-> ->]. reflexivity.
  - rewrite <- E, split_join_clauses by (rewrite E; discriminate).
    now rewrite flat_map_app, fold_left_app.
Qed.

(** C4 (as stated) fails: with the two well-formed clauses [a=1] and [a=2]
    the record whose [a] is ["2"] is kept, although it does not satisfy the
    clause [a=1]. *)
Lemma filter_overridden_clause_counterexample :
  let cs := [("a", "1"); ("a", "2")] in
  let d : record := [("a", VStr "2")] in
  Forall (fun kv => well_formed_clause kv = true) cs
  /\ join_clauses (map clause_text cs) = "a=1,a=2"
  /\ _filter "a=1,a=2" [d] = Ok [d]
  /\ List.filter (satisfies_all cs) [d] = [].
Proof. repeat split; repeat constructor. Qed.

(** C4 (amended).  For a filter string made of well-formed clauses [k=v]
    (both tokens non-empty, free of [=] and [,]), [_filter] returns exactly
    the records of the input, in their order, that have, for every clause
    that no later clause on the same field overrides, the field present with
    the string of the clause as its value; when no field is named twice
    these are the records satisfying every clause.  A record without a
    filtered field is not kept, and the empty filter string keeps every
    record. *)
Theorem filter_keeps_matching_records (cs : list (string * string)) (data : list record) :
  Forall (fun kv => well_formed_clause kv = true) cs ->
  _filter (join_clauses (map clause_text cs)) data
    = Ok (List.filter (satisfies_all (effective cs)) data)
  /\ (NoDup (map fst cs) ->
      _filter (join_clauses (map clause_text cs)) data
        = Ok (List.filter (satisfies_all cs) data))
  /\ (forall d kv out, In kv cs -> lookup (fst kv) d = None ->
      _filter (join_clauses (map clause_text cs)) data = Ok out -> ~ In d out)
  /\ _filter "" data = Ok data.
Proof.
  intros Hwf.
  assert (E : _filter (join_clauses (map clause_text cs)) data
              = Ok (List.filter (satisfies_all (effective cs)) data)).
  { rewrite _filter_record, parse_filters_well_formed by assumption.
    f_equal. apply filter_ext_In'. intros d _. unfold satisfies_all.
    rewrite (forallb_same_elements (clause_passes d)
               (fold_left set_clause cs []) (effective cs)).
    - apply forallb_ext_In. intros kv Hkv. apply clause_passes_satisfies.
      apply effective_incl in Hkv. rewrite Forall_forall in Hwf.
      specialize (Hwf kv Hkv). unfold well_formed_clause in Hwf.
      apply andb_true_iff in Hwf as [_ Hv]. now apply tokenb_spec in Hv.
    - intros x. rewrite fold_set_clause_In by constructor. simpl. tauto. }
  repeat split.
  - exact E.
  - intros Hnd. now rewrite E, effective_distinct.
  - intros d kv out Hin Hnone Hout Hd.
    rewrite E in Hout. injection Hout as <-.
    apply filter_In in Hd as [_ Hd]. unfold satisfies_all in Hd.
    rewrite forallb_forall in Hd.
    destruct (effective_covers _ _ Hin) as [kv' [Hin' Hk]].
    specialize (Hd kv' Hin'). unfold satisfies_clause in Hd.
    now rewrite Hk, Hnone in Hd.
  - apply _filter_empty.
Qed.

(** The filter [state=ALIVE,class_name=Foo] on two live actors of classes
    Foo and Bar keeps the first. *)
Lemma filter_keeps_matching_records_witness :
  let cs := [("state", "ALIVE"); ("class_name", "Foo")] in
  let a1 : record := [("id", VStr "1"); ("state", VStr "ALIVE"); ("class_name", VStr "Foo")] in
  let a2 : record := [("id", VStr "2"); ("state", VStr "ALIVE"); ("class_name", VStr "Bar")] in
  Forall (fun kv => well_formed_clause kv = true) cs
  /\ _filter "state=ALIVE,class_name=Foo" [a1; a2] = Ok [a1].
Proof.
  intros cs a1 a2.
  assert (H : Forall (fun kv => well_formed_clause kv = true) cs)
    by (repeat constructor).
  split; [exact H|].
  exact (proj1 (filter_keeps_matching_records [a1; a2] H)).
Defined.

(** C5 (as stated) fails: the clause [a=] has an empty value token, yet it
    is applied, and adding it to the filter [b=1] empties the output. *)
Lemma empty_value_clause_counterexample :
  let d : record := [("a", VStr "x"); ("b", VStr "1")] in
  split "=" "a=" = ["a"; ""]
  /\ parse_filters "b=1,a=" = [("b", "1"); ("a", "")]
  /\ _filter "b=1" [d] = Ok [d]
  /\ _filter "b=1,a=" [d] = Ok [].
Proof. repeat split. Qed.

(** C5 (amended).  A clause is applied exactly when splitting it on [=]
    yields two tokens, empty or not: a clause [c] with no [=] or with several
    is dropped without error, so a filter string with [c] among its clauses
    gives the same output as the filter string without it; a clause [k=v]
    with one [=] is recorded in [kv_filters] also when [k] or [v] is
    empty. *)
Theorem malformed_clause_ignored (A : Type) `{HasGet A}
    (before after : list string) (c k v : string) (data : list A)
    (kv_filters : list (string * string)) :
  count_char "," c = 0 -> count_char "=" c <> 1 ->
  count_char "=" k = 0 -> count_char "=" v = 0 ->
  add_clause kv_filters c = kv_filters
  /\ _filter (join_clauses (before ++ c :: after)) data
     = _filter (join_clauses (before ++ after)) data
  /\ add_clause kv_filters (clause_text (k, v)) = dict_set k v kv_filters.
Proof.
  intros Hcomma Heq Hk Hv. repeat split.
  - now apply add_clause_malformed.
  - unfold _filter. now rewrite parse_filters_drop_clause.
  - now apply add_clause_applied.
Qed.

(** The clause [a=b=c] has no effect between [state=ALIVE] and [novalue]. *)
Lemma malformed_clause_ignored_witness :
  let d1 : record := [("state", VStr "ALIVE")] in
  let d2 : record := [("state", VStr "DEAD")] in
  (count_char "," "a=b=c" = 0 /\ count_char "=" "a=b=c" <> 1)
  /\ _filter "state=ALIVE,a=b=c,novalue" [d1; d2] = _filter "state=ALIVE,novalue" [d1; d2]
  /\ add_clause [] "a=" = [("a", "")].
Proof.
  intros d1 d2.
  assert (T := @malformed_clause_ignored record _ ["state=ALIVE"] ["novalue"]
                 "a=b=c" "a" "" [d1; d2] []).
  assert (H1 : count_char "," "a=b=c" = 0) by reflexivity.
  assert (H2 : count_char "=" "a=b=c" <> 1) by discriminate.
  specialize (T H1 H2 eq_refl eq_refl).
  split; [split; assumption|].
  split; [exact (proj1 (proj2 T))|exact (proj2 (proj2 T))].
Defined.


(* ================================================================== *)
(** * Properties of the paginator *)
(* ================================================================== *)

Lemma mapM_ok_length {A B : Type} (f : A -> result B) xs ys :
  mapM f xs = Ok ys -> List.length ys = List.length xs.
Proof.
  revert ys. induction xs as [|x xs IH]; simpl; intros ys.
  - now intros [= <-].
  - destruct (f x); simpl; [|discriminate].
    destruct (mapM f xs); simpl; [|discriminate].
    intros [= <-]. simpl. f_equal. now apply IH.
Qed.

Lemma mapM_ok_In {A B : Type} (f : A -> result B) xs ys y :
  mapM f xs = Ok ys -> In y ys -> exists x, In x xs /\ f x = Ok y.
Proof.
  revert ys. induction xs as [|x xs IH]; simpl; intros ys.
  - intros [= <-] [].
  - destruct (f x) as [b|] eqn:E; simpl; [|discriminate].
    destruct (mapM f xs) as [bs|]; simpl; [|discriminate].
    intros [= <-] [<-|Hy].
    + exists x. split; [now left|assumption].
    + destruct (IH bs eq_refl Hy) as [x' [H1 H2]]. exists x'. split; [now right|assumption].
Qed.

Lemma mapM_err_In {A B : Type} (f : A -> result B) xs e :
  mapM f xs = Err e -> exists x, In x xs /\ f x = Err e.
Proof.
  induction xs as [|x xs IH]; simpl; [discriminate|].
  destruct (f x) as [b|e'] eqn:E; simpl.
  - destruct (mapM f xs) as [bs|e'']; simpl; [discriminate|].
    intros [= <-]. destruct (IH eq_refl) as [x' [H1 H2]].
    exists x'. split; [now right|assumption].
  - intros [= <-]. exists x. split; [now left|assumption].
Qed.

Lemma mapM_In_err {A B : Type} (f : A -> result B) xs x e :
  In x xs -> f x = Err e -> exists e', mapM f xs = Err e'.
Proof.
  induction xs as [|a xs IH]; simpl; [tauto|].
  intros [->|Hx] Hf.
  - rewrite Hf. now exists e.
  - destruct (f a); simpl; [|eauto].
    destruct (IH Hx Hf) as [e' ->]. now exists e'.
Qed.

Lemma mapM_total {A B : Type} (f : A -> result B) (g : A -> B) xs :
  (forall x, In x xs -> f x = Ok (g x)) -> mapM f xs = Ok (map g xs).
Proof.
  induction xs as [|x xs IH]; simpl; intros H; [reflexivity|].
  rewrite (H x) by now left. simpl.
  rewrite IH by (intros; apply H; now right). reflexivity.
Qed.

(** ** Sorting *)

Lemma insert_sorted_perm {A : Type} k (x : A) l l' :
  insert_sorted k x l = Ok l' -> Permutation l' ((k, x) :: l).
Proof.
  revert l'. induction l as [|[k' y] l IH]; simpl; intros l'.
  - now intros [= <-].
  - destruct (py_lt k' k) as [[|]|]; simpl; try discriminate.
    + destruct (insert_sorted k x l) as [r|]; simpl; [|discriminate].
      intros [= <-]. rewrite (IH r eq_refl). apply perm_swap.
    + now intros [= <-].
Qed.

Lemma sort_keyed_perm {A : Type} (l l' : list (value * A)) :
  sort_keyed l = Ok l' -> Permutation l' l.
Proof.
  revert l'. induction l as [|[k x] l IH]; simpl; intros l'.
  - now intros [= <-].
  - destruct (sort_keyed l) as [s|]; simpl; [|discriminate].
    intros H. apply insert_sorted_perm in H. rewrite H.
    constructor. now apply IH.
Qed.

Lemma insert_sorted_str {A : Type} s (x : A) l :
  str_keyed l -> exists l', insert_sorted (VStr s) x l = Ok l'.
Proof.
  induction 1 as [|[k' y] l [s' Hk] _ IH]; simpl; [eauto|].
  simpl in Hk. subst k'. simpl.
  destruct (String.ltb s' s); [|eauto].
  destruct IH as [r ->]. simpl. eauto.
Qed.

Lemma sort_keyed_str {A : Type} (l : list (value * A)) :
  str_keyed l -> exists l', sort_keyed l = Ok l'.
Proof.
  induction 1 as [|[k x] l [s Hk] Hl IH]; simpl; [eauto|].
  simpl in Hk. subst k. destruct IH as [r Hr]. rewrite Hr. simpl.
  apply insert_sorted_str. unfold str_keyed.
  apply (Permutation_Forall (Permutation_sym (sort_keyed_perm _ Hr))). exact Hl.
Qed.

Lemma sort_by_keys key entries :
  mapM (fun entry => k <- getitem entry key ;; Ok (k, entry)) entries
  = match mapM (fun entry => getitem entry key) entries with
    | Ok ks => Ok (combine ks entries)
    | Err e => Err e
    end.
Proof.
  induction entries as [|d entries IH]; simpl; [reflexivity|].
  destruct (getitem d key); simpl; [|reflexivity].
  rewrite IH. now destruct (mapM (fun entry => getitem entry key) entries).
Qed.

Lemma map_snd_combine {A B : Type} (ks : list A) (xs : list B) :
  List.length ks = List.length xs -> map snd (combine ks xs) = xs.
Proof.
  revert xs. induction ks as [|k ks IH]; intros [|x xs]; simpl; try discriminate;
    [reflexivity|]. intros [= H]. now rewrite IH.
Qed.

(** A sort that returns gives a rearrangement of its input. *)
Lemma sort_by_perm key entries sorted :
  sort_by key entries = Ok sorted -> Permutation sorted entries.
Proof.
  unfold sort_by. rewrite sort_by_keys.
  destruct (mapM (fun entry => getitem entry key) entries) as [ks|] eqn:E;
    simpl; [|discriminate].
  destruct (sort_keyed (combine ks entries)) as [sk|] eqn:S; simpl; [|discriminate].
  intros [= <-]. apply sort_keyed_perm in S.
  rewrite (Permutation_map snd S).
  now rewrite map_snd_combine by (eapply mapM_ok_length; eassumption).
Qed.

Lemma getitem_err d key e : getitem d key = Err e -> e = KeyError.
Proof. unfold getitem. destruct (lookup key d); congruence. Qed.

Lemma mapM_getitem_missing key entries d :
  In d entries -> lookup key d = None ->
  mapM (fun entry => getitem entry key) entries = Err KeyError.
Proof.
  intros Hd Hnone. induction entries as [|a entries IH]; simpl; [destruct Hd|].
  destruct Hd as [->|Hd].
  - unfold getitem at 1. now rewrite Hnone.
  - destruct (getitem a key) eqn:E; simpl.
    + now rewrite (IH Hd).
    + now rewrite (getitem_err _ _ E).
Qed.

(** A record without the key makes the sort raise [KeyError]. *)
Lemma sort_by_missing_key key entries d :
  In d entries -> lookup key d = None -> sort_by key entries = Err KeyError.
Proof.
  intros Hd Hnone. unfold sort_by. rewrite sort_by_keys.
  now rewrite (mapM_getitem_missing _ _ _ Hd Hnone).
Qed.

(** Records with string identifiers can always be sorted. *)
Lemma sort_by_str key entries :
  Forall (has_str_id key) entries -> exists sorted, sort_by key entries = Ok sorted.
Proof.
  intros H. unfold sort_by. rewrite sort_by_keys.
  rewrite (mapM_total _ (fun d => VStr (id_text key d))).
  - simpl bind.
    destruct (@sort_keyed_str record
                (combine (map (fun d => VStr (id_text key d)) entries) entries))
      as [sk Hsk].
    + clear H. unfold str_keyed.
      induction entries as [|d entries IH]; simpl; constructor;
        [simpl; eauto|assumption].
    + rewrite Hsk. simpl. eauto.
  - intros d Hd. rewrite Forall_forall in H. destruct (H d Hd) as [s Hs].
    unfold getitem, id_text, str_id. now rewrite Hs.
Qed.

(** ** Order of the sorted output *)

Lemma ltb_asym a b : String.ltb a b = true -> String.ltb b a = false.
Proof.
  unfold String.ltb. rewrite (String.compare_antisym a b).
  destruct (String.compare b a); simpl; congruence.
Qed.

Lemma ltb_lt a b : String.ltb a b = true <-> String_as_OT.lt a b.
Proof.
  rewrite <- String_as_OT.cmp_lt. unfold String_as_OT.cmp, String.ltb.
  destruct (String.compare a b); simpl; intuition congruence.
Qed.

(** "Not greater" is transitive: the order of strings is total. *)
Lemma not_ltb_trans a b c :
  String.ltb b a = false -> String.ltb c b = false -> String.ltb c a = false.
Proof.
  intros Hab Hbc. apply not_true_is_false. intros Hca.
  destruct (String.compare a b) eqn:C.
  - apply String.compare_eq_iff in C. subst. congruence.
  - assert (Hlt : String.ltb a b = true) by (unfold String.ltb; now rewrite C).
    apply ltb_lt in Hca, Hlt.
    pose proof (@String_as_OT.lt_trans _ _ _ Hca Hlt) as H. apply ltb_lt in H. congruence.
  - assert (Hlt : String.ltb b a = true).
    { unfold String.ltb. rewrite (String.compare_antisym b a), C. reflexivity. }
    congruence.
Qed.

Lemma insert_sorted_ascending {A : Type} s (x : A) l l' :
  str_keyed l -> keys_ascending l ->
  insert_sorted (VStr s) x l = Ok l' -> keys_ascending l'.
Proof.
  unfold keys_ascending. intros Hstr Hsorted. revert l'.
  induction Hsorted as [|[k' y] l Hl IH Hhd]; intros l'; simpl.
  - intros [= <-]. repeat constructor.
  - inversion_clear Hstr as [|? ? [s' Hk] Hstr']. simpl in Hk. subst k'. simpl.
    destruct (String.ltb s' s) eqn:L.
    + destruct (insert_sorted (VStr s) x l) as [r|] eqn:R; simpl; [|discriminate].
      intros [= <-]. constructor; [now apply IH|].
      apply (Permutation_Forall (Permutation_sym (insert_sorted_perm _ _ _ R))).
      constructor; [simpl; now apply ltb_asym|assumption].
    + intros [= <-]. constructor; [now constructor|].
      constructor; [exact L|].
      rewrite Forall_forall in *. intros q Hq. specialize (Hhd q Hq). simpl in *.
      eapply not_ltb_trans; eassumption.
Qed.

Lemma sort_keyed_ascending {A : Type} (l l' : list (value * A)) :
  str_keyed l -> sort_keyed l = Ok l' -> keys_ascending l'.
Proof.
  intros Hstr. revert l'.
  induction Hstr as [|[k x] l [s Hk] Hl IH]; intros l'; simpl.
  - intros [= <-]. constructor.
  - simpl in Hk. subst k.
    destruct (sort_keyed l) as [r|] eqn:R; simpl; [|discriminate].
    apply insert_sorted_ascending; [|now apply IH].
    apply (Permutation_Forall (Permutation_sym (sort_keyed_perm _ R))). exact Hl.
Qed.

Lemma keys_ascending_records key (sk : list (value * record)) :
  Forall (fun p => fst p = VStr (id_text key (snd p))) sk ->
  keys_ascending sk -> ascending key (map snd sk).
Proof.
  unfold keys_ascending, ascending. intros Hk Hs.
  induction Hs as [|p l Hl IH Hhd]; simpl; constructor.
  - apply IH. now inversion Hk.
  - inversion_clear Hk as [|? ? Hp Hk']. rewrite Forall_forall in *.
    intros e He. apply in_map_iff in He as [q [<- Hq]].
    specialize (Hhd q Hq). rewrite Hp, (Hk' q Hq) in Hhd. exact Hhd.
Qed.

(** Sorting records with string identifiers puts them in ascending order
    of the identifier. *)
Lemma sort_by_ascending key entries sorted :
  Forall (has_str_id key) entries ->
  sort_by key entries = Ok sorted -> ascending key sorted.
Proof.
  intros H. unfold sort_by. rewrite sort_by_keys.
  rewrite (mapM_total _ (fun d => VStr (id_text key d))).
  - simpl bind.
    set (pairs := combine (map (fun d => VStr (id_text key d)) entries) entries).
    assert (Hpairs : Forall (fun p => fst p = VStr (id_text key (snd p))) pairs).
    { subst pairs. clear H. induction entries as [|d entries IH]; simpl; constructor;
        [reflexivity|assumption]. }
    destruct (sort_keyed pairs) as [sk|] eqn:S; simpl; [|discriminate].
    intros [= <-]. apply keys_ascending_records.
    + apply (Permutation_Forall (Permutation_sym (sort_keyed_perm _ S))). exact Hpairs.
    + apply (sort_keyed_ascending (l := pairs)); [|assumption].
      unfold str_keyed. eapply Forall_impl; [|exact Hpairs]. simpl. eauto.
  - intros d Hd. rewrite Forall_forall in H. destruct (H d Hd) as [s Hs].
    unfold getitem, id_text, str_id. now rewrite Hs.
Qed.

(** ** Keying by identifier and truncation *)

Lemma vset_fresh {V : Type} k (v : V) acc :
  vlookup k acc = None -> vset k v acc = acc ++ [(k, v)].
Proof.
  induction acc as [|[k' v'] acc IH]; simpl; [reflexivity|].
  destruct (key_eqb k' k); [discriminate|]. intros H. now rewrite IH.
Qed.

Lemma vset_In {V : Type} k (v : V) acc k' v' :
  In (k', v') (vset k v acc) -> In (k', v') acc \/ v' = v.
Proof.
  induction acc as [|[k1 v1] acc IH]; simpl.
  - intros [E|[]]. right. congruence.
  - destruct (key_eqb k1 k); simpl.
    + intros [E|H]; [right; congruence|left; now right].
    + intros [E|H]; [left; now left|]. destruct (IH H); [left; now right|now right].
Qed.

Lemma vlookup_snoc_str {V : Type} s s' (v : V) acc :
  vlookup (VStr s) acc = None -> s' <> s ->
  vlookup (VStr s) (acc ++ [(VStr s', v)]) = None.
Proof.
  intros H Hne. induction acc as [|[k1 v1] acc IH]; simpl in *.
  - now rewrite (proj2 (String.eqb_neq s' s) Hne).
  - destruct (key_eqb k1 (VStr s)); [discriminate|]. now apply IH.
Qed.

Lemma has_str_id_getitem key d :
  has_str_id key d -> getitem d key = Ok (VStr (id_text key d)).
Proof. intros [s Hs]. unfold getitem, id_text, str_id. now rewrite Hs. Qed.

Lemma dict_of_from_distinct key entries acc :
  Forall (has_str_id key) entries -> NoDup (map (id_text key) entries) ->
  (forall d, In d entries -> vlookup (VStr (id_text key d)) acc = None) ->
  dict_of_from key entries acc = Ok (acc ++ keyed key entries).
Proof.
  intros Hstr. revert acc.
  induction Hstr as [|d entries Hd _ IH]; intros acc Hnd Hfresh; simpl.
  - now rewrite app_nil_r.
  - rewrite (has_str_id_getitem Hd). simpl.
    inversion_clear Hnd as [|? ? Hnin Hnd'].
    rewrite vset_fresh by (apply Hfresh; now left).
    rewrite IH; [now rewrite <- app_assoc|assumption|].
    intros d' Hd'. apply vlookup_snoc_str; [apply Hfresh; now right|].
    intros E. apply Hnin. rewrite E. now apply in_map.
Qed.

Lemma dict_of_from_values key entries acc out k v :
  dict_of_from key entries acc = Ok out -> In (k, v) out ->
  In (k, v) acc \/ In v entries.
Proof.
  revert acc. induction entries as [|d entries IH]; simpl; intros acc.
  - intros [= <-]. now left.
  - destruct (getitem d key) as [kd|]; simpl; [|discriminate].
    destruct (hashable kd); [|discriminate].
    intros H Hin. destruct (IH _ H Hin) as [Hacc|Hent]; [|right; now right].
    apply vset_In in Hacc as [?| ->]; [now left|right; now left].
Qed.

Lemma dict_of_values key entries out k v :
  dict_of key entries = Ok out -> In (k, v) out -> In v entries.
Proof.
  intros H Hin. unfold dict_of in H.
  destruct (@dict_of_from_values key entries [] out k v H Hin) as [[]|?]. assumption.
Qed.

Lemma In_firstn {A : Type} n (l : list A) x : In x (firstn n l) -> In x l.
Proof.
  revert l. induction n as [|n IH]; intros [|a l]; simpl; try tauto.
  intros [?|?]; [now left|right; now apply IH].
Qed.

Lemma NoDup_firstn {A : Type} n (l : list A) : NoDup l -> NoDup (firstn n l).
Proof.
  intros H. rewrite <- (firstn_skipn n l) in H. now apply NoDup_app_remove_r in H.
Qed.

Lemma distinct_ids_perm key l l' :
  Permutation l' l -> distinct_ids key l -> distinct_ids key l'.
Proof.
  intros P [H1 H2]. split.
  - apply (Permutation_Forall (Permutation_sym P)). exact H1.
  - apply (Permutation_NoDup (Permutation_sym (Permutation_map _ P))). exact H2.
Qed.

Lemma distinct_ids_firstn key n l :
  distinct_ids key l -> distinct_ids key (firstn n l).
Proof.
  intros [H1 H2]. split.
  - rewrite Forall_forall in *. intros d Hd. apply H1. eapply In_firstn, Hd.
  - rewrite <- firstn_map. now apply NoDup_firstn.
Qed.

(** The last three statements of a keyed list operation, on records with
    distinct string identifiers: the sort returns the records in ascending
    order, and the mapping has one entry for each of the first [limit]. *)
Lemma paginate_distinct key limit0 filtered :
  distinct_ids key filtered ->
  exists sorted,
    sort_by key filtered = Ok sorted
    /\ Permutation sorted filtered
    /\ ascending key sorted
    /\ dict_of key (islice sorted limit0) = Ok (keyed key (firstn limit0 sorted)).
Proof.
  intros Hd. destruct (sort_by_str (proj1 Hd)) as [sorted Hs].
  exists sorted. pose proof (sort_by_perm _ _ Hs) as P.
  repeat split; try assumption.
  - eapply sort_by_ascending; [exact (proj1 Hd)|exact Hs].
  - unfold dict_of, islice.
    destruct (distinct_ids_firstn limit0 (distinct_ids_perm P Hd)) as [H1 H2].
    now rewrite dict_of_from_distinct.
Qed.

Lemma keyed_length key l : List.length (keyed key l) = List.length l.
Proof. unfold keyed. apply length_map. Qed.


(* ================================================================== *)
(** * Properties of the list operations *)
(* ================================================================== *)

Lemma keyed_page_paginates key opt warnings0 records :
  paginates key opt records warnings0 (keyed_page key opt warnings0 records).
Proof.
  intros filtered Hf Hd.
  destruct (paginate_distinct (limit opt) Hd) as [sorted (Hs & P & A & D)].
  exists sorted. repeat split; try assumption.
  - unfold keyed_page. rewrite Hf. cbn [bind]. rewrite Hs. cbn [bind].
    now rewrite D.
  - rewrite keyed_length, length_firstn. now rewrite (Permutation_length P).
Qed.

Lemma keyed_page_raises key opt warnings0 records :
  raises_without_id key opt records (keyed_page key opt warnings0 records).
Proof.
  intros filtered d Hf Hd Hnone. unfold keyed_page. rewrite Hf. cbn [bind].
  now rewrite (sort_by_missing_key _ _ _ Hd Hnone).
Qed.

(** Every record of a page is one of the records it was made from. *)
Lemma keyed_page_values key opt warnings0 records r :
  keyed_page key opt warnings0 records = Ok r ->
  warnings r = warnings0
  /\ exists entries, data r = Some entries
                     /\ forall k d, In (k, d) entries -> In d records.
Proof.
  unfold keyed_page.
  destruct (_filter (filter opt) records) as [filtered|] eqn:Hf; cbn [bind]; [|discriminate].
  destruct (sort_by key filtered) as [sorted|] eqn:Hs; cbn [bind]; [|discriminate].
  destruct (dict_of key (islice sorted (limit opt))) as [entries|] eqn:Hd;
    cbn [bind]; [|discriminate].
  intros [= <-]. split; [reflexivity|]. exists entries. split; [reflexivity|].
  intros k d Hin. eapply _filter_incl; [exact Hf|].
  apply (Permutation_in _ (sort_by_perm _ _ Hs)).
  eapply In_firstn. eapply dict_of_values; [exact Hd|exact Hin].
Qed.

Lemma collect_replies_fetched {R : Type}
    (convert : R -> result (list record)) (replies : list (option R)) n acc :
  collect_replies convert replies n acc
  = (records <- fetched convert replies ;; Ok (n + failures replies, acc ++ records)).
Proof.
  revert n acc. unfold fetched, failures.
  induction replies as [|[reply|] replies IH]; intros n acc; simpl.
  - now rewrite Nat.add_0_r, app_nil_r.
  - destruct (convert reply) as [entries|]; simpl; [|reflexivity].
    rewrite IH.
    destruct (mapM convert (survivors replies)); simpl; [|reflexivity].
    now rewrite app_assoc.
  - rewrite IH.
    destruct (mapM convert (survivors replies)); simpl; [|reflexivity].
    do 2 f_equal. lia.
Qed.

Lemma fetched_In {R : Type} (convert : R -> result (list record)) replies records d :
  fetched convert replies = Ok records -> In d records ->
  exists reply entries,
    In (Some reply) replies /\ convert reply = Ok entries /\ In d entries.
Proof.
  unfold fetched.
  destruct (mapM convert (survivors replies)) as [ess|] eqn:E; cbn [bind]; [|discriminate].
  intros [= <-] Hd. apply in_concat in Hd as [entries [Hes Hd]].
  destruct (mapM_ok_In _ _ _ E Hes) as [reply [Hr Hc]].
  exists reply, entries. repeat split; try assumption.
  unfold survivors in Hr. apply in_flat_map in Hr as [[x|] [Hx Hin]]; simpl in Hin.
  - destruct Hin as [->|[]]. assumption.
  - destruct Hin.
Qed.

Lemma gather_length {A : Type} (aws : list (result A)) rs :
  gather aws = Ok rs -> List.length rs = List.length aws.
Proof. apply mapM_ok_length. Qed.

(** A sub-request that raises makes [gather] raise what one of the
    sub-requests raised. *)
Lemma gather_raises {A B : Type} (f : A -> result B) xs x e :
  In x xs -> f x = Err e ->
  exists x' e', In x' xs /\ f x' = Err e' /\ gather (map f xs) = Err e'.
Proof.
  unfold gather. induction xs as [|a xs IH]; simpl; [tauto|].
  intros Hx Hf. destruct (f a) as [b|e0] eqn:Ea; simpl.
  - destruct Hx as [->|Hx]; [congruence|].
    destruct (IH Hx Hf) as [x' [e' (H1 & H2 & H3)]].
    exists x', e'. rewrite H3. repeat split; [now right|assumption].
  - exists a, e0. repeat split; [now left|assumption].
Qed.

Lemma In_survivors {R : Type} (replies : list (option R)) reply :
  In reply (survivors replies) <-> In (Some reply) replies.
Proof.
  unfold survivors. rewrite in_flat_map. split.
  - intros [[x|] [Hx Hin]]; simpl in Hin; [|destruct Hin].
    destruct Hin as [->|[]]. assumption.
  - intros H. exists (Some reply). split; [assumption|now left].
Qed.

Lemma fetched_raises {R : Type} (convert : R -> result (list record)) replies reply e :
  In (Some reply) replies -> convert reply = Err e ->
  exists e', fetched convert replies = Err e'.
Proof.
  intros Hin Hc. apply In_survivors in Hin.
  destruct (mapM_In_err convert _ _ Hin Hc) as [e' He'].
  exists e'. unfold fetched. now rewrite He'.
Qed.

Lemma filter_loop_no_clause {A : Type} `{HasGet A} (data : list A) :
  filter_loop [] data = Ok data.
Proof. induction data as [|d data IH]; simpl; [reflexivity|]. now rewrite IH. Qed.

Lemma survivors_all {R : Type} (replies : list (option R)) :
  failures replies = 0 -> map Some (survivors replies) = replies.
Proof.
  unfold failures, survivors. induction replies as [|[r|] replies IH]; simpl.
  - reflexivity.
  - intros H. now rewrite IH.
  - discriminate.
Qed.

Section ListProperties.

Variable message : Type.
Variable message_to_dict : message -> list string -> bool -> bool -> result record.
Variables ActorState PlacementGroupState NodeState WorkerState
          TaskState ObjectState RuntimeEnvState : list string.
Variable construct_memory_table : list record -> result (list record).
Variable runtime_env_to_dict : value -> result value.
Variable JobInfo : Type.
Variable client : StateDataSourceClient message JobInfo.

Local Abbreviation _message_to_dict := (StateAPIManager._message_to_dict message_to_dict).
Local Abbreviation actor_data := (StateAPIManager.actor_data message_to_dict ActorState).
Local Abbreviation placement_group_data :=
  (StateAPIManager.placement_group_data message_to_dict PlacementGroupState).
Local Abbreviation node_data := (StateAPIManager.node_data message_to_dict NodeState).
Local Abbreviation worker_data := (StateAPIManager.worker_data message_to_dict WorkerState).
Local Abbreviation task_data := (StateAPIManager.task_data message_to_dict TaskState).
Local Abbreviation task_reply_data :=
  (StateAPIManager.task_reply_data message_to_dict TaskState).
Local Abbreviation object_reply_data := (StateAPIManager.object_reply_data message_to_dict).
Local Abbreviation object_data := (StateAPIManager.object_data ObjectState).
Local Abbreviation runtime_env_data :=
  (StateAPIManager.runtime_env_data message_to_dict RuntimeEnvState runtime_env_to_dict).
Local Abbreviation runtime_env_reply_data :=
  (StateAPIManager.runtime_env_reply_data message_to_dict RuntimeEnvState
     runtime_env_to_dict).
Local Abbreviation list_actors := (StateAPIManager.list_actors message_to_dict ActorState client).
Local Abbreviation list_placement_groups :=
  (StateAPIManager.list_placement_groups message_to_dict PlacementGroupState client).
Local Abbreviation list_nodes := (StateAPIManager.list_nodes message_to_dict NodeState client).
Local Abbreviation list_workers :=
  (StateAPIManager.list_workers message_to_dict WorkerState client).
Local Abbreviation list_jobs := (StateAPIManager.list_jobs client).
Local Abbreviation list_tasks := (StateAPIManager.list_tasks message_to_dict TaskState client).
Local Abbreviation list_objects :=
  (StateAPIManager.list_objects message_to_dict ObjectState construct_memory_table client).
Local Abbreviation list_runtime_envs :=
  (StateAPIManager.list_runtime_envs message_to_dict RuntimeEnvState
     runtime_env_to_dict client).

(** The sub-requests of the three fan-out operations. *)
Local Abbreviation task_requests opt :=
  (map (fun node_id => get_task_info client node_id (timeout opt))
       (get_all_registered_raylet_ids client)).
Local Abbreviation object_requests opt :=
  (map (fun node_id => get_object_info client node_id (timeout opt))
       (get_all_registered_raylet_ids client)).
Local Abbreviation runtime_env_requests opt :=
  (map (fun node_id => get_runtime_envs_info client node_id (timeout opt))
       (get_all_registered_agent_ids client)).

Local Abbreviation raylet_warnings replies :=
  (expected_warnings RAYLET_QUERY_FAILURE_WARNING
     (List.length (get_all_registered_raylet_ids client)) (failures replies)).
Local Abbreviation agent_warnings replies :=
  (expected_warnings AGENT_QUERY_FAILURE_WARNING
     (List.length (get_all_registered_agent_ids client)) (failures replies)).

(** ** Each keyed operation is its fetch followed by the common page *)

Lemma list_actors_fetched opt reply records :
  get_all_actor_info client (timeout opt) = Ok (Some reply) ->
  mapM actor_data (actor_table_data reply) = Ok records ->
  list_actors opt = keyed_page "actor_id" opt None records.
Proof.
  intros H1 H2. unfold StateAPIManager.list_actors. rewrite H1. cbn [bind].
  now rewrite H2.
Qed.

Lemma list_placement_groups_fetched opt reply records :
  get_all_placement_group_info client (timeout opt) = Ok (Some reply) ->
  mapM placement_group_data (placement_group_table_data reply) = Ok records ->
  list_placement_groups opt = keyed_page "placement_group_id" opt None records.
Proof.
  intros H1 H2. unfold StateAPIManager.list_placement_groups. rewrite H1. cbn [bind].
  now rewrite H2.
Qed.

Lemma list_nodes_fetched opt reply records :
  get_all_node_info client (timeout opt) = Ok (Some reply) ->
  mapM node_data (node_info_list reply) = Ok records ->
  list_nodes opt = keyed_page "node_id" opt None records.
Proof.
  intros H1 H2. unfold StateAPIManager.list_nodes. rewrite H1. cbn [bind].
  now rewrite H2.
Qed.

Lemma list_workers_fetched opt reply records :
  get_all_worker_info client (timeout opt) = Ok (Some reply) ->
  mapM worker_data (worker_table_data reply) = Ok records ->
  list_workers opt = keyed_page "worker_id" opt None records.
Proof.
  intros H1 H2. unfold StateAPIManager.list_workers. rewrite H1. cbn [bind].
  now rewrite H2.
Qed.

Lemma warnings_expected template total failed :
  (if negb (Nat.eqb (0 + failed) 0) then Some [template total (0 + failed)] else None)
  = expected_warnings template total failed.
Proof. unfold expected_warnings. simpl. now destruct (Nat.eqb failed 0). Qed.

Lemma list_tasks_fetched opt replies :
  gather (task_requests opt) = Ok replies ->
  list_tasks opt
  = (records <- fetched task_reply_data replies ;;
     keyed_page "task_id" opt (raylet_warnings replies) records).
Proof.
  intros H1. unfold StateAPIManager.list_tasks. cbv zeta. rewrite H1. cbn [bind].
  rewrite collect_replies_fetched.
  destruct (fetched task_reply_data replies) as [records|]; cbn [bind]; [|reflexivity].
  now rewrite warnings_expected.
Qed.

Lemma list_objects_fetched opt replies :
  gather (object_requests opt) = Ok replies ->
  list_objects opt
  = (worker_stats <- fetched object_reply_data replies ;;
     memory_table <- construct_memory_table worker_stats ;;
     records <- mapM object_data memory_table ;;
     keyed_page "object_id" opt (raylet_warnings replies) records).
Proof.
  intros H1. unfold StateAPIManager.list_objects. cbv zeta. rewrite H1. cbn [bind].
  rewrite collect_replies_fetched.
  destruct (fetched object_reply_data replies) as [stats|]; cbn [bind app];
    [|reflexivity].
  destruct (construct_memory_table stats) as [table|]; cbn [bind]; [|reflexivity].
  destruct (mapM object_data table) as [records|]; cbn [bind]; [|reflexivity].
  now rewrite warnings_expected.
Qed.

Lemma list_runtime_envs_fetched opt replies :
  gather (runtime_env_requests opt) = Ok replies ->
  list_runtime_envs opt
  = (records <- fetched runtime_env_reply_data replies ;;
     result <- _filter (filter opt) records ;;
     result <- sort_by "ref_cnt" result ;;
     Ok {| data := Some (islice result (limit opt));
           warnings := agent_warnings replies |}).
Proof.
  intros H1. unfold StateAPIManager.list_runtime_envs. cbv zeta. rewrite H1. cbn [bind].
  rewrite collect_replies_fetched.
  destruct (fetched runtime_env_reply_data replies) as [records|]; cbn [bind];
    [|reflexivity].
  now rewrite warnings_expected.
Qed.

(** ** Total source failure *)

(** C7 (amended).  For each single-source list operation (actors,
    placement groups, nodes, workers), when the coordination-service call
    returns a falsy reply the operation returns, without raising, a
    [StateApiResult] whose warnings are the one-element list holding the
    static coordination-service-failure message and whose data is [None]
    (the default of the field), not the empty mapping. *)
Theorem gcs_failure_reports_warning (opt : ListApiOptions) :
  (get_all_actor_info client (timeout opt) = Ok None ->
   list_actors opt
   = Ok {| data := None; warnings := Some [GCS_QUERY_FAILURE_WARNING] |})
  /\ (get_all_placement_group_info client (timeout opt) = Ok None ->
      list_placement_groups opt
      = Ok {| data := None; warnings := Some [GCS_QUERY_FAILURE_WARNING] |})
  /\ (get_all_node_info client (timeout opt) = Ok None ->
      list_nodes opt
      = Ok {| data := None; warnings := Some [GCS_QUERY_FAILURE_WARNING] |})
  /\ (get_all_worker_info client (timeout opt) = Ok None ->
      list_workers opt
      = Ok {| data := None; warnings := Some [GCS_QUERY_FAILURE_WARNING] |}).
Proof.
  repeat split; intros H.
  - unfold StateAPIManager.list_actors. now rewrite H.
  - unfold StateAPIManager.list_placement_groups. now rewrite H.
  - unfold StateAPIManager.list_nodes. now rewrite H.
  - unfold StateAPIManager.list_workers. now rewrite H.
Qed.

(** ** Truncation *)

(** C6 (amended).  For each of the six list operations that return a
    mapping keyed by canonical identifier (actors, placement groups, nodes,
    workers, tasks, objects) and every limit L >= 0: when the records that
    pass the filter carry pairwise distinct string identifiers, the
    operation returns one entry for each of the first L records of the
    filtered list sorted in ascending order of the identifier, so the
    number of entries is min(L, number of records after filtering); limit 0
    yields empty data and L at least the filtered count returns
    everything. *)
Theorem limit_truncates_sorted_records (opt : ListApiOptions) :
  (forall reply records,
      get_all_actor_info client (timeout opt) = Ok (Some reply) ->
      mapM actor_data (actor_table_data reply) = Ok records ->
      paginates "actor_id" opt records None (list_actors opt))
  /\ (forall reply records,
      get_all_placement_group_info client (timeout opt) = Ok (Some reply) ->
      mapM placement_group_data (placement_group_table_data reply) = Ok records ->
      paginates "placement_group_id" opt records None (list_placement_groups opt))
  /\ (forall reply records,
      get_all_node_info client (timeout opt) = Ok (Some reply) ->
      mapM node_data (node_info_list reply) = Ok records ->
      paginates "node_id" opt records None (list_nodes opt))
  /\ (forall reply records,
      get_all_worker_info client (timeout opt) = Ok (Some reply) ->
      mapM worker_data (worker_table_data reply) = Ok records ->
      paginates "worker_id" opt records None (list_workers opt))
  /\ (forall replies records,
      gather (task_requests opt) = Ok replies ->
      fetched task_reply_data replies = Ok records ->
      paginates "task_id" opt records (raylet_warnings replies) (list_tasks opt))
  /\ (forall replies worker_stats memory_table records,
      gather (object_requests opt) = Ok replies ->
      fetched object_reply_data replies = Ok worker_stats ->
      construct_memory_table worker_stats = Ok memory_table ->
      mapM object_data memory_table = Ok records ->
      paginates "object_id" opt records (raylet_warnings replies) (list_objects opt)).
Proof.
  repeat split.
  - intros reply records H1 H2. rewrite (list_actors_fetched _ H1 H2).
    apply keyed_page_paginates.
  - intros reply records H1 H2. rewrite (list_placement_groups_fetched _ H1 H2).
    apply keyed_page_paginates.
  - intros reply records H1 H2. rewrite (list_nodes_fetched _ H1 H2).
    apply keyed_page_paginates.
  - intros reply records H1 H2. rewrite (list_workers_fetched _ H1 H2).
    apply keyed_page_paginates.
  - intros replies records H1 H2. rewrite (list_tasks_fetched _ H1), H2. cbn [bind].
    apply keyed_page_paginates.
  - intros replies stats table records H1 H2 H3 H4.
    rewrite (list_objects_fetched _ H1), H2. cbn [bind]. rewrite H3. cbn [bind].
    rewrite H4. cbn [bind]. apply keyed_page_paginates.
Qed.

(** ** Records without identifier *)

(** C8 (amended).  No keyed list operation drops a record for its
    identifier.  For each of the six operations keyed by a canonical
    identifier, a fetched record that passes the filter and lacks the
    identifier field makes the operation raise [KeyError] (from the sort
    key), and a message whose conversion raises makes the operation
    raise; in neither case is a result with the other records returned. *)
Theorem record_without_id_raises (opt : ListApiOptions) :
  ((forall reply records,
       get_all_actor_info client (timeout opt) = Ok (Some reply) ->
       mapM actor_data (actor_table_data reply) = Ok records ->
       raises_without_id "actor_id" opt records (list_actors opt))
   /\ (forall reply records,
       get_all_placement_group_info client (timeout opt) = Ok (Some reply) ->
       mapM placement_group_data (placement_group_table_data reply) = Ok records ->
       raises_without_id "placement_group_id" opt records (list_placement_groups opt))
   /\ (forall reply records,
       get_all_node_info client (timeout opt) = Ok (Some reply) ->
       mapM node_data (node_info_list reply) = Ok records ->
       raises_without_id "node_id" opt records (list_nodes opt))
   /\ (forall reply records,
       get_all_worker_info client (timeout opt) = Ok (Some reply) ->
       mapM worker_data (worker_table_data reply) = Ok records ->
       raises_without_id "worker_id" opt records (list_workers opt))
   /\ (forall replies records,
       gather (task_requests opt) = Ok replies ->
       fetched task_reply_data replies = Ok records ->
       raises_without_id "task_id" opt records (list_tasks opt))
   /\ (forall replies worker_stats memory_table records,
       gather (object_requests opt) = Ok replies ->
       fetched object_reply_data replies = Ok worker_stats ->
       construct_memory_table worker_stats = Ok memory_table ->
       mapM object_data memory_table = Ok records ->
       raises_without_id "object_id" opt records (list_objects opt)))
  /\ ((forall reply message0 e,
       get_all_actor_info client (timeout opt) = Ok (Some reply) ->
       In message0 (actor_table_data reply) -> actor_data message0 = Err e ->
       exists e', list_actors opt = Err e')
   /\ (forall reply message0 e,
       get_all_placement_group_info client (timeout opt) = Ok (Some reply) ->
       In message0 (placement_group_table_data reply) ->
       placement_group_data message0 = Err e ->
       exists e', list_placement_groups opt = Err e')
   /\ (forall reply message0 e,
       get_all_node_info client (timeout opt) = Ok (Some reply) ->
       In message0 (node_info_list reply) -> node_data message0 = Err e ->
       exists e', list_nodes opt = Err e')
   /\ (forall reply message0 e,
       get_all_worker_info client (timeout opt) = Ok (Some reply) ->
       In message0 (worker_table_data reply) -> worker_data message0 = Err e ->
       exists e', list_workers opt = Err e')
   /\ (forall replies reply task e,
       gather (task_requests opt) = Ok replies ->
       In (Some reply) replies -> In task (task_info_entries reply) ->
       task_data task = Err e ->
       exists e', list_tasks opt = Err e')
   /\ (forall replies reply core_worker_stat e,
       gather (object_requests opt) = Ok replies ->
       In (Some reply) replies -> In core_worker_stat (core_workers_stats reply) ->
       _message_to_dict core_worker_stat ["object_id"] false = Err e ->
       exists e', list_objects opt = Err e')).
Proof.
  split; repeat split.
  - intros reply records H1 H2. rewrite (list_actors_fetched _ H1 H2).
    apply keyed_page_raises.
  - intros reply records H1 H2. rewrite (list_placement_groups_fetched _ H1 H2).
    apply keyed_page_raises.
  - intros reply records H1 H2. rewrite (list_nodes_fetched _ H1 H2).
    apply keyed_page_raises.
  - intros reply records H1 H2. rewrite (list_workers_fetched _ H1 H2).
    apply keyed_page_raises.
  - intros replies records H1 H2. rewrite (list_tasks_fetched _ H1), H2. cbn [bind].
    apply keyed_page_raises.
  - intros replies stats table records H1 H2 H3 H4.
    rewrite (list_objects_fetched _ H1), H2. cbn [bind]. rewrite H3. cbn [bind].
    rewrite H4. cbn [bind]. apply keyed_page_raises.
  - intros reply m e H1 Hin He. unfold StateAPIManager.list_actors.
    rewrite H1. cbn [bind].
    destruct (mapM_In_err actor_data _ _ Hin He) as [e' ->]. now exists e'.
  - intros reply m e H1 Hin He. unfold StateAPIManager.list_placement_groups.
    rewrite H1. cbn [bind].
    destruct (mapM_In_err placement_group_data _ _ Hin He) as [e' ->]. now exists e'.
  - intros reply m e H1 Hin He. unfold StateAPIManager.list_nodes.
    rewrite H1. cbn [bind].
    destruct (mapM_In_err node_data _ _ Hin He) as [e' ->]. now exists e'.
  - intros reply m e H1 Hin He. unfold StateAPIManager.list_workers.
    rewrite H1. cbn [bind].
    destruct (mapM_In_err worker_data _ _ Hin He) as [e' ->]. now exists e'.
  - intros replies reply task e H1 Hr Hin He. rewrite (list_tasks_fetched _ H1).
    destruct (mapM_In_err task_data _ _ Hin He) as [e1 He1].
    destruct (fetched_raises task_reply_data _ _ Hr He1) as [e' ->]. now exists e'.
  - intros replies reply stat e H1 Hr Hin He. rewrite (list_objects_fetched _ H1).
    destruct (mapM_In_err (fun m => _message_to_dict m ["object_id"] false) _ _ Hin He)
      as [e1 He1].
    destruct (fetched_raises object_reply_data _ _ Hr He1) as [e' ->]. now exists e'.
Qed.

(** ** Partial peer failure *)

Lemma expected_warnings_none template total :
  expected_warnings template total 0 = None.
Proof. reflexivity. Qed.

Lemma expected_warnings_some template total failed :
  failed <> 0 -> expected_warnings template total failed = Some [template total failed].
Proof. unfold expected_warnings. now destruct failed. Qed.

(** C2.  For each fan-out list operation (tasks, objects, runtime
    environments): when the sub-requests to the T registered peers settle
    to replies of which F are falsy, a result of the operation carries
    exactly one warning, the template formatted with total = T and
    network_failures = F, when F > 0 and no warning when F = 0, and every
    record of its data comes from an entry of a reply of a peer that
    answered. *)
Theorem partial_failure_warning (opt : ListApiOptions) :
  (forall replies r,
      gather (task_requests opt) = Ok replies -> list_tasks opt = Ok r ->
      List.length replies = List.length (get_all_registered_raylet_ids client)
      /\ (failures replies = 0 -> warnings r = None)
      /\ (failures replies <> 0 ->
          warnings r = Some [RAYLET_QUERY_FAILURE_WARNING
                               (List.length (get_all_registered_raylet_ids client))
                               (failures replies)])
      /\ exists entries,
          data r = Some entries
          /\ forall k d, In (k, d) entries ->
               exists reply task,
                 In (Some reply) replies /\ In task (task_info_entries reply)
                 /\ task_data task = Ok d)
  /\ (forall replies r,
      gather (object_requests opt) = Ok replies -> list_objects opt = Ok r ->
      List.length replies = List.length (get_all_registered_raylet_ids client)
      /\ (failures replies = 0 -> warnings r = None)
      /\ (failures replies <> 0 ->
          warnings r = Some [RAYLET_QUERY_FAILURE_WARNING
                               (List.length (get_all_registered_raylet_ids client))
                               (failures replies)])
      /\ exists worker_stats memory_table entries,
          construct_memory_table worker_stats = Ok memory_table
          /\ data r = Some entries
          /\ (forall k d, In (k, d) entries ->
                exists entry, In entry memory_table /\ object_data entry = Ok d)
          /\ (forall stat, In stat worker_stats ->
                exists reply core_worker_stat,
                  In (Some reply) replies
                  /\ In core_worker_stat (core_workers_stats reply)
                  /\ _message_to_dict core_worker_stat ["object_id"] false = Ok stat))
  /\ (forall replies r,
      gather (runtime_env_requests opt) = Ok replies -> list_runtime_envs opt = Ok r ->
      List.length replies = List.length (get_all_registered_agent_ids client)
      /\ (failures replies = 0 -> warnings r = None)
      /\ (failures replies <> 0 ->
          warnings r = Some [AGENT_QUERY_FAILURE_WARNING
                               (List.length (get_all_registered_agent_ids client))
                               (failures replies)])
      /\ exists entries,
          data r = Some entries
          /\ forall d, In d entries ->
               exists reply state,
                 In (Some reply) replies /\ In state (runtime_env_states reply)
                 /\ runtime_env_data state = Ok d).
Proof.
  split; [|split].
  - intros replies r Hg Hr.
    split; [rewrite (gather_length _ Hg); apply length_map|].
    rewrite (list_tasks_fetched _ Hg) in Hr.
    destruct (fetched task_reply_data replies) as [records|] eqn:Hf; cbn [bind] in Hr;
      [|discriminate].
    apply keyed_page_values in Hr as [Hw [entries [Hd Hin]]].
    split; [intros HF; now rewrite Hw, HF|].
    split; [intros HF; now rewrite Hw, expected_warnings_some|].
    exists entries. split; [assumption|]. intros k d Hkd.
    destruct (fetched_In _ _ _ Hf (Hin _ _ Hkd)) as [reply [es (H1 & H2 & H3)]].
    destruct (mapM_ok_In _ _ _ H2 H3) as [task [H4 H5]].
    exists reply, task. auto.
  - intros replies r Hg Hr.
    split; [rewrite (gather_length _ Hg); apply length_map|].
    rewrite (list_objects_fetched _ Hg) in Hr.
    destruct (fetched object_reply_data replies) as [stats|] eqn:Hf; cbn [bind] in Hr;
      [|discriminate].
    destruct (construct_memory_table stats) as [table|] eqn:Ht; cbn [bind] in Hr;
      [|discriminate].
    destruct (mapM object_data table) as [records|] eqn:Hm; cbn [bind] in Hr;
      [|discriminate].
    apply keyed_page_values in Hr as [Hw [entries [Hd Hin]]].
    split; [intros HF; now rewrite Hw, HF|].
    split; [intros HF; now rewrite Hw, expected_warnings_some|].
    exists stats, table, entries. repeat split; try assumption.
    + intros k d Hkd. exact (mapM_ok_In _ _ _ Hm (Hin _ _ Hkd)).
    + intros stat Hs.
      destruct (fetched_In _ _ _ Hf Hs) as [reply [es (H1 & H2 & H3)]].
      destruct (mapM_ok_In _ _ _ H2 H3) as [m [H4 H5]].
      exists reply, m. auto.
  - intros replies r Hg Hr.
    split; [rewrite (gather_length _ Hg); apply length_map|].
    rewrite (list_runtime_envs_fetched _ Hg) in Hr.
    destruct (fetched runtime_env_reply_data replies) as [records|] eqn:Hf;
      cbn [bind] in Hr; [|discriminate].
    destruct (_filter (filter opt) records) as [filtered|] eqn:Hfl; cbn [bind] in Hr;
      [|discriminate].
    destruct (sort_by "ref_cnt" filtered) as [sorted|] eqn:Hs; cbn [bind] in Hr;
      [|discriminate].
    injection Hr as <-. cbn [warnings data].
    split; [intros HF; now rewrite HF|].
    split; [intros HF; now rewrite expected_warnings_some|].
    exists (islice sorted (limit opt)). split; [reflexivity|]. intros d Hd.
    apply In_firstn in Hd. apply (Permutation_in _ (sort_by_perm _ _ Hs)) in Hd.
    apply (_filter_incl _ _ Hfl) in Hd.
    destruct (fetched_In _ _ _ Hf Hd) as [reply [es (H1 & H2 & H3)]].
    destruct (mapM_ok_In _ _ _ H2 H3) as [state [H4 H5]].
    exists reply, state. auto.
Qed.

(** ** Raising sub-requests *)

(** C3 (amended).  For each fan-out list operation, a per-peer sub-request
    that raises is not counted as a failure and not converted to a warning:
    [gather] is awaited without [return_exceptions], so the list operation
    raises an exception raised by one of its sub-requests and returns no
    result, whatever the other peers replied.  Only falsy replies are
    counted toward the failure count. *)
Theorem peer_exception_propagates (opt : ListApiOptions) :
  (forall node_id e,
      In node_id (get_all_registered_raylet_ids client) ->
      get_task_info client node_id (timeout opt) = Err e ->
      exists node_id' e',
        In node_id' (get_all_registered_raylet_ids client)
        /\ get_task_info client node_id' (timeout opt) = Err e'
        /\ list_tasks opt = Err e')
  /\ (forall node_id e,
      In node_id (get_all_registered_raylet_ids client) ->
      get_object_info client node_id (timeout opt) = Err e ->
      exists node_id' e',
        In node_id' (get_all_registered_raylet_ids client)
        /\ get_object_info client node_id' (timeout opt) = Err e'
        /\ list_objects opt = Err e')
  /\ (forall node_id e,
      In node_id (get_all_registered_agent_ids client) ->
      get_runtime_envs_info client node_id (timeout opt) = Err e ->
      exists node_id' e',
        In node_id' (get_all_registered_agent_ids client)
        /\ get_runtime_envs_info client node_id' (timeout opt) = Err e'
        /\ list_runtime_envs opt = Err e').
Proof.
  repeat split; intros node_id e Hin He.
  - destruct (gather_raises (fun n => get_task_info client n (timeout opt)) _ _ Hin He)
      as [n' [e' (H1 & H2 & H3)]].
    exists n', e'. repeat split; try assumption.
    unfold StateAPIManager.list_tasks. cbv zeta. now rewrite H3.
  - destruct (gather_raises (fun n => get_object_info client n (timeout opt)) _ _ Hin He)
      as [n' [e' (H1 & H2 & H3)]].
    exists n', e'. repeat split; try assumption.
    unfold StateAPIManager.list_objects. cbv zeta. now rewrite H3.
  - destruct (gather_raises (fun n => get_runtime_envs_info client n (timeout opt))
                _ _ Hin He) as [n' [e' (H1 & H2 & H3)]].
    exists n', e'. repeat split; try assumption.
    unfold StateAPIManager.list_runtime_envs. cbv zeta. now rewrite H3.
Qed.

(** ** Jobs *)

(** Without a filter, the data of [list_jobs] is the list of the keys of
    the mapping that [get_job_info] returned; the limit is not applied. *)
Lemma list_jobs_returns_identifiers opt jobs :
  get_job_info client = Ok jobs -> parse_filters (filter opt) = [] -> jobs <> [] ->
  list_jobs opt = Ok {| data := Some (map fst jobs); warnings := None |}.
Proof.
  intros Hj Hf Hne. unfold StateAPIManager.list_jobs. rewrite Hj. cbn [bind].
  unfold _filter. rewrite Hf, filter_loop_no_clause. cbn [bind].
  destruct jobs; [congruence|reflexivity].
Qed.

(** With a clause that is applied, [list_jobs] raises: a job identifier is
    a [str], which has no [get]. *)
Lemma list_jobs_filter_raises opt jobs :
  get_job_info client = Ok jobs -> parse_filters (filter opt) <> [] -> jobs <> [] ->
  list_jobs opt = Err AttributeError.
Proof.
  intros Hj Hf Hne. unfold StateAPIManager.list_jobs. rewrite Hj. cbn [bind].
  unfold _filter. destruct (parse_filters (filter opt)) as [|[k v] kvs]; [congruence|].
  destruct jobs as [|j jobs]; [congruence|]. reflexivity.
Qed.

End ListProperties.

(* ================================================================== *)
(** * The list operations on concrete clusters *)
(* ================================================================== *)

(** C7 (as stated) fails: when the coordination service returns nothing
    the data of the result is [None], not the empty mapping. *)
Lemma gcs_failure_data_counterexample :
  let client := fixture_client (Ok None) [] [] in
  exists r,
    list_actors decode_identity fixture_fields client (fixture_option 10 "") = Ok r
    /\ warnings r = Some [GCS_QUERY_FAILURE_WARNING]
    /\ data r = None
    /\ data r <> Some [].
Proof.
  eexists. split; [reflexivity|]. repeat split. discriminate.
Qed.

(** A coordination service that returns nothing to [list_actors]. *)
Lemma gcs_failure_reports_warning_witness :
  let client := fixture_client (Ok None) [] [] in
  let opt := fixture_option 10 "" in
  get_all_actor_info client (timeout opt) = Ok None
  /\ list_actors decode_identity fixture_fields client opt
     = Ok {| data := None; warnings := Some [GCS_QUERY_FAILURE_WARNING] |}.
Proof.
  intros client opt.
  assert (H : get_all_actor_info client (timeout opt) = Ok None) by reflexivity.
  split; [exact H|].
  exact (proj1 (@gcs_failure_reports_warning _ decode_identity fixture_fields
                  fixture_fields fixture_fields fixture_fields _ client opt) H).
Defined.

(** C6 (as stated) fails: two entries of the memory table for the same
    object (one for each worker that references it) give one entry for
    limit 2, and the jobs operation ignores the limit. *)
Lemma duplicate_identifier_counterexample :
  let stat (reference_type : string) : record :=
    [("object_ref", VStr "o1"); ("reference_type", VStr reference_type)] in
  let entry (reference_type : string) : record :=
    [("reference_type", VStr reference_type); ("object_id", VStr "o1")] in
  let records := [entry "LOCAL_REFERENCE"; entry "USED_BY_PENDING_TASK"] in
  let client :=
    fixture_client (Ok None) [("j1", "info"); ("j2", "info")]
      [("n1", Ok (Some [stat "LOCAL_REFERENCE"; stat "USED_BY_PENDING_TASK"]))] in
  mapM (object_data fixture_fields)
       [stat "LOCAL_REFERENCE"; stat "USED_BY_PENDING_TASK"] = Ok records
  /\ _filter "" records = Ok records
  /\ Nat.min 2 (List.length records) = 2
  /\ list_objects decode_identity fixture_fields (fun stats => Ok stats) client
       (fixture_option 2 "")
     = Ok {| data := Some [(VStr "o1", entry "USED_BY_PENDING_TASK")]; warnings := None |}
  /\ list_jobs client (fixture_option 0 "")
     = Ok {| data := Some ["j1"; "j2"]; warnings := None |}.
Proof. repeat split. Qed.

(** Three actors fetched in the order a3, a1, a2, with limit 2. *)
Lemma limit_truncates_sorted_records_witness :
  let a3 := fixture_actor "a3" "Foo" "ALIVE" in
  let a1 := fixture_actor "a1" "Bar" "ALIVE" in
  let a2 := fixture_actor "a2" "Foo" "DEAD" in
  let client := fixture_client (Ok (Some [a3; a1; a2])) [] [] in
  let opt := fixture_option 2 "" in
  (get_all_actor_info client (timeout opt)
     = Ok (Some {| actor_table_data := [a3; a1; a2] |})
   /\ mapM (actor_data decode_identity fixture_fields) [a3; a1; a2] = Ok [a3; a1; a2]
   /\ _filter (filter opt) [a3; a1; a2] = Ok [a3; a1; a2]
   /\ distinct_ids "actor_id" [a3; a1; a2])
  /\ exists sorted,
      sort_by "actor_id" [a3; a1; a2] = Ok sorted
      /\ Permutation sorted [a3; a1; a2]
      /\ ascending "actor_id" sorted
      /\ list_actors decode_identity fixture_fields client opt
         = Ok {| data := Some (keyed "actor_id" (firstn 2 sorted)); warnings := None |}
      /\ List.length (keyed "actor_id" (firstn 2 sorted)) = Nat.min 2 3.
Proof.
  intros a3 a1 a2 client opt.
  assert (H1 : get_all_actor_info client (timeout opt)
               = Ok (Some {| actor_table_data := [a3; a1; a2] |})) by reflexivity.
  assert (H2 : mapM (actor_data decode_identity fixture_fields) [a3; a1; a2]
               = Ok [a3; a1; a2]) by reflexivity.
  assert (H3 : _filter (filter opt) [a3; a1; a2] = Ok [a3; a1; a2]) by reflexivity.
  assert (H4 : distinct_ids "actor_id" [a3; a1; a2]).
  { split.
    - repeat constructor; eexists; reflexivity.
    - simpl. repeat constructor; simpl; intuition discriminate. }
  split; [exact (conj H1 (conj H2 (conj H3 H4)))|].
  exact (proj1 (@limit_truncates_sorted_records _ decode_identity fixture_fields
                  fixture_fields fixture_fields fixture_fields fixture_fields
                  fixture_fields (fun stats => Ok stats) _ client opt)
               _ _ H1 H2 _ H3 H4).
Defined.

(** C8 (as stated) fails: a record without identifier is not dropped, the
    operation raises [KeyError] and the other records are not returned. *)
Lemma record_without_id_counterexample :
  let a := fixture_actor "a1" "Foo" "ALIVE" in
  let b : record := [("class_name", VStr "Foo"); ("state", VStr "ALIVE")] in
  let t := fixture_task "t1" "f" "FINISHED" in
  let u : record := [("name", VStr "g"); ("scheduling_state", VStr "FINISHED")] in
  let client := fixture_client (Ok (Some [a; b])) [] [("n1", Ok (Some [t; u]))] in
  list_actors decode_identity fixture_fields client (fixture_option 10 "") = Err KeyError
  /\ list_tasks decode_identity fixture_fields client (fixture_option 10 "")
     = Err KeyError.
Proof. split; reflexivity. Qed.

(** Two live actors, the second without [actor_id]. *)
Lemma record_without_id_raises_witness :
  let a := fixture_actor "a1" "Foo" "ALIVE" in
  let b : record := [("class_name", VStr "Foo"); ("state", VStr "ALIVE")] in
  let client := fixture_client (Ok (Some [a; b])) [] [] in
  let opt := fixture_option 10 "state=ALIVE" in
  (get_all_actor_info client (timeout opt) = Ok (Some {| actor_table_data := [a; b] |})
   /\ mapM (actor_data decode_identity fixture_fields) [a; b] = Ok [a; b]
   /\ _filter (filter opt) [a; b] = Ok [a; b]
   /\ In b [a; b] /\ lookup "actor_id" b = None)
  /\ list_actors decode_identity fixture_fields client opt = Err KeyError.
Proof.
  intros a b client opt.
  assert (H1 : get_all_actor_info client (timeout opt)
               = Ok (Some {| actor_table_data := [a; b] |})) by reflexivity.
  assert (H2 : mapM (actor_data decode_identity fixture_fields) [a; b] = Ok [a; b])
    by reflexivity.
  assert (H3 : _filter (filter opt) [a; b] = Ok [a; b]) by reflexivity.
  assert (H4 : In b [a; b]) by (right; now left).
  assert (H5 : lookup "actor_id" b = None) by reflexivity.
  split; [exact (conj H1 (conj H2 (conj H3 (conj H4 H5))))|].
  exact (proj1 (proj1 (@record_without_id_raises _ decode_identity fixture_fields
                         fixture_fields fixture_fields fixture_fields fixture_fields
                         fixture_fields (fun stats => Ok stats) _ client opt))
               _ _ H1 H2 _ _ H3 H4 H5).
Defined.

(** Three raylets: n1 reports task A, n2 does not answer, n3 reports task
    B; the warning is the template for total 3 and 1 failure. *)
Lemma partial_failure_warning_witness :
  let A := fixture_task "A" "f" "FINISHED" in
  let B := fixture_task "B" "g" "SCHEDULED" in
  let client :=
    fixture_client (Ok None) [] [("n1", Ok (Some [A])); ("n2", Ok None);
                                 ("n3", Ok (Some [B]))] in
  let opt := fixture_option 10 "" in
  let replies := [Some {| task_info_entries := [A] |}; None;
                  Some {| task_info_entries := [B] |}] in
  let r := {| data := Some [(VStr "A", A); (VStr "B", B)];
              warnings := Some [RAYLET_QUERY_FAILURE_WARNING 3 1] |} in
  (gather (map (fun node_id => get_task_info client node_id (timeout opt))
               (get_all_registered_raylet_ids client)) = Ok replies
   /\ list_tasks decode_identity fixture_fields client opt = Ok r
   /\ failures replies <> 0)
  /\ warnings r = Some [RAYLET_QUERY_FAILURE_WARNING
                          (List.length (get_all_registered_raylet_ids client))
                          (failures replies)].
Proof.
  intros A B client opt replies r.
  assert (H1 : gather (map (fun node_id => get_task_info client node_id (timeout opt))
                           (get_all_registered_raylet_ids client)) = Ok replies)
    by reflexivity.
  assert (H2 : list_tasks decode_identity fixture_fields client opt = Ok r)
    by reflexivity.
  assert (H3 : failures replies <> 0) by discriminate.
  split; [exact (conj H1 (conj H2 H3))|].
  exact (proj1 (proj2 (proj2
           (proj1 (@partial_failure_warning _ decode_identity fixture_fields
                     fixture_fields fixture_fields (fun stats => Ok stats)
                     (fun v => Ok v) _ client opt) _ _ H1 H2))) H3).
Defined.

(** C3 (as stated) fails: the sub-request to [n1] raises and the tasks
    operation raises the same exception; the reply of [n2] is lost and no
    warning is made. *)
Lemma peer_exception_counterexample :
  let B := fixture_task "B" "g" "SCHEDULED" in
  let client :=
    fixture_client (Ok None) [] [("n1", Err (Raised "deadline exceeded"));
                                 ("n2", Ok (Some [B]))] in
  get_task_info client "n1" 30 = Err (Raised "deadline exceeded")
  /\ list_tasks decode_identity fixture_fields client (fixture_option 10 "")
     = Err (Raised "deadline exceeded")
  /\ list_objects decode_identity fixture_fields (fun stats => Ok stats) client
       (fixture_option 10 "")
     = Err (Raised "deadline exceeded")
  /\ list_runtime_envs decode_identity fixture_fields (fun v => Ok v) client
       (fixture_option 10 "")
     = Err (Raised "deadline exceeded").
Proof. repeat split. Qed.

(** Two raylets, the second of which raises. *)
Lemma peer_exception_propagates_witness :
  let B := fixture_task "B" "g" "SCHEDULED" in
  let client :=
    fixture_client (Ok None) [] [("n1", Ok (Some [B]));
                                 ("n2", Err (Raised "deadline exceeded"))] in
  let opt := fixture_option 10 "" in
  (In "n2" (get_all_registered_raylet_ids client)
   /\ get_task_info client "n2" (timeout opt) = Err (Raised "deadline exceeded"))
  /\ exists node_id' e',
      In node_id' (get_all_registered_raylet_ids client)
      /\ get_task_info client node_id' (timeout opt) = Err e'
      /\ list_tasks decode_identity fixture_fields client opt = Err e'.
Proof.
  intros B client opt.
  assert (H1 : In "n2" (get_all_registered_raylet_ids client)) by (right; now left).
  assert (H2 : get_task_info client "n2" (timeout opt) = Err (Raised "deadline exceeded"))
    by reflexivity.
  split; [exact (conj H1 H2)|].
  exact (proj1 (@peer_exception_propagates _ decode_identity fixture_fields
                  fixture_fields fixture_fields (fun stats => Ok stats)
                  (fun v => Ok v) _ client opt) _ _ H1 H2).
Defined.

(** C9: on the mapping [{"01000000": ..., "02000000": ...}] returned by
    [get_job_info], the data of [list_jobs] is the bare list of the two
    identifiers, the job records are lost; with a filter clause the
    operation raises [AttributeError]. *)
Theorem list_jobs_returns_bare_identifiers :
  let client :=
    fixture_client (Ok None) [("01000000", "job one"); ("02000000", "job two")] [] in
  list_jobs client (fixture_option 10 "")
  = Ok {| data := Some ["01000000"; "02000000"]; warnings := None |}
  /\ list_jobs client (fixture_option 10 "status=RUNNING") = Err AttributeError.
Proof. split; reflexivity. Qed.


(* ================================================================== *)
(** * Properties of the summary aggregator *)
(* ================================================================== *)

Lemma vlookup_In {V : Type} k (items : list (value * V)) v :
  vlookup k items = Some v -> exists k', In (k', v) items.
Proof.
  induction items as [|[k1 v1] items IH]; simpl; [discriminate|].
  destruct (key_eqb k1 k).
  - intros [= ->]. exists k1. now left.
  - intros H. destruct (IH H) as [k' Hk']. exists k'. now right.
Qed.

Lemma Forall_vset {V : Type} (Q : V -> Prop) k v (items : list (value * V)) :
  Forall (fun kv => Q (snd kv)) items -> Q v ->
  Forall (fun kv => Q (snd kv)) (vset k v items).
Proof.
  intros H Hv. induction H as [|[k1 v1] items H1 H2 IH]; simpl.
  - now repeat constructor.
  - destruct (key_eqb k1 k); constructor; simpl; assumption.
Qed.

(** Writing a field of the entry of a node keeps the mapping in shape. *)
Lemma set_node_field s node_id field0 v :
  node_store s -> hashable node_id = true ->
  exists s', at_key node_id (setitem (VStr field0) v) s = Ok (tt, s') /\ node_store s'.
Proof.
  intros [items [-> Hitems]] Hh. unfold at_key, subscript. rewrite Hh.
  set (Q := fun x : sval => exists entries, x = SDict NoFactory entries).
  destruct (vlookup node_id items) as [child|] eqn:L.
  - destruct (vlookup_In _ _ L) as [k' Hin].
    destruct (proj1 (Forall_forall _ _) Hitems _ Hin) as [entries E].
    simpl in E. subst child. simpl. rewrite Hh.
    eexists. split; [reflexivity|]. eexists. split; [reflexivity|].
    apply (Forall_vset Q); [assumption|unfold Q; eauto].
  - simpl. rewrite Hh. eexists. split; [reflexivity|]. eexists. split; [reflexivity|].
    apply (Forall_vset Q); [|unfold Q; eauto].
    apply (Forall_vset Q); [assumption|unfold Q; eauto].
Qed.

Lemma node_store_empty : node_store (SDict DictFactory []).
Proof. exists []. split; [reflexivity|constructor]. Qed.

Section SummaryProperties.

Variable message : Type.
Variable message_to_dict : message -> list string -> bool -> bool -> result record.
Variables ActorState WorkerState TaskState : list string.
Variable JobInfo : Type.
Variable client : StateDataSourceClient message JobInfo.
Variable format_value : value -> string.
Variable format_quotient : Z -> Z -> string.
Variable format_percent : Z -> Z -> string.
Variable get_all_node_summary : result (list NodeSummary).

Local Abbreviation object_store_percent :=
  (StateAPIManager.object_store_percent format_percent).
Local Abbreviation summarize_node :=
  (StateAPIManager.summarize_node format_value format_quotient format_percent).
Local Abbreviation summary :=
  (StateAPIManager.summary message_to_dict ActorState WorkerState TaskState client
     format_value format_quotient format_percent get_all_node_summary).
Local Abbreviation op := {| limit := 1000; timeout := 30; filter := "" |}.

Lemma object_store_percent_zero node_summary :
  object_store_total node_summary = Some 0%Z ->
  object_store_percent node_summary = Err ZeroDivisionError.
Proof.
  unfold object_store_total, StateAPIManager.object_store_percent, getitem, as_number.
  destruct (as_int (get_default (raylet node_summary) "object_store_used_memory" (VInt 0)))
    as [used|]; [|discriminate].
  destruct (lookup "object_store_available_memory" (raylet node_summary)) as [v|];
    [|discriminate].
  cbn [bind]. destruct (as_int v) as [available|]; [|discriminate].
  cbn [bind]. intros [= ->]. reflexivity.
Qed.

Lemma object_store_percent_nonzero node_summary total :
  object_store_total node_summary = Some total -> total <> 0%Z ->
  exists percent, object_store_percent node_summary = Ok percent.
Proof.
  unfold object_store_total, StateAPIManager.object_store_percent, getitem, as_number.
  destruct (as_int (get_default (raylet node_summary) "object_store_used_memory" (VInt 0)))
    as [used|]; [|discriminate].
  destruct (lookup "object_store_available_memory" (raylet node_summary)) as [v|];
    [|discriminate].
  cbn [bind]. destruct (as_int v) as [available|]; [|discriminate].
  cbn [bind]. intros [= <-] Hne. apply Z.eqb_neq in Hne. rewrite Hne. eauto.
Qed.

Ltac node_field H :=
  match goal with
  | Hs : node_store ?s |- context [at_key ?k (setitem (VStr ?f) ?v) ?s] =>
      let s' := fresh "s" in
      let E := fresh "E" in
      let Hs' := fresh "Hs" in
      destruct (@set_node_field s k f v Hs H) as [s' [E Hs']];
      rewrite E; clear E Hs; cbn beta iota
  end.

(** The body of the loop over the nodes, on a readable node: it raises
    [ZeroDivisionError] when the object-store total is zero, and otherwise
    completes. *)
Lemma summarize_node_readable node_summary s :
  readable_node node_summary = true -> node_store s ->
  match object_store_total node_summary with
  | Some total =>
      if Z.eqb total 0 then summarize_node node_summary s = Err ZeroDivisionError
      else exists s', summarize_node node_summary s = Ok (tt, s') /\ node_store s'
  | None => False
  end.
Proof.
  unfold readable_node. intros Hr Hs.
  destruct (lookup "nodeId" (raylet node_summary)) as [node_id|] eqn:Hid; [|discriminate].
  destruct (object_store_total node_summary) as [total|] eqn:Ht; [|discriminate].
  unfold StateAPIManager.summarize_node, bindM, lift, getitem. rewrite Hid.
  destruct (Z.eqb_spec total 0) as [->|Hne].
  - do 7 node_field Hr. now rewrite (object_store_percent_zero _ Ht).
  - do 7 node_field Hr.
    destruct (object_store_percent_nonzero _ Ht Hne) as [percent ->].
    match goal with
    | Hs' : node_store ?s0 |- _ =>
        destruct (@set_node_field s0 node_id "object_store_utilization"
                    (SStr (percent ++ "%")) Hs' Hr) as [s' [E Hs'']]
    end.
    exists s'. split; assumption.
Qed.

(** Readable nodes whose object-store total is not zero are all
    summarized. *)
Lemma for_each_nodes_completes nodes s :
  Forall (fun n => readable_node n = true) nodes ->
  Forall (fun n => object_store_total n <> Some 0%Z) nodes ->
  node_store s ->
  exists s', for_each nodes summarize_node s = Ok (tt, s') /\ node_store s'.
Proof.
  intros Hwf. revert s. induction Hwf as [|n nodes Hn _ IH]; intros s Hnz Hs.
  - exists s. split; [reflexivity|assumption].
  - inversion_clear Hnz as [|? ? Hn0 Hnz'].
    pose proof (summarize_node_readable n Hn Hs) as Hstep.
    simpl. unfold bindM at 1.
    destruct (object_store_total n) as [total|] eqn:Ht; [|destruct Hstep].
    destruct (Z.eqb_spec total 0) as [->|Hne]; [congruence|].
    destruct Hstep as [s' [-> Hs']]. now apply IH.
Qed.

Lemma for_each_nodes_zero before bad after s :
  Forall (fun n => readable_node n = true) before -> readable_node bad = true ->
  node_store s -> object_store_total bad = Some 0%Z ->
  for_each (before ++ bad :: after) summarize_node s = Err ZeroDivisionError.
Proof.
  intros Hwf Hbad. revert s. induction Hwf as [|n nodes Hn _ IH]; intros s Hs Hz.
  - pose proof (summarize_node_readable bad Hbad Hs) as Hstep.
    simpl. unfold bindM at 1. rewrite Hz in Hstep. simpl in Hstep. now rewrite Hstep.
  - pose proof (summarize_node_readable n Hn Hs) as Hstep.
    simpl. unfold bindM at 1.
    destruct (object_store_total n) as [total|] eqn:Ht; [|destruct Hstep].
    destruct (Z.eqb_spec total 0) as [->|Hne].
    + now rewrite Hstep.
    + destruct Hstep as [s' [-> Hs']]. now apply IH.
Qed.

(** C10.  [summary] divides by the sum of a node's object-store used
    memory (0 when absent) and available memory: when the list operations
    have returned and the node summaries up to that node are readable, a
    node for which this sum is zero (both values zero, or used memory
    omitted and available memory zero) makes the call raise
    [ZeroDivisionError]; no summary is returned. *)
Theorem summary_zero_object_store_raises
    (before after : list NodeSummary) (bad : NodeSummary)
    (actors tasks workers : StateApiResult (list (value * record))) :
  list_actors message_to_dict ActorState client op = Ok actors ->
  list_tasks message_to_dict TaskState client op = Ok tasks ->
  list_workers message_to_dict WorkerState client op = Ok workers ->
  get_all_node_summary = Ok (before ++ bad :: after) ->
  Forall (fun n => readable_node n = true) before ->
  readable_node bad = true ->
  object_store_total bad = Some 0%Z ->
  summary = Err ZeroDivisionError.
Proof.
  intros Ha Ht Hw Hn Hwf Hbad Hz.
  unfold StateAPIManager.summary, gather. cbv zeta. simpl mapM.
  rewrite Ha, Ht, Hw. cbn [bind]. rewrite Hn. cbn [bind].
  unfold bindM at 1.
  now rewrite (@for_each_nodes_zero before bad after _ Hwf Hbad node_store_empty Hz).
Qed.

End SummaryProperties.

(** ** The loop over the actors *)

Lemma key_eqb_str k b : key_eqb k (VStr b) = true <-> k = VStr b.
Proof.
  destruct k as [| [|] | z | s | items]; simpl; try (split; [discriminate|discriminate]).
  rewrite String.eqb_eq. split; congruence.
Qed.

Lemma vlookup_vset_str {V : Type} a b (v : V) items :
  vlookup (VStr a) (vset (VStr b) v items)
  = if String.eqb b a then Some v else vlookup (VStr a) items.
Proof.
  induction items as [|[k1 v1] items IH]; simpl.
  - reflexivity.
  - destruct (key_eqb k1 (VStr b)) eqn:E; simpl.
    + apply key_eqb_str in E. subst k1. simpl.
      destruct (String.eqb b a); reflexivity.
    + rewrite IH. destruct (key_eqb k1 (VStr a)) eqn:E'; [|reflexivity].
      apply key_eqb_str in E'. subst k1. simpl in E.
      rewrite String.eqb_sym in E. now rewrite E.
Qed.

Lemma bindM_ok {A B : Type} (m : M A) (f : A -> M B) s r :
  bindM m f s = Ok r -> exists a s1, m s = Ok (a, s1) /\ f a s1 = Ok r.
Proof.
  unfold bindM. destruct (m s) as [[a s1]|]; [|discriminate]. eauto.
Qed.

Lemma store_top k v d s' k' :
  store (VStr k) v d = Ok s' ->
  top_entry s' k' = if String.eqb k k' then Some v else top_entry d k'.
Proof.
  destruct d as [| |factory items]; simpl; try discriminate.
  intros [= <-]. simpl. apply vlookup_vset_str.
Qed.

Lemma subscript_top k s child d1 :
  subscript (VStr k) s = Ok (child, d1) ->
  top_entry d1 k = Some child
  /\ (forall c0, top_entry s k = Some c0 -> child = c0)
  /\ (forall k', k' <> k -> top_entry d1 k' = top_entry s k').
Proof.
  destruct s as [| |factory items]; simpl; try discriminate.
  destruct (vlookup (VStr k) items) as [c|] eqn:L.
  - intros [= <- <-]. simpl. repeat split; [assumption|congruence].
  - destruct (new_default factory) as [c|]; [|discriminate].
    intros [= <- <-]. simpl. rewrite vlookup_vset_str, String.eqb_refl.
    repeat split; [discriminate|].
    intros k' Hk. rewrite vlookup_vset_str.
    now rewrite (proj2 (String.eqb_neq k k')) by congruence.
Qed.

Lemma at_key_ok {A : Type} k (m : M A) s a s' :
  at_key (VStr k) m s = Ok (a, s') ->
  exists child child',
    m child = Ok (a, child')
    /\ top_entry s' k = Some child'
    /\ (forall c0, top_entry s k = Some c0 -> child = c0)
    /\ (forall k', k' <> k -> top_entry s' k' = top_entry s k').
Proof.
  unfold at_key.
  destruct (subscript (VStr k) s) as [[child d1]|] eqn:Hs; [|discriminate].
  destruct (m child) as [[a0 child']|] eqn:Hm; [|discriminate].
  destruct (store (VStr k) child' d1) as [d2|] eqn:Hst; [|discriminate].
  intros [= <- <-]. destruct (subscript_top _ _ Hs) as (H1 & H2 & H3).
  exists child, child'. repeat split; try assumption.
  - rewrite (store_top _ _ _ k Hst). now rewrite String.eqb_refl.
  - intros k' Hk. rewrite (store_top _ _ _ k' Hst).
    rewrite (proj2 (String.eqb_neq k k')) by congruence. now apply H3.
Qed.

Lemma cluster_frame {A : Type} n (m : M A) s a s' c :
  at_key (VStr n) m s = Ok (a, s') -> n <> "actors" ->
  cluster_counters s' c = cluster_counters s c.
Proof.
  intros H Hn. destruct (at_key_ok _ _ _ H) as (child & child' & _ & _ & _ & Hf).
  unfold cluster_counters. rewrite (Hf "actors") by congruence. reflexivity.
Qed.

Lemma cluster_reset s a s' c v :
  at_key (VStr "actors") (setitem (VStr c) v) s = Ok (a, s') ->
  cluster_counters s' c = Some v.
Proof.
  intros H. destruct (at_key_ok _ _ _ H) as (child & child' & Hm & Ht & _ & _).
  unfold cluster_counters. rewrite Ht. unfold setitem in Hm.
  destruct (store (VStr c) v child) as [d|] eqn:Hst; [|discriminate].
  injection Hm as _ <-. rewrite (store_top _ _ _ c Hst). now rewrite String.eqb_refl.
Qed.

Lemma cluster_step {A : Type} (m : M A) s a s' c e :
  at_key (VStr "actors") (at_key (VStr c) m) s = Ok (a, s') ->
  cluster_counters s c = Some e ->
  exists e', m e = Ok (a, e') /\ cluster_counters s' c = Some e'.
Proof.
  intros H He. unfold cluster_counters in *.
  destruct (top_entry s "actors") as [classes|] eqn:Hc; [|discriminate].
  destruct (at_key_ok _ _ _ H) as (child & child' & Hm & Ht & Hsame & _).
  rewrite <- (Hsame _ Hc) in He.
  destruct (at_key_ok _ _ _ Hm) as (inner & inner' & Hm' & Ht' & Hsame' & _).
  rewrite (Hsame' _ He) in Hm'. exists inner'. split; [assumption|].
  now rewrite Ht.
Qed.

Lemma when_ok cond body s r :
  when cond body s = Ok r -> (cond = true /\ body s = Ok r) \/ (cond = false /\ r = (tt, s)).
Proof.
  destruct cond; simpl; [now left|]. unfold ret. intros [= <-]. now right.
Qed.

Lemma count_actor_state_counters n c counter s s' :
  StateAPIManager.count_actor_state (VStr n) (VStr c) counter s = Ok (tt, s') ->
  n <> "actors" -> String.eqb "cnt" counter = false ->
  cluster_counters s c = Some (SDict IntFactory [(VStr "cnt", SInt 1)]) ->
  cluster_counters s' c
  = Some (SDict IntFactory [(VStr "cnt", SInt 1); (VStr counter, SInt 1)]).
Proof.
  intros H Hn Hc He. unfold StateAPIManager.count_actor_state in H.
  apply bindM_ok in H as ([] & s1 & H1 & H2).
  rewrite <- (@cluster_frame _ _ _ _ _ _ c H1 Hn) in He.
  destruct (@cluster_step _ _ _ _ _ _ _ H2 He) as (e' & Hm & ->).
  unfold incr, subscript, store in Hm. cbn -[String.eqb] in Hm.
  rewrite Hc in Hm. cbn -[String.eqb] in Hm. rewrite Hc, String.eqb_refl in Hm.
  now injection Hm as <-.
Qed.

Lemma when_frame cond n (body : M unit) s s' c :
  when cond (at_key (VStr n) body) s = Ok (tt, s') -> n <> "actors" ->
  cluster_counters s' c = cluster_counters s c.
Proof.
  intros H Hn. apply when_ok in H as [[_ H]|[_ H]].
  - exact (@cluster_frame _ _ _ _ _ _ c H Hn).
  - now injection H as <-.
Qed.

(** Whatever the mapping held, after the body of the loop has run for an
    actor the cluster-wide counters of its class are those of this actor
    alone: [cnt] is 1 and the counter of its state, if it has one, is 1. *)
Lemma summarize_actor_resets_class actor address n c state s s' :
  getitem actor "address" = Ok address ->
  getitem_value address "raylet_id" = Ok (VStr n) -> n <> "actors" ->
  getitem actor "class_name" = Ok (VStr c) ->
  getitem actor "state" = Ok state ->
  StateAPIManager.summarize_actor actor s = Ok (tt, s') ->
  cluster_counters s' c
  = Some (SDict IntFactory
            ((VStr "cnt", SInt 1)
             :: match state_counter state with
                | Some counter => [(VStr counter, SInt 1)]
                | None => []
                end)).
Proof.
  intros Ha Hid Hn Hc Hs H. unfold StateAPIManager.summarize_actor in H.
  unfold bindM at 1, lift at 1 in H. rewrite Ha in H.
  unfold bindM at 1, lift at 1 in H. rewrite Hid in H.
  apply bindM_ok in H as (p1 & s1 & _ & H).
  apply bindM_ok in H as ([] & s2 & _ & H).
  apply bindM_ok in H as (p3 & s3 & _ & H).
  apply bindM_ok in H as ([] & s4 & _ & H).
  unfold bindM at 1, lift at 1 in H. rewrite Hc in H.
  apply bindM_ok in H as (p5 & s5 & _ & H).
  apply bindM_ok in H as ([] & s6 & _ & H).
  apply bindM_ok in H as ([] & s7 & H7 & H).
  apply bindM_ok in H as ([] & s8 & H8 & H).
  apply bindM_ok in H as ([] & s9 & H9 & H).
  apply bindM_ok in H as (p10 & s10 & H10 & H).
  apply bindM_ok in H as ([] & s11 & H11 & H).
  unfold bindM at 1, lift at 1 in H. rewrite Hs in H.
  pose proof (@cluster_reset _ _ _ _ _ H7) as E7.
  rewrite <- (@cluster_frame _ _ _ _ _ _ c H8 Hn) in E7.
  destruct (@cluster_step _ _ _ _ _ _ _ H9 E7) as (e9 & Hm & E9).
  cbv in Hm.
  assert (Ee : e9 = SDict IntFactory [(VStr "cnt", SInt 1)]) by congruence.
  subst e9. clear Hm.
  rewrite <- (@cluster_frame _ _ _ _ _ _ c H10 Hn) in E9.
  rewrite <- (@when_frame _ _ _ _ _ c H11 Hn) in E9.
  unfold state_counter.
  repeat match type of H with
         | (if ?b then _ else _) _ = _ => destruct b
         end;
    try exact (@count_actor_state_counters n c _ s11 s' H Hn eq_refl E9).
  unfold ret in H. cbv beta in H. injection H as <-. exact E9.
Qed.

Lemma for_each_app {A : Type} (xs ys : list A) (body : A -> M unit) s r :
  for_each (xs ++ ys) body s = Ok r ->
  exists s1, for_each xs body s = Ok (tt, s1) /\ for_each ys body s1 = Ok r.
Proof.
  revert s. induction xs as [|x xs IH]; intros s; simpl.
  - intros H. exists s. split; [reflexivity|assumption].
  - intros H. apply bindM_ok in H as ([] & s1 & H1 & H2).
    destruct (IH _ H2) as (s2 & H3 & H4). exists s2. split; [|assumption].
    unfold bindM. now rewrite H1.
Qed.

(** At the end of the loop over the actors, the cluster-wide counters of
    the class of the last actor count that actor only, however many actors
    of the class came before it. *)
Lemma actors_loop_counts_last earlier actor address n c state s s' :
  getitem actor "address" = Ok address ->
  getitem_value address "raylet_id" = Ok (VStr n) -> n <> "actors" ->
  getitem actor "class_name" = Ok (VStr c) ->
  getitem actor "state" = Ok state ->
  for_each (earlier ++ [actor]) StateAPIManager.summarize_actor s = Ok (tt, s') ->
  cluster_counters s' c
  = Some (SDict IntFactory
            ((VStr "cnt", SInt 1)
             :: match state_counter state with
                | Some counter => [(VStr counter, SInt 1)]
                | None => []
                end)).
Proof.
  intros Ha Hid Hn Hc Hs H.
  apply for_each_app in H as (s1 & _ & H). simpl in H.
  apply bindM_ok in H as ([] & s2 & H1 & H2). unfold ret in H2.
  cbv beta in H2. injection H2 as <-.
  exact (@summarize_actor_resets_class actor address n c state s1 s2 Ha Hid Hn Hc Hs H1).
Qed.

(* ================================================================== *)
(** * The summary on concrete clusters *)
(* ================================================================== *)

(** Three nodes, the second of which reports no used memory and zero
    available memory. *)
Lemma summary_zero_object_store_raises_witness :
  let n1 := fixture_node "n1" [("object_store_used_memory", VInt 5);
                               ("object_store_available_memory", VInt 95)] in
  let n2 := fixture_node "n2" [("object_store_available_memory", VInt 0)] in
  let n3 := fixture_node "n3" [("object_store_used_memory", VInt 1);
                               ("object_store_available_memory", VInt 1)] in
  let client := fixture_cluster [fixture_actor "a1" "Foo" "ALIVE"] [] [] in
  let op := {| limit := 1000; timeout := 30; filter := "" |} in
  (exists actors tasks workers,
      list_actors decode_identity fixture_fields client op = Ok actors
      /\ list_tasks decode_identity fixture_fields client op = Ok tasks
      /\ list_workers decode_identity fixture_fields client op = Ok workers)
  /\ Forall (fun n => readable_node n = true) [n1]
  /\ readable_node n2 = true
  /\ object_store_total n2 = Some 0%Z
  /\ summary decode_identity fixture_fields fixture_fields fixture_fields client
       fixture_format_value fixture_format_ratio fixture_format_ratio (Ok [n1; n2; n3])
     = Err ZeroDivisionError.
Proof.
  intros n1 n2 n3 client op.
  assert (H1 : Forall (fun n => readable_node n = true) [n1])
    by (repeat constructor).
  assert (H2 : readable_node n2 = true) by reflexivity.
  assert (H3 : object_store_total n2 = Some 0%Z) by reflexivity.
  split; [do 3 eexists; repeat split; reflexivity|].
  split; [exact H1|]. split; [exact H2|]. split; [exact H3|].
  exact (@summary_zero_object_store_raises _ decode_identity fixture_fields
           fixture_fields fixture_fields _ client fixture_format_value
           fixture_format_ratio fixture_format_ratio (Ok [n1; n2; n3]) [n1] [n3] n2
           _ _ _ eq_refl eq_refl eq_refl eq_refl H1 H2 H3).
Defined.

(** C1: on three actors of class Foo in states ALIVE, DEAD, ALIVE the
    cluster-wide breakdown of [summary] maps Foo to [cnt = 1] and
    [alive_cnt = 1]: line 436 replaces the counters of the class by an
    empty [defaultdict(int)] for every actor, so only the last actor of a
    class is counted.  (The claim asks for [alive_cnt = 2], [dead_cnt = 1]
    and [cnt = 3]; the per-node breakdown, which creates its counters only
    when they are missing, has them.) *)
Theorem summary_cluster_breakdown_keeps_last_actor :
  let actors := [fixture_actor "a1" "Foo" "ALIVE"; fixture_actor "a2" "Foo" "DEAD";
                 fixture_actor "a3" "Foo" "ALIVE"] in
  let client := fixture_cluster actors [] [] in
  summary decode_identity fixture_fields fixture_fields fixture_fields client
    fixture_format_value fixture_format_ratio fixture_format_ratio (Ok [])
  = Ok (SDict DictFactory
          [(VStr "n1",
            SDict NoFactory
              [(VStr "actors",
                SDict IntFactory
                  [(VStr "cnt", SInt 3);
                   (VStr "Foo",
                    SDict IntFactory
                      [(VStr "alive_cnt", SInt 2); (VStr "dead_cnt", SInt 1)])])]);
           (VStr "actors",
            SDict NoFactory
              [(VStr "Foo",
                SDict IntFactory [(VStr "cnt", SInt 1); (VStr "alive_cnt", SInt 1)])])]).
Proof. vm_compute. reflexivity. Qed.

(* ================================================================== *)
(** * Further properties of the filter engine *)
(* ================================================================== *)

Lemma clause_passes_spec (d : record) k v :
  clause_passes d (k, v) = true <-> lookup k d = Some (VStr v) /\ v <> EmptyString.
Proof.
  unfold clause_passes, field. simpl.
  destruct (lookup k d) as [[| b | z | s | items]|]; simpl;
    try (rewrite ?andb_false_r; split; [discriminate|intros [? _]; discriminate]).
  rewrite andb_true_iff, negb_true_iff, String.eqb_neq, String.eqb_eq. split.
  - intros [Hne ->]. now split.
  - intros [[= ->] Hne]. now split.
Qed.

(** X1.  On dictionaries [_filter] never raises, whatever the filter
    string: it returns the records of the input, in their order, that have
    for every entry [(k, v)] of [kv_filters] a non-empty string equal to [v]
    under [k].  A field that holds a number, a boolean, [None], a
    dictionary or the empty string never matches, and an entry with the
    empty value rejects every record. *)
Theorem filter_records_characterized (filters : string) (data : list record) :
  exists out,
    _filter filters data = Ok out
    /\ (exists keep, out = List.filter keep data)
    /\ (forall d, In d out <->
                  In d data
                  /\ forall k v, In (k, v) (parse_filters filters) ->
                                 lookup k d = Some (VStr v) /\ v <> EmptyString)
    /\ (forall k, In (k, EmptyString) (parse_filters filters) -> out = []).
Proof.
  eexists. split; [apply _filter_record|]. split; [eauto|].
  assert (Hchar : forall d,
             In d (List.filter (fun d => forallb (clause_passes d) (parse_filters filters))
                               data)
             <-> In d data
                 /\ forall k v, In (k, v) (parse_filters filters) ->
                                lookup k d = Some (VStr v) /\ v <> EmptyString).
  { intros d. rewrite filter_In, forallb_forall. split.
    - intros [Hd Hall]. split; [assumption|]. intros k v Hkv.
      now apply clause_passes_spec, Hall.
    - intros [Hd Hall]. split; [assumption|]. intros [k v] Hkv.
      now apply clause_passes_spec, Hall. }
  split; [exact Hchar|].
  intros k Hk.
  destruct (List.filter (fun d => forallb (clause_passes d) (parse_filters filters)) data)
    as [|d out] eqn:E; [reflexivity|].
  assert (Hd : In d (d :: out)) by now left.
  apply Hchar in Hd as [_ Hall].
  destruct (Hall _ _ Hk) as [_ Hne]. congruence.
Qed.

Lemma fold_set_clause_distinct cs x :
  NoDup (map fst cs) -> In x (fold_left set_clause cs []) <-> In x cs.
Proof.
  intros Hnd. rewrite fold_set_clause_In by constructor.
  rewrite effective_distinct by assumption. simpl. tauto.
Qed.

(** X2.  The order of the clauses of a filter string does not matter when
    they are well formed and name pairwise distinct fields: the filter
    strings of two arrangements of the same clauses give the same
    output. *)
Theorem filter_clause_order_irrelevant (cs cs' : list (string * string))
    (data : list record) :
  Forall (fun kv => well_formed_clause kv = true) cs ->
  NoDup (map fst cs) ->
  Permutation cs cs' ->
  _filter (join_clauses (map clause_text cs)) data
  = _filter (join_clauses (map clause_text cs')) data.
Proof.
  intros Hwf Hnd P.
  assert (Hwf' : Forall (fun kv => well_formed_clause kv = true) cs')
    by (eapply Permutation_Forall; eassumption).
  assert (Hnd' : NoDup (map fst cs'))
    by (eapply Permutation_NoDup; [apply Permutation_map; eassumption|assumption]).
  rewrite !_filter_record, !parse_filters_well_formed by assumption.
  f_equal. apply filter_ext_In'. intros d _.
  apply forallb_same_elements. intros x.
  rewrite !fold_set_clause_distinct by assumption.
  split; apply Permutation_in; [assumption|now apply Permutation_sym].
Qed.

(** The two arrangements of [state=ALIVE] and [class_name=Foo]. *)
Lemma filter_clause_order_irrelevant_witness :
  let cs := [("state", "ALIVE"); ("class_name", "Foo")] in
  let cs' := [("class_name", "Foo"); ("state", "ALIVE")] in
  let a1 := fixture_actor "a1" "Foo" "ALIVE" in
  let a2 := fixture_actor "a2" "Bar" "ALIVE" in
  (Forall (fun kv => well_formed_clause kv = true) cs
   /\ NoDup (map fst cs) /\ Permutation cs cs')
  /\ _filter "state=ALIVE,class_name=Foo" [a1; a2]
     = _filter "class_name=Foo,state=ALIVE" [a1; a2].
Proof.
  intros cs cs' a1 a2.
  assert (H1 : Forall (fun kv => well_formed_clause kv = true) cs)
    by (repeat constructor).
  assert (H2 : NoDup (map fst cs)).
  { simpl. repeat constructor; simpl; intuition discriminate. }
  assert (H3 : Permutation cs cs') by apply perm_swap.
  split; [exact (conj H1 (conj H2 H3))|].
  exact (@filter_clause_order_irrelevant cs cs' [a1; a2] H1 H2 H3).
Defined.

(* ================================================================== *)
(** * Further properties of the list operations *)
(* ================================================================== *)

Lemma keyed_page_inv key opt warnings0 records r :
  keyed_page key opt warnings0 records = Ok r ->
  exists filtered sorted entries,
    _filter (filter opt) records = Ok filtered
    /\ sort_by key filtered = Ok sorted
    /\ dict_of key (islice sorted (limit opt)) = Ok entries
    /\ r = {| data := Some entries; warnings := warnings0 |}.
Proof.
  unfold keyed_page.
  destruct (_filter (filter opt) records) as [filtered|] eqn:Hf; cbn [bind];
    [|discriminate].
  destruct (sort_by key filtered) as [sorted|] eqn:Hs; cbn [bind]; [|discriminate].
  destruct (dict_of key (islice sorted (limit opt))) as [entries|] eqn:Hd; cbn [bind];
    [|discriminate].
  intros [= <-]. exists filtered, sorted, entries. repeat split; assumption.
Qed.

Lemma vset_length {V : Type} k (v : V) acc :
  List.length (vset k v acc) <= S (List.length acc).
Proof.
  induction acc as [|[k1 v1] acc IH]; simpl; [lia|].
  destruct (key_eqb k1 k); simpl; lia.
Qed.

Lemma dict_of_from_length key entries acc out :
  dict_of_from key entries acc = Ok out ->
  List.length out <= List.length acc + List.length entries.
Proof.
  revert acc. induction entries as [|d entries IH]; simpl; intros acc.
  - intros [= <-]. lia.
  - destruct (getitem d key) as [k|]; simpl; [|discriminate].
    destruct (hashable k); [|discriminate].
    intros H. apply IH in H. pose proof (vset_length k d acc). lia.
Qed.

Lemma key_eqb_refl k : hashable k = true -> key_eqb k k = true.
Proof.
  destruct k as [| [|] | z | s | items]; simpl; try reflexivity; try discriminate.
  - intros _. apply Z.eqb_refl.
  - intros _. apply String.eqb_refl.
Qed.

Lemma dict_of_from_keys key entries acc out :
  dict_of_from key entries acc = Ok out ->
  (forall k d, In (k, d) acc ->
               exists k', getitem d key = Ok k' /\ key_eqb k k' = true) ->
  forall k d, In (k, d) out ->
              exists k', getitem d key = Ok k' /\ key_eqb k k' = true.
Proof.
  revert acc. induction entries as [|e entries IH]; simpl; intros acc.
  - intros [= <-] Hacc. exact Hacc.
  - destruct (getitem e key) as [ke|] eqn:Hk; simpl; [|discriminate].
    destruct (hashable ke) eqn:Hh; [|discriminate].
    intros H Hacc. apply (IH _ H). clear IH H.
    induction acc as [|[k1 d1] acc IHacc]; simpl.
    + intros k d [[= <- <-]|[]]. exists ke. split; [assumption|now apply key_eqb_refl].
    + destruct (key_eqb k1 ke) eqn:E; simpl.
      * intros k d [[= <- <-]|Hin]; [exists ke; now split|].
        apply Hacc. now right.
      * intros k d [[= <- <-]|Hin]; [apply Hacc; now left|].
        apply IHacc; [|assumption]. intros k' d' Hin'. apply Hacc. now right.
Qed.

Lemma survivors_none {R : Type} (replies : list (option R)) :
  survivors replies = [] -> failures replies = List.length replies.
Proof.
  unfold survivors, failures. induction replies as [|[r|] replies IH]; simpl.
  - reflexivity.
  - discriminate.
  - intros H. now rewrite IH.
Qed.

Lemma keyed_page_nil key opt warnings0 :
  keyed_page key opt warnings0 [] = Ok {| data := Some []; warnings := warnings0 |}.
Proof. unfold keyed_page, islice. simpl. now destruct (limit opt). Qed.

Lemma fetched_none {R : Type} (convert : R -> result (list record)) replies :
  survivors replies = [] -> fetched convert replies = Ok [].
Proof. unfold fetched. now intros ->. Qed.

Section FurtherListProperties.

Variable message : Type.
Variable message_to_dict : message -> list string -> bool -> bool -> result record.
Variables ActorState PlacementGroupState NodeState WorkerState
          TaskState ObjectState RuntimeEnvState : list string.
Variable construct_memory_table : list record -> result (list record).
Variable runtime_env_to_dict : value -> result value.
Variable JobInfo : Type.
Variable client : StateDataSourceClient message JobInfo.

Local Abbreviation actor_data := (StateAPIManager.actor_data message_to_dict ActorState).
Local Abbreviation placement_group_data :=
  (StateAPIManager.placement_group_data message_to_dict PlacementGroupState).
Local Abbreviation node_data := (StateAPIManager.node_data message_to_dict NodeState).
Local Abbreviation worker_data := (StateAPIManager.worker_data message_to_dict WorkerState).
Local Abbreviation task_reply_data :=
  (StateAPIManager.task_reply_data message_to_dict TaskState).
Local Abbreviation object_reply_data := (StateAPIManager.object_reply_data message_to_dict).
Local Abbreviation object_data := (StateAPIManager.object_data ObjectState).
Local Abbreviation runtime_env_reply_data :=
  (StateAPIManager.runtime_env_reply_data message_to_dict RuntimeEnvState
     runtime_env_to_dict).
Local Abbreviation list_actors := (StateAPIManager.list_actors message_to_dict ActorState client).
Local Abbreviation list_placement_groups :=
  (StateAPIManager.list_placement_groups message_to_dict PlacementGroupState client).
Local Abbreviation list_nodes := (StateAPIManager.list_nodes message_to_dict NodeState client).
Local Abbreviation list_workers :=
  (StateAPIManager.list_workers message_to_dict WorkerState client).
Local Abbreviation list_jobs := (StateAPIManager.list_jobs client).
Local Abbreviation list_tasks := (StateAPIManager.list_tasks message_to_dict TaskState client).
Local Abbreviation list_objects :=
  (StateAPIManager.list_objects message_to_dict ObjectState construct_memory_table client).
Local Abbreviation list_runtime_envs :=
  (StateAPIManager.list_runtime_envs message_to_dict RuntimeEnvState
     runtime_env_to_dict client).
Local Abbreviation task_requests opt :=
  (map (fun node_id => get_task_info client node_id (timeout opt))
       (get_all_registered_raylet_ids client)).
Local Abbreviation object_requests opt :=
  (map (fun node_id => get_object_info client node_id (timeout opt))
       (get_all_registered_raylet_ids client)).
Local Abbreviation runtime_env_requests opt :=
  (map (fun node_id => get_runtime_envs_info client node_id (timeout opt))
       (get_all_registered_agent_ids client)).

(** ** What a keyed operation that returns has gone through *)

Lemma list_actors_inv opt r :
  list_actors opt = Ok r ->
  data r = None \/ exists records, keyed_page "actor_id" opt (warnings r) records = Ok r.
Proof.
  unfold StateAPIManager.list_actors.
  destruct (get_all_actor_info client (timeout opt)) as [[reply|]|]; cbn [bind];
    [|intros [= <-]; now left|discriminate].
  destruct (mapM actor_data (actor_table_data reply)) as [records|] eqn:E; cbn [bind];
    [|discriminate].
  intros H. right. exists records. fold (keyed_page "actor_id" opt None records) in H.
  destruct (keyed_page_inv _ _ _ _ H) as (? & ? & ? & _ & _ & _ & ->). exact H.
Qed.

Lemma list_placement_groups_inv opt r :
  list_placement_groups opt = Ok r ->
  data r = None
  \/ exists records, keyed_page "placement_group_id" opt (warnings r) records = Ok r.
Proof.
  unfold StateAPIManager.list_placement_groups.
  destruct (get_all_placement_group_info client (timeout opt)) as [[reply|]|];
    cbn [bind]; [|intros [= <-]; now left|discriminate].
  destruct (mapM placement_group_data (placement_group_table_data reply))
    as [records|] eqn:E; cbn [bind]; [|discriminate].
  intros H. right. exists records.
  fold (keyed_page "placement_group_id" opt None records) in H.
  destruct (keyed_page_inv _ _ _ _ H) as (? & ? & ? & _ & _ & _ & ->). exact H.
Qed.

Lemma list_nodes_inv opt r :
  list_nodes opt = Ok r ->
  data r = None \/ exists records, keyed_page "node_id" opt (warnings r) records = Ok r.
Proof.
  unfold StateAPIManager.list_nodes.
  destruct (get_all_node_info client (timeout opt)) as [[reply|]|]; cbn [bind];
    [|intros [= <-]; now left|discriminate].
  destruct (mapM node_data (node_info_list reply)) as [records|] eqn:E; cbn [bind];
    [|discriminate].
  intros H. right. exists records. fold (keyed_page "node_id" opt None records) in H.
  destruct (keyed_page_inv _ _ _ _ H) as (? & ? & ? & _ & _ & _ & ->). exact H.
Qed.

Lemma list_workers_inv opt r :
  list_workers opt = Ok r ->
  data r = None \/ exists records, keyed_page "worker_id" opt (warnings r) records = Ok r.
Proof.
  unfold StateAPIManager.list_workers.
  destruct (get_all_worker_info client (timeout opt)) as [[reply|]|]; cbn [bind];
    [|intros [= <-]; now left|discriminate].
  destruct (mapM worker_data (worker_table_data reply)) as [records|] eqn:E; cbn [bind];
    [|discriminate].
  intros H. right. exists records. fold (keyed_page "worker_id" opt None records) in H.
  destruct (keyed_page_inv _ _ _ _ H) as (? & ? & ? & _ & _ & _ & ->). exact H.
Qed.

Lemma list_tasks_inv opt r :
  list_tasks opt = Ok r ->
  exists records, keyed_page "task_id" opt (warnings r) records = Ok r.
Proof.
  intros H. destruct (gather (task_requests opt)) as [replies|] eqn:Hg.
  - rewrite (list_tasks_fetched message_to_dict TaskState client opt Hg) in H.
    destruct (fetched task_reply_data replies) as [records|]; cbn [bind] in H;
      [|discriminate].
    exists records. destruct (keyed_page_inv _ _ _ _ H) as (? & ? & ? & _ & _ & _ & ->).
    exact H.
  - unfold StateAPIManager.list_tasks in H. cbv zeta in H. rewrite Hg in H. discriminate.
Qed.

Lemma list_objects_inv opt r :
  list_objects opt = Ok r ->
  exists records, keyed_page "object_id" opt (warnings r) records = Ok r.
Proof.
  intros H. destruct (gather (object_requests opt)) as [replies|] eqn:Hg.
  - rewrite (list_objects_fetched message_to_dict ObjectState construct_memory_table
               client opt Hg) in H.
    destruct (fetched object_reply_data replies) as [stats|]; cbn [bind] in H;
      [|discriminate].
    destruct (construct_memory_table stats) as [table|]; cbn [bind] in H; [|discriminate].
    destruct (mapM object_data table) as [records|]; cbn [bind] in H; [|discriminate].
    exists records. destruct (keyed_page_inv _ _ _ _ H) as (? & ? & ? & _ & _ & _ & ->).
    exact H.
  - unfold StateAPIManager.list_objects in H. cbv zeta in H. rewrite Hg in H.
    discriminate.
Qed.

(** ** The limit as an upper bound *)

Lemma keyed_page_bound key opt warnings0 records r entries :
  keyed_page key opt warnings0 records = Ok r -> data r = Some entries ->
  List.length entries <= limit opt.
Proof.
  intros H Hd. destruct (keyed_page_inv _ _ _ _ H) as (f & sorted & es & _ & _ & He & ->).
  simpl in Hd. injection Hd as <-. unfold dict_of in He.
  apply dict_of_from_length in He. unfold islice in He.
  pose proof (firstn_le_length (limit opt) sorted).
  rewrite length_firstn in *. simpl in He. lia.
Qed.

(** X3.  Whatever was fetched and whatever the filter, a list operation
    never returns more entries than the limit: this holds for the six
    operations keyed by identifier also when identifiers repeat, and for the
    runtime environments. *)
Theorem limit_bounds_entries (opt : ListApiOptions) :
  (forall r entries, list_actors opt = Ok r -> data r = Some entries ->
                     List.length entries <= limit opt)
  /\ (forall r entries, list_placement_groups opt = Ok r -> data r = Some entries ->
                        List.length entries <= limit opt)
  /\ (forall r entries, list_nodes opt = Ok r -> data r = Some entries ->
                        List.length entries <= limit opt)
  /\ (forall r entries, list_workers opt = Ok r -> data r = Some entries ->
                        List.length entries <= limit opt)
  /\ (forall r entries, list_tasks opt = Ok r -> data r = Some entries ->
                        List.length entries <= limit opt)
  /\ (forall r entries, list_objects opt = Ok r -> data r = Some entries ->
                        List.length entries <= limit opt)
  /\ (forall r entries, list_runtime_envs opt = Ok r -> data r = Some entries ->
                        List.length entries <= limit opt).
Proof.
  repeat split; intros r entries H Hd.
  - destruct (list_actors_inv _ H) as [E|[records Hp]]; [congruence|].
    exact (keyed_page_bound _ _ _ _ Hp Hd).
  - destruct (list_placement_groups_inv _ H) as [E|[records Hp]]; [congruence|].
    exact (keyed_page_bound _ _ _ _ Hp Hd).
  - destruct (list_nodes_inv _ H) as [E|[records Hp]]; [congruence|].
    exact (keyed_page_bound _ _ _ _ Hp Hd).
  - destruct (list_workers_inv _ H) as [E|[records Hp]]; [congruence|].
    exact (keyed_page_bound _ _ _ _ Hp Hd).
  - destruct (list_tasks_inv _ H) as [records Hp].
    exact (keyed_page_bound _ _ _ _ Hp Hd).
  - destruct (list_objects_inv _ H) as [records Hp].
    exact (keyed_page_bound _ _ _ _ Hp Hd).
  - unfold StateAPIManager.list_runtime_envs in H. cbv zeta in H.
    destruct (gather (runtime_env_requests opt)) as [replies|]; cbn [bind] in H;
      [|discriminate].
    destruct (collect_replies runtime_env_reply_data replies 0 []) as [[n records]|];
      cbn [bind] in H; [|discriminate].
    destruct (_filter (filter opt) records) as [filtered|]; cbn [bind] in H;
      [|discriminate].
    destruct (sort_by "ref_cnt" filtered) as [sorted|]; cbn [bind] in H; [|discriminate].
    injection H as <-. simpl in Hd. injection Hd as <-.
    unfold islice. rewrite length_firstn. lia.
Qed.

(** ** Entries and their keys *)

Lemma keyed_page_keys key opt warnings0 records r entries k d :
  keyed_page key opt warnings0 records = Ok r -> data r = Some entries ->
  In (k, d) entries ->
  exists k', getitem d key = Ok k' /\ key_eqb k k' = true.
Proof.
  intros H Hd Hin.
  destruct (keyed_page_inv _ _ _ _ H) as (f & sorted & es & _ & _ & He & ->).
  simpl in Hd. injection Hd as <-. unfold dict_of in He.
  apply (dict_of_from_keys _ _ _ He); [|assumption]. intros ? ? [].
Qed.

(** X4.  In the mapping returned by each of the six keyed operations
    every entry is filed under the identifier of its own record: the key
    of an entry equals, as dictionary keys compare, the value that the
    record holds under the identifier field. *)
Theorem entries_keyed_by_identifier (opt : ListApiOptions) :
  (forall r entries k d, list_actors opt = Ok r -> data r = Some entries ->
      In (k, d) entries ->
      exists k', getitem d "actor_id" = Ok k' /\ key_eqb k k' = true)
  /\ (forall r entries k d, list_placement_groups opt = Ok r -> data r = Some entries ->
      In (k, d) entries ->
      exists k', getitem d "placement_group_id" = Ok k' /\ key_eqb k k' = true)
  /\ (forall r entries k d, list_nodes opt = Ok r -> data r = Some entries ->
      In (k, d) entries ->
      exists k', getitem d "node_id" = Ok k' /\ key_eqb k k' = true)
  /\ (forall r entries k d, list_workers opt = Ok r -> data r = Some entries ->
      In (k, d) entries ->
      exists k', getitem d "worker_id" = Ok k' /\ key_eqb k k' = true)
  /\ (forall r entries k d, list_tasks opt = Ok r -> data r = Some entries ->
      In (k, d) entries ->
      exists k', getitem d "task_id" = Ok k' /\ key_eqb k k' = true)
  /\ (forall r entries k d, list_objects opt = Ok r -> data r = Some entries ->
      In (k, d) entries ->
      exists k', getitem d "object_id" = Ok k' /\ key_eqb k k' = true).
Proof.
  repeat split; intros r entries k d H Hd Hin.
  - destruct (list_actors_inv _ H) as [E|[records Hp]]; [congruence|].
    exact (keyed_page_keys _ _ _ _ _ _ Hp Hd Hin).
  - destruct (list_placement_groups_inv _ H) as [E|[records Hp]]; [congruence|].
    exact (keyed_page_keys _ _ _ _ _ _ Hp Hd Hin).
  - destruct (list_nodes_inv _ H) as [E|[records Hp]]; [congruence|].
    exact (keyed_page_keys _ _ _ _ _ _ Hp Hd Hin).
  - destruct (list_workers_inv _ H) as [E|[records Hp]]; [congruence|].
    exact (keyed_page_keys _ _ _ _ _ _ Hp Hd Hin).
  - destruct (list_tasks_inv _ H) as [records Hp].
    exact (keyed_page_keys _ _ _ _ _ _ Hp Hd Hin).
  - destruct (list_objects_inv _ H) as [records Hp].
    exact (keyed_page_keys _ _ _ _ _ _ Hp Hd Hin).
Qed.

(** ** Jobs *)

(** X5.  [list_jobs] on the mapping that [get_job_info] returned: an empty
    mapping is reported as a coordination-service failure (data [None], the
    static warning), whatever the filter; a non-empty mapping gives, when no
    clause of the filter is applied, all its keys in their order, whatever
    the limit; and when a clause is applied the operation raises
    [AttributeError]. *)
Theorem list_jobs_outcomes (opt : ListApiOptions) (jobs : list (string * JobInfo)) :
  get_job_info client = Ok jobs ->
  (jobs = [] ->
   list_jobs opt = Ok {| data := None; warnings := Some [GCS_QUERY_FAILURE_WARNING] |})
  /\ (jobs <> [] -> parse_filters (filter opt) = [] ->
      list_jobs opt = Ok {| data := Some (map fst jobs); warnings := None |})
  /\ (jobs <> [] -> parse_filters (filter opt) <> [] ->
      list_jobs opt = Err AttributeError).
Proof.
  intros Hj. repeat split.
  - intros ->. unfold StateAPIManager.list_jobs. rewrite Hj. reflexivity.
  - intros Hne Hf. now apply list_jobs_returns_identifiers.
  - intros Hne Hf. eapply list_jobs_filter_raises; eassumption.
Qed.

(** ** Fan-out without a surviving peer *)

(** X6.  When no peer answers (every reply is falsy, or no peer is
    registered) the tasks and runtime-environment operations return empty
    data, the empty mapping and the empty list, not [None]; the warning
    counts every peer as failed, and there is none when no peer is
    registered.  The objects operation does the same when the memory table
    of no statistics is empty. *)
Theorem fanout_without_survivors (opt : ListApiOptions) :
  (forall replies,
      gather (task_requests opt) = Ok replies -> survivors replies = [] ->
      list_tasks opt
      = Ok {| data := Some [];
              warnings :=
                let total := List.length (get_all_registered_raylet_ids client) in
                if Nat.eqb total 0 then None
                else Some [RAYLET_QUERY_FAILURE_WARNING total total] |})
  /\ (forall replies,
      gather (runtime_env_requests opt) = Ok replies -> survivors replies = [] ->
      list_runtime_envs opt
      = Ok {| data := Some [];
              warnings :=
                let total := List.length (get_all_registered_agent_ids client) in
                if Nat.eqb total 0 then None
                else Some [AGENT_QUERY_FAILURE_WARNING total total] |})
  /\ (forall replies,
      gather (object_requests opt) = Ok replies -> survivors replies = [] ->
      construct_memory_table [] = Ok [] ->
      list_objects opt
      = Ok {| data := Some [];
              warnings :=
                let total := List.length (get_all_registered_raylet_ids client) in
                if Nat.eqb total 0 then None
                else Some [RAYLET_QUERY_FAILURE_WARNING total total] |}).
Proof.
  repeat split.
  - intros replies Hg Hs.
    rewrite (list_tasks_fetched message_to_dict TaskState client opt Hg).
    rewrite (fetched_none _ _ Hs). cbn [bind]. rewrite keyed_page_nil.
    rewrite (survivors_none _ Hs), (gather_length _ Hg), length_map. reflexivity.
  - intros replies Hg Hs.
    rewrite (list_runtime_envs_fetched message_to_dict RuntimeEnvState
               runtime_env_to_dict client opt Hg).
    rewrite (fetched_none _ _ Hs). cbn [bind].
    rewrite (survivors_none _ Hs), (gather_length _ Hg), length_map.
    unfold islice. simpl. now destruct (limit opt).
  - intros replies Hg Hs Ht.
    rewrite (list_objects_fetched message_to_dict ObjectState construct_memory_table
               client opt Hg).
    rewrite (fetched_none _ _ Hs). cbn [bind]. rewrite Ht. cbn [bind mapM].
    rewrite keyed_page_nil.
    rewrite (survivors_none _ Hs), (gather_length _ Hg), length_map. reflexivity.
Qed.

(** ** Runtime environments *)

(** X7.  The runtime environments are returned as a list, so nothing is
    merged: when the operation returns, its data is the first [limit]
    records of the sorted filtered list, a rearrangement of the records that
    pass the filter, and holds exactly min(limit, number of records that
    pass the filter) records. *)
Theorem runtime_envs_count (opt : ListApiOptions)
    (replies : list (option (GetRuntimeEnvsInfoReply message)))
    (records filtered : list record) (r : StateApiResult (list record)) :
  gather (runtime_env_requests opt) = Ok replies ->
  fetched runtime_env_reply_data replies = Ok records ->
  _filter (filter opt) records = Ok filtered ->
  list_runtime_envs opt = Ok r ->
  exists sorted,
    sort_by "ref_cnt" filtered = Ok sorted
    /\ Permutation sorted filtered
    /\ data r = Some (firstn (limit opt) sorted)
    /\ List.length (firstn (limit opt) sorted)
       = Nat.min (limit opt) (List.length filtered).
Proof.
  intros Hg Hf Hfl H.
  rewrite (list_runtime_envs_fetched message_to_dict RuntimeEnvState
             runtime_env_to_dict client opt Hg) in H.
  rewrite Hf in H. cbn [bind] in H. rewrite Hfl in H. cbn [bind] in H.
  destruct (sort_by "ref_cnt" filtered) as [sorted|] eqn:Hs; cbn [bind] in H;
    [|discriminate].
  injection H as <-. exists sorted. pose proof (sort_by_perm _ _ Hs) as P.
  repeat split; try assumption.
  rewrite length_firstn. now rewrite (Permutation_length P).
Qed.

End FurtherListProperties.

(** ** The operations on concrete clusters *)

(** Two jobs and a limit of one: both identifiers are returned. *)
Lemma list_jobs_outcomes_witness :
  let jobs := [("01000000", "driver 1"); ("02000000", "driver 2")] in
  let client := fixture_client (Ok None) jobs [] in
  let opt := fixture_option 1 "" in
  get_job_info client = Ok jobs
  /\ list_jobs client opt
     = Ok {| data := Some ["01000000"; "02000000"]; warnings := None |}.
Proof.
  intros jobs client opt.
  assert (H1 : get_job_info client = Ok jobs) by reflexivity.
  assert (H2 : jobs <> []) by discriminate.
  assert (H3 : parse_filters (filter opt) = []) by reflexivity.
  split; [exact H1|].
  exact (proj1 (proj2 (@list_jobs_outcomes _ _ client opt jobs H1)) H2 H3).
Defined.

(** Two agents with one environment each and a limit of one: the data is
    the environment with the lowest reference count. *)
Lemma runtime_envs_count_witness :
  let e1 := [("runtime_env", VStr "{}"); ("ref_cnt", VInt 2)] in
  let e2 := [("runtime_env", VStr "{pip}"); ("ref_cnt", VInt 1)] in
  let client :=
    fixture_client (Ok None) [] [("n1", Ok (Some [e1])); ("n2", Ok (Some [e2]))] in
  let opt := fixture_option 1 "" in
  let replies := [Some {| runtime_env_states := [e1] |};
                  Some {| runtime_env_states := [e2] |}] in
  let r := {| data := Some [e2]; warnings := None |} in
  (gather (map (fun node_id => get_runtime_envs_info client node_id (timeout opt))
               (get_all_registered_agent_ids client)) = Ok replies
   /\ fetched (runtime_env_reply_data decode_identity fixture_fields (fun v => Ok v))
              replies = Ok [e1; e2]
   /\ _filter (filter opt) [e1; e2] = Ok [e1; e2]
   /\ list_runtime_envs decode_identity fixture_fields (fun v => Ok v) client opt
      = Ok r)
  /\ exists sorted,
      sort_by "ref_cnt" [e1; e2] = Ok sorted
      /\ Permutation sorted [e1; e2]
      /\ data r = Some (firstn (limit opt) sorted)
      /\ List.length (firstn (limit opt) sorted)
         = Nat.min (limit opt) (List.length [e1; e2]).
Proof.
  intros e1 e2 client opt replies r.
  assert (H1 : gather (map (fun node_id =>
                              get_runtime_envs_info client node_id (timeout opt))
                           (get_all_registered_agent_ids client)) = Ok replies)
    by reflexivity.
  assert (H2 : fetched (runtime_env_reply_data decode_identity fixture_fields
                          (fun v => Ok v)) replies = Ok [e1; e2]) by reflexivity.
  assert (H3 : _filter (filter opt) [e1; e2] = Ok [e1; e2]) by reflexivity.
  assert (H4 : list_runtime_envs decode_identity fixture_fields (fun v => Ok v)
                 client opt = Ok r) by reflexivity.
  split; [exact (conj H1 (conj H2 (conj H3 H4)))|].
  exact (@runtime_envs_count _ decode_identity fixture_fields (fun v => Ok v) _
           client opt replies [e1; e2] [e1; e2] r H1 H2 H3 H4).
Defined.

(* ================================================================== *)
(** * Independence of the order in which the records are fetched *)
(* ================================================================== *)

Lemma Permutation_filter {A : Type} (p : A -> bool) (l l' : list A) :
  Permutation l l' -> Permutation (List.filter p l) (List.filter p l').
Proof.
  induction 1 as [|x l l' _ IH|x y l|l l' l'' _ IH1 _ IH2]; simpl.
  - constructor.
  - destruct (p x); [now constructor|assumption].
  - destruct (p x), (p y); try reflexivity. apply perm_swap.
  - etransitivity; eassumption.
Qed.

Lemma Permutation_concat {A : Type} (l l' : list (list A)) :
  Permutation l l' -> Permutation (List.concat l) (List.concat l').
Proof.
  induction 1 as [|x l l' _ IH|x y l|l l' l'' _ IH1 _ IH2]; simpl.
  - constructor.
  - now apply Permutation_app_head.
  - rewrite !app_assoc. apply Permutation_app_tail, Permutation_app_comm.
  - etransitivity; eassumption.
Qed.

(** Converting the elements in another order gives the results in that
    order, when no conversion raises. *)
Lemma mapM_perm {A B : Type} (f : A -> result B) (l l' : list A) out :
  Permutation l l' -> mapM f l = Ok out ->
  exists out', mapM f l' = Ok out' /\ Permutation out out'.
Proof.
  intros P. revert out.
  induction P as [|x l l' _ IH|x y l|l l' l'' _ IH1 _ IH2]; intros out; simpl.
  - intros [= <-]. eauto.
  - destruct (f x) as [b|]; simpl; [|discriminate].
    destruct (mapM f l) as [bs|]; simpl; [|discriminate].
    intros [= <-]. destruct (IH _ eq_refl) as [out' [-> P']]. simpl. eauto.
  - destruct (f y) as [b|]; simpl; [|discriminate].
    destruct (f x) as [c|]; simpl; [|discriminate].
    destruct (mapM f l) as [bs|]; simpl; [|discriminate].
    intros [= <-]. eexists. split; [reflexivity|apply perm_swap].
  - intros H. destruct (IH1 _ H) as [o1 [H1 P1]]. destruct (IH2 _ H1) as [o2 [H2 P2]].
    exists o2. split; [assumption|etransitivity; eassumption].
Qed.

Lemma failures_perm {R : Type} (replies replies' : list (option R)) :
  Permutation replies replies' -> failures replies' = failures replies.
Proof.
  intros P. unfold failures. symmetry.
  now apply Permutation_length, Permutation_filter.
Qed.

(** The records fetched from the replies taken in another order are the
    same records in another order. *)
Lemma fetched_perm {R : Type} (convert : R -> result (list record))
    (replies replies' : list (option R)) records :
  Permutation replies replies' -> fetched convert replies = Ok records ->
  exists records',
    fetched convert replies' = Ok records' /\ Permutation records records'.
Proof.
  intros P. unfold fetched.
  destruct (mapM convert (survivors replies)) as [entries|] eqn:E; cbn [bind];
    [|discriminate].
  intros [= <-].
  assert (Ps : Permutation (survivors replies) (survivors replies'))
    by (unfold survivors; now apply Permutation_flat_map).
  destruct (mapM_perm _ Ps E) as [entries' [-> P']]. cbn [bind].
  eexists. split; [reflexivity|]. now apply Permutation_concat.
Qed.

Lemma NoDup_map_filter {A B : Type} (f : A -> B) (p : A -> bool) (l : list A) :
  NoDup (map f l) -> NoDup (map f (List.filter p l)).
Proof.
  induction l as [|a l IH]; simpl; [auto|].
  intros H. inversion_clear H as [|? ? Hnin Hnd].
  destruct (p a); simpl; [constructor|]; auto.
  intros Hin. apply Hnin. apply in_map_iff in Hin as [x [E Hx]].
  apply filter_In in Hx as [Hx _]. apply in_map_iff. eauto.
Qed.

Lemma distinct_ids_filter key (p : record -> bool) l :
  distinct_ids key l -> distinct_ids key (List.filter p l).
Proof.
  intros [H1 H2]. split.
  - rewrite Forall_forall in *. intros d Hd. apply H1.
    now apply filter_In in Hd as [Hd _].
  - now apply NoDup_map_filter.
Qed.

Lemma ltb_total a b : String.ltb a b = false -> String.ltb b a = false -> a = b.
Proof.
  unfold String.ltb. rewrite (String.compare_antisym a b).
  destruct (String.compare b a) eqn:C; simpl; try discriminate.
  intros _ _. symmetry. now apply String.compare_eq_iff.
Qed.

(** There is one way to put records with distinct identifiers in ascending
    order. *)
Lemma ascending_unique key (l l' : list record) :
  NoDup (map (id_text key) l) -> ascending key l -> ascending key l' ->
  Permutation l l' -> l = l'.
Proof.
  unfold ascending. revert l'.
  induction l as [|d l IH]; intros l' Hnd Hl Hl' P.
  - now apply Permutation_nil in P.
  - destruct l' as [|e l']; [now apply Permutation_sym, Permutation_nil in P|].
    inversion_clear Hl as [|? ? Hl1 Hd]. inversion_clear Hl' as [|? ? Hl1' He].
    inversion_clear Hnd as [|? ? Hnin Hnd'].
    rewrite Forall_forall in Hd, He.
    assert (Hde : d = e).
    { assert (Hin_d : In d (e :: l')) by (apply (Permutation_in _ P); now left).
      assert (Hin_e : In e (d :: l))
        by (apply (Permutation_in _ (Permutation_sym P)); now left).
      destruct Hin_e as [->|Hin_e]; [reflexivity|].
      destruct Hin_d as [->|Hin_d]; [reflexivity|].
      exfalso. apply Hnin.
      rewrite (@ltb_total _ _ (He _ Hin_d) (Hd _ Hin_e)).
      now apply in_map. }
    subst e. f_equal. apply IH; try assumption.
    now apply Permutation_cons_inv in P.
Qed.

(** The common page of the keyed operations gives the same result on the
    same records fetched in another order, when their identifiers are
    distinct strings. *)
Lemma keyed_page_perm key opt warnings0 (records records' : list record) :
  Permutation records records' -> distinct_ids key records ->
  keyed_page key opt warnings0 records' = keyed_page key opt warnings0 records.
Proof.
  intros P Hd. unfold keyed_page. rewrite !_filter_record. cbn [bind].
  set (keep := fun d => forallb (clause_passes d) (parse_filters (filter opt))).
  pose proof (Permutation_filter keep P) as Pf.
  pose proof (distinct_ids_filter keep Hd) as Hf.
  pose proof (distinct_ids_perm (Permutation_sym Pf) Hf) as Hf'.
  destruct (paginate_distinct (limit opt) Hf) as [sorted (Hs & Ps & As & _)].
  destruct (paginate_distinct (limit opt) Hf') as [sorted' (Hs' & Ps' & As' & _)].
  rewrite Hs, Hs'. cbn [bind].
  assert (E : sorted = sorted').
  { apply (@ascending_unique key); try assumption.
    - exact (proj2 (distinct_ids_perm Ps Hf)).
    - rewrite Ps, Pf. now symmetry. }
  now rewrite E.
Qed.

Section PeerOrder.

Variable message : Type.
Variable message_to_dict : message -> list string -> bool -> bool -> result record.
Variable TaskState : list string.
Variable JobInfo : Type.
Variables client client' : StateDataSourceClient message JobInfo.

Local Abbreviation task_reply_data :=
  (StateAPIManager.task_reply_data message_to_dict TaskState).
Local Abbreviation list_tasks := (StateAPIManager.list_tasks message_to_dict TaskState).

(** X8.  The result of [list_tasks] does not depend on the order in which
    the raylets are registered: when the sub-requests return, the replies
    are converted and the tasks fetched have distinct string identifiers, a
    client that lists the same raylets in another order and gets the same
    answers from them gives the same data and the same warnings. *)
Theorem list_tasks_peer_order_irrelevant (opt : ListApiOptions)
    (replies : list (option (GetTasksInfoReply message))) (records : list record) :
  Permutation (get_all_registered_raylet_ids client)
              (get_all_registered_raylet_ids client') ->
  (forall node_id,
      get_task_info client' node_id (timeout opt)
      = get_task_info client node_id (timeout opt)) ->
  gather (map (fun node_id => get_task_info client node_id (timeout opt))
              (get_all_registered_raylet_ids client)) = Ok replies ->
  fetched task_reply_data replies = Ok records ->
  distinct_ids "task_id" records ->
  list_tasks client' opt = list_tasks client opt.
Proof.
  intros P Hsame Hg Hf Hd.
  assert (Pr : Permutation
                 (map (fun node_id => get_task_info client node_id (timeout opt))
                      (get_all_registered_raylet_ids client))
                 (map (fun node_id => get_task_info client' node_id (timeout opt))
                      (get_all_registered_raylet_ids client'))).
  { rewrite (map_ext _ _ Hsame). now apply Permutation_map. }
  destruct (mapM_perm _ Pr Hg) as [replies' [Hg' P']].
  destruct (fetched_perm _ P' Hf) as [records' [Hf' Prec]].
  rewrite (list_tasks_fetched message_to_dict TaskState client opt Hg).
  rewrite (list_tasks_fetched message_to_dict TaskState client' opt Hg').
  rewrite Hf, Hf'. cbn [bind].
  rewrite (failures_perm P'), <- (Permutation_length P).
  now apply keyed_page_perm.
Qed.

End PeerOrder.

(** Three raylets, one of which does not answer, registered in two
    orders. *)
Lemma list_tasks_peer_order_irrelevant_witness :
  let A := fixture_task "A" "f" "FINISHED" in
  let B := fixture_task "B" "g" "SCHEDULED" in
  let client :=
    fixture_client (Ok None) [] [("n1", Ok (Some [B])); ("n2", Ok None);
                                 ("n3", Ok (Some [A]))] in
  let client' :=
    fixture_client (Ok None) [] [("n3", Ok (Some [A])); ("n1", Ok (Some [B]));
                                 ("n2", Ok None)] in
  let opt := fixture_option 10 "" in
  let replies := [Some {| task_info_entries := [B] |}; None;
                  Some {| task_info_entries := [A] |}] in
  (Permutation (get_all_registered_raylet_ids client)
               (get_all_registered_raylet_ids client')
   /\ (forall node_id,
          get_task_info client' node_id (timeout opt)
          = get_task_info client node_id (timeout opt))
   /\ gather (map (fun node_id => get_task_info client node_id (timeout opt))
                  (get_all_registered_raylet_ids client)) = Ok replies
   /\ fetched (task_reply_data decode_identity fixture_fields) replies = Ok [B; A]
   /\ distinct_ids "task_id" [B; A])
  /\ list_tasks decode_identity fixture_fields client' opt
     = list_tasks decode_identity fixture_fields client opt.
Proof.
  intros A B client client' opt replies.
  assert (H1 : Permutation (get_all_registered_raylet_ids client)
                           (get_all_registered_raylet_ids client')).
  { change (Permutation ["n1"; "n2"; "n3"] ["n3"; "n1"; "n2"]).
    apply Permutation_sym. exact (Permutation_cons_append ["n1"; "n2"] "n3"). }
  assert (H2 : forall node_id,
             get_task_info client' node_id (timeout opt)
             = get_task_info client node_id (timeout opt)).
  { intros node_id. cbn -[String.eqb].
    destruct (String.eqb_spec "n3" node_id) as [<-|H3]; [reflexivity|].
    destruct (String.eqb_spec "n1" node_id) as [<-|H1']; [reflexivity|].
    destruct (String.eqb_spec "n2" node_id) as [<-|H2']; reflexivity. }
  assert (H3 : gather (map (fun node_id => get_task_info client node_id (timeout opt))
                           (get_all_registered_raylet_ids client)) = Ok replies)
    by reflexivity.
  assert (H4 : fetched (task_reply_data decode_identity fixture_fields) replies
               = Ok [B; A]) by reflexivity.
  assert (H5 : distinct_ids "task_id" [B; A]).
  { split.
    - repeat constructor; eexists; reflexivity.
    - repeat constructor; simpl; intuition discriminate. }
  split; [exact (conj H1 (conj H2 (conj H3 (conj H4 H5))))|].
  exact (@list_tasks_peer_order_irrelevant _ decode_identity fixture_fields _
           client client' opt replies [B; A] H1 H2 H3 H4 H5).
Defined.

(* ================================================================== *)
(** * The order of the runtime environments *)
(* ================================================================== *)

Lemma py_lt_int a b x y :
  as_int a = Some x -> as_int b = Some y -> py_lt a b = Ok (Z.ltb x y).
Proof.
  destruct a as [| [|] | z | s | items]; simpl; try discriminate;
    destruct b as [| [|] | z' | s' | items']; simpl; try discriminate;
    now intros [= <-] [= <-].
Qed.


Lemma key_num_int k z : as_int k = Some z -> key_num k = z.
Proof. unfold key_num. now intros ->. Qed.

Lemma insert_sorted_int {A : Type} k (x : A) l :
  as_int k <> None -> int_keyed l -> exists l', insert_sorted k x l = Ok l'.
Proof.
  intros Hk Hl. destruct (as_int k) as [z|] eqn:Ek; [clear Hk|congruence].
  induction Hl as [|[k' y] l Hk' Hl IH]; simpl; [eauto|].
  simpl in Hk'. destruct (as_int k') as [z'|] eqn:Ek'; [clear Hk'|congruence].
  rewrite (py_lt_int _ _ Ek' Ek). simpl.
  destruct (Z.ltb z' z); [|eauto].
  destruct IH as [r ->]. simpl. eauto.
Qed.

Lemma insert_sorted_nums_ascending {A : Type} k (x : A) l l' :
  as_int k <> None -> int_keyed l -> nums_ascending l ->
  insert_sorted k x l = Ok l' -> nums_ascending l'.
Proof.
  unfold nums_ascending. intros Hk Hl Hs.
  destruct (as_int k) as [z|] eqn:Ek; [clear Hk|congruence].
  revert l'. induction Hs as [|[k' y] l Hs IH Hhd]; intros l'; simpl.
  - intros [= <-]. repeat constructor.
  - inversion_clear Hl as [|? ? Hk' Hl']. simpl in Hk'.
    destruct (as_int k') as [z'|] eqn:Ek'; [clear Hk'|congruence].
    rewrite (py_lt_int _ _ Ek' Ek). simpl.
    destruct (Z.ltb z' z) eqn:L.
    + destruct (insert_sorted k x l) as [r|] eqn:R; simpl; [|discriminate].
      intros [= <-]. constructor; [now apply IH|].
      apply (Permutation_Forall (Permutation_sym (insert_sorted_perm _ _ _ R))).
      constructor; [|assumption]. simpl.
      rewrite (key_num_int _ Ek), (key_num_int _ Ek'). lia.
    + intros [= <-]. constructor; [now constructor|].
      constructor.
      * simpl. rewrite (key_num_int _ Ek), (key_num_int _ Ek'). lia.
      * rewrite Forall_forall in *. intros q Hq. specialize (Hhd q Hq). simpl in *.
        rewrite (key_num_int _ Ek). rewrite (key_num_int _ Ek') in Hhd. lia.
Qed.

(** The insertion is stable: the new element comes before the elements
    with its key, and the elements with any one key keep their order. *)
Lemma insert_sorted_stable {A : Type} k (x : A) l l' w :
  as_int k <> None -> int_keyed l -> insert_sorted k x l = Ok l' ->
  List.filter (fun q => (key_num (fst q) =? w)%Z) l'
  = List.filter (fun q => (key_num (fst q) =? w)%Z) ((k, x) :: l).
Proof.
  intros Hk Hl. destruct (as_int k) as [z|] eqn:Ek; [clear Hk|congruence].
  revert l'. induction Hl as [|[k' y] l Hk' Hl IH]; intros l'.
  - simpl. now intros [= <-].
  - simpl in Hk'. destruct (as_int k') as [z'|] eqn:Ek'; [clear Hk'|congruence].
    cbn [insert_sorted]. rewrite (py_lt_int _ _ Ek' Ek). cbn [bind].
    destruct (Z.ltb z' z) eqn:L.
    + destruct (insert_sorted k x l) as [r|] eqn:R; cbn [bind]; [|discriminate].
      intros [= <-]. cbn [List.filter fst]. rewrite (IH r eq_refl).
      cbn [List.filter fst]. rewrite (key_num_int _ Ek), (key_num_int _ Ek').
      destruct (Z.eqb_spec z' w), (Z.eqb_spec z w); try reflexivity. lia.
    + now intros [= <-].
Qed.

Lemma sort_keyed_int {A : Type} (l : list (value * A)) :
  int_keyed l ->
  exists l',
    sort_keyed l = Ok l'
    /\ nums_ascending l'
    /\ forall w, List.filter (fun q => (key_num (fst q) =? w)%Z) l'
                 = List.filter (fun q => (key_num (fst q) =? w)%Z) l.
Proof.
  induction 1 as [|[k x] l Hk Hl IH]; simpl.
  - eexists. split; [reflexivity|]. split; [constructor|reflexivity].
  - destruct IH as [r (Hr & Hs & Hst)]. rewrite Hr. simpl in Hk. cbn [bind].
    assert (Hint : int_keyed r)
      by (apply (Permutation_Forall (Permutation_sym (sort_keyed_perm _ Hr))); exact Hl).
    destruct (@insert_sorted_int _ k x r Hk Hint) as [l' Hl'].
    exists l'. split; [assumption|]. split.
    + eapply insert_sorted_nums_ascending; eassumption.
    + intros w. rewrite (@insert_sorted_stable _ k x r l' w Hk Hint Hl').
      cbn [List.filter fst]. now rewrite Hst.
Qed.

Lemma nums_ascending_records (sk : list (value * record)) :
  Forall (fun p => key_num (fst p) = count_of (snd p)) sk ->
  nums_ascending sk -> ascending_counts (map snd sk).
Proof.
  unfold nums_ascending, ascending_counts. intros Hk Hs.
  induction Hs as [|p l Hl IH Hhd]; simpl; constructor.
  - apply IH. now inversion Hk.
  - inversion_clear Hk as [|? ? Hp Hk']. rewrite Forall_forall in *.
    intros e He. apply in_map_iff in He as [q [<- Hq]].
    specialize (Hhd q Hq). rewrite Hp, (Hk' q Hq) in Hhd. exact Hhd.
Qed.

Lemma filter_map_snd {A B : Type} (p : A * B -> bool) (q : B -> bool) (l : list (A * B)) :
  Forall (fun x => p x = q (snd x)) l ->
  map snd (List.filter p l) = List.filter q (map snd l).
Proof.
  induction 1 as [|x l Hx _ IH]; simpl; [reflexivity|].
  rewrite Hx. destruct (q (snd x)); simpl; now rewrite IH.
Qed.

(** Records with a numeric reference count can always be sorted: the
    result is in ascending order of the count, and the records with the
    same count keep the order they had. *)
Lemma sort_by_ref_cnt entries :
  Forall (fun d => ref_count d <> None) entries ->
  exists sorted,
    sort_by "ref_cnt" entries = Ok sorted
    /\ Permutation sorted entries
    /\ ascending_counts sorted
    /\ forall z, with_count z sorted = with_count z entries.
Proof.
  intros H. unfold sort_by. rewrite sort_by_keys.
  rewrite (mapM_total _ (fun d => field d "ref_cnt")).
  - cbn [bind].
    set (pairs := combine (map (fun d => field d "ref_cnt") entries) entries).
    assert (Hfst : Forall (fun p => fst p = field (snd p) "ref_cnt") pairs).
    { subst pairs. clear H. induction entries as [|d entries IH]; simpl; constructor;
        [reflexivity|assumption]. }
    assert (Hsnd : map snd pairs = entries).
    { subst pairs. apply map_snd_combine. now rewrite length_map. }
    assert (Hnum : Forall (fun p => key_num (fst p) = count_of (snd p)) pairs).
    { apply (Forall_impl _ (P := fun p => fst p = field (snd p) "ref_cnt"));
        [|exact Hfst].
      intros p ->. unfold key_num, count_of, ref_count, field.
      now destruct (lookup "ref_cnt" (snd p)). }
    assert (Hint : int_keyed pairs).
    { unfold int_keyed. rewrite Forall_forall in *. intros p Hp.
      rewrite (Hfst p Hp).
      assert (Hin : In (snd p) entries) by (rewrite <- Hsnd; now apply in_map).
      specialize (H _ Hin). unfold ref_count, field in *.
      now destruct (lookup "ref_cnt" (snd p)). }
    destruct (@sort_keyed_int _ pairs Hint) as [sk (Hsk & Hasc & Hst)].
    rewrite Hsk. cbn [bind]. exists (map snd sk).
    pose proof (sort_keyed_perm _ Hsk) as P.
    assert (Hnum' : Forall (fun p => key_num (fst p) = count_of (snd p)) sk)
      by (apply (Permutation_Forall (Permutation_sym P)); exact Hnum).
    split; [reflexivity|]. split; [|split].
    + rewrite <- Hsnd. now apply Permutation_map.
    + now apply nums_ascending_records.
    + intros z. unfold with_count.
      rewrite <- (@filter_map_snd _ _ (fun q => (key_num (fst q) =? z)%Z)).
      * rewrite Hst.
        rewrite (@filter_map_snd _ _ _ (fun d => (count_of d =? z)%Z) pairs);
          [now rewrite Hsnd|].
        apply (Forall_impl _ (P := fun p => key_num (fst p) = count_of (snd p)));
          [|exact Hnum]. now intros p ->.
      * apply (Forall_impl _ (P := fun p => key_num (fst p) = count_of (snd p)));
          [|exact Hnum']. now intros p ->.
  - intros d Hd. rewrite Forall_forall in H. specialize (H d Hd).
    unfold getitem, field, ref_count in *. now destruct (lookup "ref_cnt" d).
Qed.

Section RuntimeEnvOrder.

Variable message : Type.
Variable message_to_dict : message -> list string -> bool -> bool -> result record.
Variable RuntimeEnvState : list string.
Variable runtime_env_to_dict : value -> result value.
Variable JobInfo : Type.
Variable client : StateDataSourceClient message JobInfo.

Local Abbreviation runtime_env_reply_data :=
  (StateAPIManager.runtime_env_reply_data message_to_dict RuntimeEnvState
     runtime_env_to_dict).
Local Abbreviation list_runtime_envs :=
  (StateAPIManager.list_runtime_envs message_to_dict RuntimeEnvState
     runtime_env_to_dict client).

(** X9.  When the agents have answered, their replies are converted and
    every runtime environment that passes the filter has a number under
    [ref_cnt], [list_runtime_envs] returns: its data is the first [limit]
    records of the filtered records put in ascending order of the
    reference count, the records with the same count in the order in which
    they were fetched; the warning is the one for the agents that did not
    answer. *)
Theorem runtime_envs_sorted_by_count (opt : ListApiOptions)
    (replies : list (option (GetRuntimeEnvsInfoReply message)))
    (records filtered : list record) :
  gather (map (fun node_id => get_runtime_envs_info client node_id (timeout opt))
              (get_all_registered_agent_ids client)) = Ok replies ->
  fetched runtime_env_reply_data replies = Ok records ->
  _filter (filter opt) records = Ok filtered ->
  Forall (fun d => ref_count d <> None) filtered ->
  exists sorted,
    list_runtime_envs opt
    = Ok {| data := Some (firstn (limit opt) sorted);
            warnings :=
              expected_warnings AGENT_QUERY_FAILURE_WARNING
                (List.length (get_all_registered_agent_ids client))
                (failures replies) |}
    /\ Permutation sorted filtered
    /\ ascending_counts sorted
    /\ forall z, with_count z sorted = with_count z filtered.
Proof.
  intros Hg Hf Hfl Hn.
  destruct (sort_by_ref_cnt Hn) as [sorted (Hs & P & Hasc & Hst)].
  exists sorted. repeat split; try assumption.
  rewrite (list_runtime_envs_fetched message_to_dict RuntimeEnvState
             runtime_env_to_dict client opt Hg).
  rewrite Hf. cbn [bind]. rewrite Hfl. cbn [bind]. rewrite Hs. reflexivity.
Qed.

End RuntimeEnvOrder.

(** Two agents and three environments, two of which have the same
    reference count. *)
Lemma runtime_envs_sorted_by_count_witness :
  let e1 := [("runtime_env", VStr "{}"); ("ref_cnt", VInt 2)] in
  let e2 := [("runtime_env", VStr "{pip}"); ("ref_cnt", VInt 1)] in
  let e3 := [("runtime_env", VStr "{conda}"); ("ref_cnt", VInt 2)] in
  let client :=
    fixture_client (Ok None) []
      [("n1", Ok (Some [e1; e2])); ("n2", Ok None); ("n3", Ok (Some [e3]))] in
  let opt := fixture_option 2 "" in
  let replies := [Some {| runtime_env_states := [e1; e2] |}; None;
                  Some {| runtime_env_states := [e3] |}] in
  (gather (map (fun node_id => get_runtime_envs_info client node_id (timeout opt))
               (get_all_registered_agent_ids client)) = Ok replies
   /\ fetched (runtime_env_reply_data decode_identity fixture_fields (fun v => Ok v))
              replies = Ok [e1; e2; e3]
   /\ _filter (filter opt) [e1; e2; e3] = Ok [e1; e2; e3]
   /\ Forall (fun d => ref_count d <> None) [e1; e2; e3])
  /\ list_runtime_envs decode_identity fixture_fields (fun v => Ok v) client opt
     = Ok {| data := Some [e2; e1];
             warnings := Some [AGENT_QUERY_FAILURE_WARNING 3 1] |}
  /\ exists sorted,
      list_runtime_envs decode_identity fixture_fields (fun v => Ok v) client opt
      = Ok {| data := Some (firstn (limit opt) sorted);
              warnings :=
                expected_warnings AGENT_QUERY_FAILURE_WARNING
                  (List.length (get_all_registered_agent_ids client))
                  (failures replies) |}
      /\ Permutation sorted [e1; e2; e3]
      /\ ascending_counts sorted
      /\ forall z, with_count z sorted = with_count z [e1; e2; e3].
Proof.
  intros e1 e2 e3 client opt replies.
  assert (H1 : gather (map (fun node_id =>
                              get_runtime_envs_info client node_id (timeout opt))
                           (get_all_registered_agent_ids client)) = Ok replies)
    by reflexivity.
  assert (H2 : fetched (runtime_env_reply_data decode_identity fixture_fields
                          (fun v => Ok v)) replies = Ok [e1; e2; e3]) by reflexivity.
  assert (H3 : _filter (filter opt) [e1; e2; e3] = Ok [e1; e2; e3]) by reflexivity.
  assert (H4 : Forall (fun d => ref_count d <> None) [e1; e2; e3])
    by (repeat constructor; discriminate).
  split; [exact (conj H1 (conj H2 (conj H3 H4)))|].
  split; [reflexivity|].
  exact (@runtime_envs_sorted_by_count _ decode_identity fixture_fields
           (fun v => Ok v) _ client opt replies [e1; e2; e3] [e1; e2; e3]
           H1 H2 H3 H4).
Defined.

(* ================================================================== *)
(** * The rollups of the summary *)
(* ================================================================== *)

(** ** Running the statements on a mapping with string keys *)

Lemma vset_vset_str {V : Type} k (v v0 : V) items :
  vset (VStr k) v (vset (VStr k) v0 items) = vset (VStr k) v items.
Proof.
  induction items as [|[k1 v1] items IH]; simpl.
  - now rewrite String.eqb_refl.
  - destruct (key_eqb k1 (VStr k)) eqn:E; simpl; rewrite E; [reflexivity|].
    now rewrite IH.
Qed.

Lemma vset_same_str {V : Type} k (v : V) items :
  vlookup (VStr k) items = Some v -> vset (VStr k) v items = items.
Proof.
  induction items as [|[k1 v1] items IH]; simpl; [discriminate|].
  destruct (key_eqb k1 (VStr k)); [now intros [= ->]|].
  intros H. now rewrite IH.
Qed.

Lemma bindM_run {A B : Type} (m : M A) (f : A -> M B) s a s1 :
  m s = Ok (a, s1) -> bindM m f s = f a s1.
Proof. unfold bindM. now intros ->. Qed.

Lemma at_key_present {A : Type} k (m : M A) f items child a child' :
  vlookup (VStr k) items = Some child -> m child = Ok (a, child') ->
  at_key (VStr k) m (SDict f items) = Ok (a, SDict f (vset (VStr k) child' items)).
Proof. intros H1 H2. unfold at_key. simpl. now rewrite H1, H2. Qed.

Lemma counter_value_vset f c z cs c' :
  counter_value (SDict f (vset (VStr c) (SInt z) cs)) c'
  = if String.eqb c c' then z else counter_value (SDict f cs) c'.
Proof.
  unfold counter_value. simpl. rewrite vlookup_vset_str.
  now destruct (String.eqb c c').
Qed.

Lemma int_valued_vset c z cs : int_valued cs -> int_valued (vset (VStr c) (SInt z) cs).
Proof.
  intros H c' v. rewrite vlookup_vset_str. destruct (String.eqb c c'); [|apply H].
  intros [= <-]. eauto.
Qed.

(** [d[c] += 1] on a [defaultdict(int)] of integers. *)
Lemma incr_counter c cs :
  int_valued cs ->
  incr (VStr c) (SDict IntFactory cs)
  = Ok (tt, SDict IntFactory
              (vset (VStr c) (SInt (counter_value (SDict IntFactory cs) c + 1)) cs)).
Proof.
  intros H. unfold incr, counter_value. simpl.
  destruct (vlookup (VStr c) cs) as [v|] eqn:L.
  - destruct (H _ _ L) as [z ->]. reflexivity.
  - simpl. now rewrite vset_vset_str.
Qed.

(** [d[c] += 1] on a dictionary in which [c] is an integer. *)
Lemma incr_present f c z entries :
  vlookup (VStr c) entries = Some (SInt z) ->
  incr (VStr c) (SDict f entries)
  = Ok (tt, SDict f (vset (VStr c) (SInt (z + 1)) entries)).
Proof. intros H. unfold incr. simpl. now rewrite H. Qed.

(** ** The loop over the tasks *)

Lemma bump_run f items names nm cs c :
  vlookup (VStr "tasks") items = Some (SDict NoFactory names) ->
  vlookup (VStr nm) names = Some (SDict IntFactory cs) ->
  int_valued cs ->
  at_key (VStr "tasks") (at_key (VStr nm) (incr (VStr c))) (SDict f items)
  = Ok (tt, SDict f
              (vset (VStr "tasks")
                 (SDict NoFactory
                    (vset (VStr nm)
                       (SDict IntFactory
                          (vset (VStr c)
                             (SInt (counter_value (SDict IntFactory cs) c + 1)) cs))
                       names))
                 items)).
Proof.
  intros H1 H2 H3.
  eapply at_key_present; [eassumption|].
  eapply at_key_present; [eassumption|].
  now apply incr_counter.
Qed.


Lemma task_counts_run f items names0 cs0 nm st task :
  int_valued cs0 -> lookup "scheduling_state" task = Some st ->
  exists cs2,
    (at_key (VStr "tasks") (at_key (VStr nm) (incr (VStr "cnt"))) ;;;
     scheduling_state <- lift (getitem task "scheduling_state") ;;
     if eq_str scheduling_state "WAITING_FOR_DEPENDENCIES" then
       at_key (VStr "tasks") (at_key (VStr nm) (incr (VStr "wait_for_dep_cnt")))
     else if eq_str scheduling_state "SCHEDULED" then
       at_key (VStr "tasks") (at_key (VStr nm) (incr (VStr "scheduled_cnt")))
     else if eq_str scheduling_state "FINISHED" then
       at_key (VStr "tasks") (at_key (VStr nm) (incr (VStr "finished_cnt")))
     else ret tt)%store
      (SDict f (vset (VStr "tasks")
                  (SDict NoFactory (vset (VStr nm) (SDict IntFactory cs0) names0))
                  items))
    = Ok (tt, SDict f (vset (VStr "tasks")
                         (SDict NoFactory (vset (VStr nm) (SDict IntFactory cs2) names0))
                         items))
    /\ int_valued cs2
    /\ forall c,
        counter_value (SDict IntFactory cs2) c
        = (counter_value (SDict IntFactory cs0) c
           + if String.eqb "cnt" c
                || match task_counter st with
                   | Some c' => String.eqb c' c
                   | None => false
                   end
             then 1 else 0)%Z.
Proof.
  intros Hint Hst.
  assert (Hbump : forall cs c,
             int_valued cs ->
             at_key (VStr "tasks") (at_key (VStr nm) (incr (VStr c)))
               (SDict f (vset (VStr "tasks")
                           (SDict NoFactory (vset (VStr nm) (SDict IntFactory cs) names0))
                           items))
             = Ok (tt, SDict f
                         (vset (VStr "tasks")
                            (SDict NoFactory
                               (vset (VStr nm)
                                  (SDict IntFactory
                                     (vset (VStr c)
                                        (SInt (counter_value (SDict IntFactory cs) c + 1))
                                        cs))
                                  names0))
                            items))).
  { intros cs c Hcs.
    rewrite (@bump_run f _ (vset (VStr nm) (SDict IntFactory cs) names0) nm cs c);
      [|now rewrite vlookup_vset_str, String.eqb_refl
       |now rewrite vlookup_vset_str, String.eqb_refl|assumption].
    now rewrite !vset_vset_str. }
  rewrite (@bindM_run _ _ _ _ _ _ _ (Hbump cs0 "cnt" Hint)).
  unfold bindM at 1, lift at 1, getitem at 1. rewrite Hst.
  set (cs1 := vset (VStr "cnt") (SInt (counter_value (SDict IntFactory cs0) "cnt" + 1)) cs0).
  assert (Hint1 : int_valued cs1) by now apply int_valued_vset.
  assert (Hcs1 : forall c, counter_value (SDict IntFactory cs1) c
                           = (counter_value (SDict IntFactory cs0) c
                              + if String.eqb "cnt" c then 1 else 0)%Z).
  { intros c. unfold cs1. rewrite counter_value_vset.
    destruct (String.eqb_spec "cnt" c) as [<-|]; lia. }
  unfold task_counter.
  destruct (eq_str st "WAITING_FOR_DEPENDENCIES");
    [|destruct (eq_str st "SCHEDULED"); [|destruct (eq_str st "FINISHED")]].
  4: { exists cs1. split; [reflexivity|]. split; [assumption|].
       intros c. rewrite Hcs1, orb_false_r. reflexivity. }
  all: rewrite (Hbump cs1 _ Hint1); eexists; split; [reflexivity|];
    split; [now apply int_valued_vset|];
    intros c; rewrite counter_value_vset, !Hcs1;
    match goal with
    | |- context [String.eqb ?k c] =>
        destruct (String.eqb_spec "cnt" c) as [<-|];
        [reflexivity|destruct (String.eqb_spec k c) as [<-|]; simpl; lia]
    end.
Qed.

Lemma contains_run k f items :
  contains (VStr k) (SDict f items)
  = Ok (match vlookup (VStr k) items with Some _ => true | None => false end,
        SDict f items).
Proof. reflexivity. Qed.

Lemma setitem_run k v f items :
  setitem (VStr k) v (SDict f items) = Ok (tt, SDict f (vset (VStr k) v items)).
Proof. reflexivity. Qed.

Lemma task_counters_present f items t name :
  vlookup (VStr "tasks") items = Some t ->
  task_counters (SDict f items) name = top_entry t name.
Proof. intros H. unfold task_counters, top_entry at 1. now rewrite H. Qed.

Lemma task_counters_absent f items name :
  vlookup (VStr "tasks") items = None -> task_counters (SDict f items) name = None.
Proof. intros H. unfold task_counters, top_entry. now rewrite H. Qed.

Lemma ret_run {A : Type} (a : A) s : ret a s = Ok (a, s).
Proof. reflexivity. Qed.

Lemma lift_getitem d k v s : lookup k d = Some v -> lift (getitem d k) s = Ok (v, s).
Proof. intros H. unfold lift, getitem. now rewrite H. Qed.

Ltac run H := rewrite (@bindM_run _ _ _ _ _ _ _ H).

Lemma summarize_task_step task s :
  countable_task task = true -> task_rollup s ->
  exists s',
    StateAPIManager.summarize_task task s = Ok (tt, s')
    /\ task_rollup s'
    /\ factory_of s' = factory_of s
    /\ (forall k, k <> "tasks" -> top_entry s' k = top_entry s k)
    /\ (forall name, listed s' name = listed s name || bumps task name "cnt")
    /\ forall name c,
        task_count s' name c
        = (task_count s name c + if bumps task name c then 1 else 0)%Z.
Proof.
  intros Hc (f & items & -> & Hinv). unfold countable_task in Hc.
  destruct (lookup "type" task) as [ty|] eqn:Hty; [|discriminate].
  unfold StateAPIManager.summarize_task.
  unfold bindM at 1, lift at 1, getitem at 1. rewrite Hty.
  assert (Hfield_ty : field task "type" = ty) by (unfold field; now rewrite Hty).
  destruct (eq_str ty "ACTOR_CREATION_TASK") eqn:Ety.
  - exists (SDict f items). split; [reflexivity|]. split; [exists f, items; auto|].
    split; [reflexivity|]. split; [reflexivity|].
    assert (Hb : forall name c, bumps task name c = false)
      by (intros; unfold bumps; now rewrite Hfield_ty, Ety).
    split; intros name; [now rewrite Hb, orb_false_r|intros c; rewrite Hb; lia].
  - simpl in Hc.
    destruct (lookup "name" task) as [[| | |nm|]|] eqn:Hname; try discriminate.
    destruct (lookup "scheduling_state" task) as [st|] eqn:Hst; [|discriminate].
    clear Hc.
    assert (Hb : forall name c,
               bumps task name c
               = String.eqb nm name
                 && (String.eqb "cnt" c
                     || match task_counter st with
                        | Some c' => String.eqb c' c
                        | None => false
                        end)).
    { intros name c. unfold bumps, field. now rewrite Hty, Hname, Hst, Ety. }
    assert (Hens : exists names0 cs0,
               int_valued cs0
               /\ (forall name,
                      vlookup (VStr name) names0 = task_counters (SDict f items) name)
               /\ (forall c, counter_value (SDict IntFactory cs0) c
                             = task_count (SDict f items) nm c)
               /\ (forall name e, vlookup (VStr name) names0 = Some e ->
                                  exists cs, e = SDict IntFactory cs /\ int_valued cs)
               /\ forall k : value -> M unit,
                   (present <- contains (VStr "tasks") ;;
                    when (negb present) (setitem (VStr "tasks") (SDict NoFactory [])) ;;;
                    name <- lift (getitem task "name") ;;
                    present0 <- at_key (VStr "tasks") (contains name) ;;
                    when (negb present0)
                      (at_key (VStr "tasks") (setitem name (SDict IntFactory []))) ;;;
                    k name)%store (SDict f items)
                   = k (VStr nm)
                       (SDict f (vset (VStr "tasks")
                                   (SDict NoFactory
                                      (vset (VStr nm) (SDict IntFactory cs0) names0))
                                   items))).
    { destruct (vlookup (VStr "tasks") items) as [t|] eqn:Ht.
      - destruct (Hinv t eq_refl) as (names & -> & Hnames).
        destruct (vlookup (VStr nm) names) as [e|] eqn:He.
        + destruct (Hnames _ _ He) as (cs & -> & Hcs).
          exists names, cs. split; [assumption|]. split; [|split; [|split]].
          * intros name. now rewrite (@task_counters_present f _ _ name Ht).
          * intros c. unfold task_count.
            rewrite (@task_counters_present f _ _ nm Ht). simpl. now rewrite He.
          * assumption.
          * intros k. run (contains_run "tasks" f items). rewrite Ht. cbn [negb when].
            run (ret_run tt (SDict f items)). run (@lift_getitem _ _ _ (SDict f items) Hname).
            run (@at_key_present _ "tasks" _ f _ _ _ _ Ht
                   (contains_run nm NoFactory names)).
            rewrite He, (@vset_same_str _ _ _ _ Ht). cbn [negb when].
            run (ret_run tt (SDict f items)).
            now rewrite (@vset_same_str _ _ _ _ He), (@vset_same_str _ _ _ _ Ht).
        + exists names, []. split; [intros c v; discriminate|]. split; [|split; [|split]].
          * intros name. now rewrite (@task_counters_present f _ _ name Ht).
          * intros c. unfold task_count.
            rewrite (@task_counters_present f _ _ nm Ht). simpl. now rewrite He.
          * assumption.
          * intros k. run (contains_run "tasks" f items). rewrite Ht. cbn [negb when].
            run (ret_run tt (SDict f items)). run (@lift_getitem _ _ _ (SDict f items) Hname).
            run (@at_key_present _ "tasks" _ f _ _ _ _ Ht
                   (contains_run nm NoFactory names)).
            rewrite He, (@vset_same_str _ _ _ _ Ht). cbn [negb when].
            run (@at_key_present _ "tasks" _ f _ _ _ _ Ht
                   (setitem_run nm (SDict IntFactory []) NoFactory names)).
            reflexivity.
      - exists [], []. split; [intros c v; discriminate|]. split; [|split; [|split]].
        + intros name. now rewrite (@task_counters_absent f _ name Ht).
        + intros c. unfold task_count. now rewrite (@task_counters_absent f _ nm Ht).
        + intros name e. discriminate.
        + intros k. run (contains_run "tasks" f items). rewrite Ht. cbn [negb when].
          run (setitem_run "tasks" (SDict NoFactory []) f items).
          run (@lift_getitem _ _ _
                 (SDict f (vset (VStr "tasks") (SDict NoFactory []) items)) Hname).
          assert (Ht' : vlookup (VStr "tasks")
                          (vset (VStr "tasks") (SDict NoFactory []) items)
                        = Some (SDict NoFactory []))
            by now rewrite vlookup_vset_str, String.eqb_refl.
          run (@at_key_present _ "tasks" _ f _ _ _ _ Ht'
                   (contains_run nm NoFactory [])).
          rewrite !vset_vset_str. cbn [vlookup negb when].
          assert (Ht'' : vlookup (VStr "tasks")
                           (vset (VStr "tasks") (SDict NoFactory []) items)
                         = Some (SDict NoFactory []))
            by now rewrite vlookup_vset_str, String.eqb_refl.
          run (@at_key_present _ "tasks" _ f _ _ _ _ Ht''
                   (setitem_run nm (SDict IntFactory []) NoFactory [])).
          now rewrite !vset_vset_str. }
    destruct Hens as (names0 & cs0 & Hint0 & Hn0 & Hc0 & Hwf0 & Hrun).
    rewrite (Hrun (fun name =>
      at_key (VStr "tasks") (at_key name (incr (VStr "cnt"))) ;;;
      scheduling_state <- lift (getitem task "scheduling_state") ;;
      if eq_str scheduling_state "WAITING_FOR_DEPENDENCIES" then
        at_key (VStr "tasks") (at_key name (incr (VStr "wait_for_dep_cnt")))
      else if eq_str scheduling_state "SCHEDULED" then
        at_key (VStr "tasks") (at_key name (incr (VStr "scheduled_cnt")))
      else if eq_str scheduling_state "FINISHED" then
        at_key (VStr "tasks") (at_key name (incr (VStr "finished_cnt")))
      else ret tt)%store).
    destruct (@task_counts_run f items names0 cs0 nm st task Hint0 Hst)
      as (cs2 & -> & Hint2 & Hcs2).
    set (names2 := vset (VStr nm) (SDict IntFactory cs2) names0).
    assert (Htc : forall name,
               task_counters
                 (SDict f (vset (VStr "tasks") (SDict NoFactory names2) items)) name
               = if String.eqb nm name then Some (SDict IntFactory cs2)
                 else task_counters (SDict f items) name).
    { intros name.
      rewrite (@task_counters_present f _ (SDict NoFactory names2) name)
        by now rewrite vlookup_vset_str, String.eqb_refl.
      unfold names2. simpl. rewrite vlookup_vset_str. now rewrite Hn0. }
    eexists. split; [reflexivity|]. split; [|split; [reflexivity|split; [|split]]].
    + exists f, (vset (VStr "tasks") (SDict NoFactory names2) items).
      split; [reflexivity|]. intros t. rewrite vlookup_vset_str, String.eqb_refl.
      intros [= <-]. exists names2. split; [reflexivity|].
      intros name e. unfold names2. rewrite vlookup_vset_str.
      destruct (String.eqb nm name); [|apply Hwf0].
      intros [= <-]. eauto.
    + intros k Hk. simpl. rewrite vlookup_vset_str.
      now rewrite (proj2 (String.eqb_neq "tasks" k)) by congruence.
    + intros name. unfold listed. rewrite Htc, Hb. simpl.
      destruct (String.eqb nm name); simpl; [now rewrite orb_true_r|].
      now rewrite orb_false_r.
    + intros name c. unfold task_count at 1. rewrite Htc, Hb.
      destruct (String.eqb_spec nm name) as [<-|Hne]; simpl.
      * now rewrite Hcs2, Hc0.
      * unfold task_count. lia.
Qed.

Lemma tally_cons task tasks name c :
  tally (task :: tasks) name c
  = (if bumps task name c then 1 else 0) + tally tasks name c.
Proof. unfold tally. simpl. now destruct (bumps task name c). Qed.

Lemma tasks_loop_counts tasks s :
  Forall (fun task => countable_task task = true) tasks -> task_rollup s ->
  exists s',
    for_each tasks StateAPIManager.summarize_task s = Ok (tt, s')
    /\ task_rollup s'
    /\ factory_of s' = factory_of s
    /\ (forall k, k <> "tasks" -> top_entry s' k = top_entry s k)
    /\ (forall name,
           listed s' name = listed s name || negb (Nat.eqb (tally tasks name "cnt") 0))
    /\ forall name c,
        task_count s' name c = (task_count s name c + Z.of_nat (tally tasks name c))%Z.
Proof.
  intros H. revert s. induction H as [|task tasks Ht _ IH]; intros s Hs.
  - exists s. split; [reflexivity|]. split; [assumption|]. split; [reflexivity|].
    split; [reflexivity|].
    split; intros name; [now rewrite orb_false_r|intros c; simpl; lia].
  - destruct (@summarize_task_step task s Ht Hs)
      as (s1 & H1 & Hs1 & Hd1 & Hf1 & Hl1 & Hc1).
    destruct (IH s1 Hs1) as (s' & H2 & Hs' & Hd2 & Hf2 & Hl2 & Hc2).
    exists s'. split; [|split; [assumption|split; [|split; [|split]]]].
    + simpl. now rewrite (@bindM_run _ _ _ _ _ _ _ H1).
    + now rewrite Hd2.
    + intros k Hk. now rewrite Hf2, Hf1.
    + intros name. rewrite Hl2, Hl1, tally_cons.
      destruct (bumps task name "cnt"); simpl; [now rewrite orb_true_r|].
      now rewrite orb_false_r.
    + intros name c. rewrite Hc2, Hc1, tally_cons.
      destruct (bumps task name c); lia.
Qed.

(** X10.  The loop of [summary] over the tasks (lines 467-481), run on a
    mapping without the key "tasks" and on tasks it can read (a type and,
    for the tasks that are not actor-creation tasks, a string name and a
    scheduling state), completes, leaves every other key of the mapping as
    it was, and counts correctly: a name has an entry under "tasks" exactly
    when a task that is not an actor-creation task has it, and then its
    counter [cnt] is the number of these tasks and each of
    [wait_for_dep_cnt], [scheduled_cnt], [finished_cnt] the number of them
    in that scheduling state; counters are never reset. *)
Theorem summary_tasks_rollup (tasks : list record) (s : sval) :
  Forall (fun task => countable_task task = true) tasks ->
  (exists f items, s = SDict f items) -> top_entry s "tasks" = None ->
  exists s',
    for_each tasks StateAPIManager.summarize_task s = Ok (tt, s')
    /\ (forall k, k <> "tasks" -> top_entry s' k = top_entry s k)
    /\ forall name,
        (task_counters s' name <> None <-> tally tasks name "cnt" <> 0)
        /\ forall c, task_count s' name c = Z.of_nat (tally tasks name c).
Proof.
  intros Ht (f & items & ->) Habs.
  assert (Hs : task_rollup (SDict f items)).
  { exists f, items. split; [reflexivity|]. simpl in Habs. intros t. congruence. }
  destruct (@tasks_loop_counts tasks _ Ht Hs) as (s' & Hrun & _ & _ & Hf & Hl & Hc).
  assert (Hnone : forall name, task_counters (SDict f items) name = None)
    by (intros name; apply task_counters_absent; exact Habs).
  exists s'. split; [assumption|]. split; [assumption|]. intros name. split.
  - specialize (Hl name). unfold listed in Hl. rewrite Hnone in Hl. simpl in Hl.
    destruct (task_counters s' name); destruct (Nat.eqb_spec (tally tasks name "cnt") 0);
      simpl in Hl; try discriminate; split; congruence.
  - intros c. rewrite Hc. unfold task_count. rewrite Hnone. lia.
Qed.

(** Four tasks: two named f, one of them finished; an actor-creation task
    named f; one task named g. *)
Lemma summary_tasks_rollup_witness :
  let tasks := [fixture_task "t1" "f" "FINISHED"; fixture_task "t2" "g" "SCHEDULED";
                [("task_id", VStr "t3"); ("name", VStr "f");
                 ("type", VStr "ACTOR_CREATION_TASK");
                 ("scheduling_state", VStr "FINISHED")];
                fixture_task "t4" "f" "RUNNING"] in
  let s := SDict DictFactory [] in
  (Forall (fun task => countable_task task = true) tasks
   /\ top_entry s "tasks" = None)
  /\ (exists s',
         for_each tasks summarize_task s = Ok (tt, s')
         /\ (forall k, k <> "tasks" -> top_entry s' k = top_entry s k)
         /\ forall name,
             (task_counters s' name <> None <-> tally tasks name "cnt" <> 0)
             /\ forall c, task_count s' name c = Z.of_nat (tally tasks name c))
  /\ tally tasks "f" "cnt" = 2 /\ tally tasks "f" "finished_cnt" = 1.
Proof.
  intros tasks s.
  assert (H1 : Forall (fun task => countable_task task = true) tasks)
    by (repeat constructor).
  assert (H2 : top_entry s "tasks" = None) by reflexivity.
  split; [exact (conj H1 H2)|]. split; [|split; reflexivity].
  exact (@summary_tasks_rollup tasks s H1 (ex_intro _ _ (ex_intro _ _ eq_refl)) H2).
Defined.

(** ** The loop over the workers *)

Lemma at_key_absent {A : Type} k (m : M A) items a child' :
  vlookup (VStr k) items = None -> m (SDict NoFactory []) = Ok (a, child') ->
  at_key (VStr k) m (SDict DictFactory items)
  = Ok (a, SDict DictFactory (vset (VStr k) child' items)).
Proof.
  intros H1 H2. unfold at_key. simpl. rewrite H1. simpl. rewrite H2.
  now rewrite vset_vset_str.
Qed.

Lemma summarize_worker_step_on (P : string -> Prop) worker s :
  countable_worker worker = true ->
  (forall node_id, live_on node_id worker = true -> P node_id) ->
  worker_store_on P s ->
  exists s',
    StateAPIManager.summarize_worker worker s = Ok (tt, s')
    /\ worker_store_on P s'
    /\ forall node_id,
        if live_on node_id worker
        then node_field s' node_id "num_workers"
             = Some (SInt (worker_count s node_id + 1))
             /\ forall k, k <> "num_workers" ->
                          node_field s' node_id k = node_field s node_id k
        else top_entry s' node_id = top_entry s node_id.
Proof.
  intros Hc HP (items & -> & Hinv). unfold countable_worker in Hc.
  destruct (lookup "worker_address" worker) as [[| | | |address]|] eqn:Ha;
    try discriminate.
  destruct (lookup "is_alive" worker) as [alive|] eqn:Hl; [|discriminate].
  destruct (lookup "raylet_id" address) as [[| | |n|]|] eqn:Hn; try discriminate.
  clear Hc.
  assert (Hlive : forall node_id,
             live_on node_id worker = truthy alive && String.eqb n node_id).
  { intros node_id. unfold live_on, field. rewrite Ha, Hl, Hn. reflexivity. }
  unfold StateAPIManager.summarize_worker.
  run (@lift_getitem _ _ _ (SDict DictFactory items) Ha).
  assert (Hid : lift (getitem_value (VDict address) "raylet_id") (SDict DictFactory items)
                = Ok (VStr n, SDict DictFactory items))
    by (unfold lift, getitem_value, getitem; now rewrite Hn).
  run Hid. run (@lift_getitem _ _ _ (SDict DictFactory items) Hl).
  destruct (truthy alive) eqn:Et; cbn [when].
  - assert (HPn : P n) by (apply HP; rewrite Hlive; apply String.eqb_refl).
    assert (Hrun : exists f0 entries0 z0,
               (forall k, vlookup (VStr k) entries0
                          = node_field (SDict DictFactory items) n k)
               /\ worker_count (SDict DictFactory items) n = z0
               /\ (present <- at_key (VStr n) (contains (VStr "num_workers")) ;;
                   when (negb present)
                     (at_key (VStr n) (setitem (VStr "num_workers") (SInt 0))) ;;;
                   at_key (VStr n) (incr (VStr "num_workers")))%store
                    (SDict DictFactory items)
                  = Ok (tt, SDict DictFactory
                              (vset (VStr n)
                                 (SDict f0 (vset (VStr "num_workers") (SInt (z0 + 1))
                                              entries0))
                                 items))).
    { assert (Hfresh : forall f0 entries0 items1,
                 vlookup (VStr n) items1 = Some (SDict f0 entries0) ->
                 vlookup (VStr "num_workers") entries0 = None ->
                 (when (negb false)
                    (at_key (VStr n) (setitem (VStr "num_workers") (SInt 0))) ;;;
                  at_key (VStr n) (incr (VStr "num_workers")))%store
                   (SDict DictFactory items1)
                 = Ok (tt, SDict DictFactory
                             (vset (VStr n)
                                (SDict f0 (vset (VStr "num_workers") (SInt (0 + 1))
                                             entries0))
                                items1))).
      { intros f0 entries0 items1 He Hnw. cbn [negb when].
        run (@at_key_present _ n _ DictFactory _ _ _ _ He
               (setitem_run "num_workers" (SInt 0) f0 entries0)).
        assert (He' : vlookup (VStr n)
                        (vset (VStr n)
                           (SDict f0 (vset (VStr "num_workers") (SInt 0) entries0))
                           items1)
                      = Some (SDict f0 (vset (VStr "num_workers") (SInt 0) entries0)))
          by now rewrite vlookup_vset_str, String.eqb_refl.
        assert (Hz : vlookup (VStr "num_workers")
                       (vset (VStr "num_workers") (SInt 0) entries0)
                     = Some (SInt 0))
          by now rewrite vlookup_vset_str, String.eqb_refl.
        rewrite (@at_key_present _ n _ DictFactory _ _ _ _ He'
                   (@incr_present f0 "num_workers" 0 _ Hz)).
        now rewrite !vset_vset_str. }
      destruct (vlookup (VStr n) items) as [e|] eqn:He.
      - destruct (Hinv _ _ HPn He) as (f0 & entries0 & -> & Hnum).
        assert (Hfield : forall k, vlookup (VStr k) entries0
                                   = node_field (SDict DictFactory items) n k)
          by (intros k; unfold node_field; simpl; now rewrite He).
        destruct (vlookup (VStr "num_workers") entries0) as [v|] eqn:Hnw.
        + destruct (Hnum v eq_refl) as [z ->].
          exists f0, entries0, z. split; [assumption|]. split.
          * unfold worker_count. now rewrite <- Hfield, Hnw.
          * run (@at_key_present _ n _ DictFactory _ _ _ _ He
                   (contains_run "num_workers" f0 entries0)).
            rewrite Hnw, (@vset_same_str _ _ _ _ He). cbn [negb when].
            run (ret_run tt (SDict DictFactory items)).
            exact (@at_key_present _ n _ DictFactory _ _ _ _ He
                     (@incr_present f0 "num_workers" z _ Hnw)).
        + exists f0, entries0, 0%Z. split; [assumption|]. split.
          * unfold worker_count. now rewrite <- Hfield, Hnw.
          * run (@at_key_present _ n _ DictFactory _ _ _ _ He
                   (contains_run "num_workers" f0 entries0)).
            rewrite Hnw, (@vset_same_str _ _ _ _ He).
            exact (Hfresh f0 entries0 items He Hnw).
      - exists NoFactory, [], 0%Z. split; [|split].
        + intros k. unfold node_field. simpl. now rewrite He.
        + unfold worker_count, node_field. simpl. now rewrite He.
        + run (@at_key_absent _ n _ items _ _ He (contains_run "num_workers" NoFactory [])).
          cbn [vlookup].
          rewrite (Hfresh NoFactory [] (vset (VStr n) (SDict NoFactory []) items));
            [|now rewrite vlookup_vset_str, String.eqb_refl|reflexivity].
          now rewrite !vset_vset_str. }
    destruct Hrun as (f0 & entries0 & z0 & Hfield & Hz0 & ->).
    eexists. split; [reflexivity|]. split.
    + eexists. split; [reflexivity|]. intros node_id e Hp. rewrite vlookup_vset_str.
      destruct (String.eqb n node_id); [|now apply Hinv].
      intros [= <-]. do 2 eexists. split; [reflexivity|].
      intros v. rewrite vlookup_vset_str, String.eqb_refl. intros [= <-]. eauto.
    + intros node_id. rewrite Hlive. cbn [andb].
      destruct (String.eqb_spec n node_id) as [<-|Hne].
      * unfold node_field at 1. cbn [top_entry].
        rewrite vlookup_vset_str, String.eqb_refl. cbn [top_entry].
        rewrite vlookup_vset_str, String.eqb_refl. split; [now rewrite Hz0|].
        intros k Hk. unfold node_field at 1. cbn [top_entry].
        rewrite vlookup_vset_str, String.eqb_refl. cbn [top_entry].
        rewrite vlookup_vset_str.
        rewrite (proj2 (String.eqb_neq "num_workers" k)) by congruence.
        apply Hfield.
      * cbn [top_entry]. rewrite vlookup_vset_str.
        now rewrite (proj2 (String.eqb_neq n node_id)) by assumption.
  - exists (SDict DictFactory items). split; [reflexivity|].
    split; [exists items; auto|]. intros node_id. now rewrite Hlive.
Qed.

Lemma worker_store_everywhere s : worker_store s <-> worker_store_on (fun _ => True) s.
Proof.
  split; intros (items & -> & H); exists items; (split; [reflexivity|]).
  - intros node_id e _. apply H.
  - intros node_id e. now apply H.
Qed.

Lemma summarize_worker_step worker s :
  countable_worker worker = true -> worker_store s ->
  exists s',
    StateAPIManager.summarize_worker worker s = Ok (tt, s')
    /\ worker_store s'
    /\ forall node_id,
        if live_on node_id worker
        then node_field s' node_id "num_workers"
             = Some (SInt (worker_count s node_id + 1))
             /\ forall k, k <> "num_workers" ->
                          node_field s' node_id k = node_field s node_id k
        else top_entry s' node_id = top_entry s node_id.
Proof.
  intros Hc Hs. apply worker_store_everywhere in Hs.
  destruct (@summarize_worker_step_on (fun _ => True) worker s Hc (fun _ _ => I) Hs)
    as (s' & H1 & H2 & H3).
  exists s'. split; [assumption|]. split; [|assumption].
  now apply worker_store_everywhere.
Qed.

(** X11.  The loop of [summary] over the workers (lines 483-489), run on a
    mapping whose entries are dictionaries and on workers it can read (an
    address that names a raylet by a string, and [is_alive]), completes and
    counts the live workers of every node: a node with live workers has
    under [num_workers] what it had there (0 when it had nothing) plus the
    number of its live workers, and its other fields are as they were; the
    entry of a node without live workers is left as it was, so it gets no
    [num_workers] at all. *)
Theorem summary_counts_live_workers (workers : list record) (s : sval) :
  Forall (fun worker => countable_worker worker = true) workers -> worker_store s ->
  exists s',
    for_each workers StateAPIManager.summarize_worker s = Ok (tt, s')
    /\ worker_store s'
    /\ forall node_id,
        match List.filter (live_on node_id) workers with
        | [] => top_entry s' node_id = top_entry s node_id
        | live =>
            node_field s' node_id "num_workers"
            = Some (SInt (worker_count s node_id + Z.of_nat (List.length live)))
            /\ forall k, k <> "num_workers" ->
                         node_field s' node_id k = node_field s node_id k
        end.
Proof.
  intros H. revert s. induction H as [|worker workers Hw _ IH]; intros s Hs.
  - exists s. split; [reflexivity|]. split; [assumption|]. reflexivity.
  - destruct (@summarize_worker_step worker s Hw Hs) as (s1 & H1 & Hs1 & Hp1).
    destruct (IH s1 Hs1) as (s' & H2 & Hs' & Hp2).
    exists s'. split; [|split; [assumption|]].
    + simpl. now rewrite (@bindM_run _ _ _ _ _ _ _ H1).
    + intros node_id. specialize (Hp1 node_id). specialize (Hp2 node_id).
      cbn [List.filter]. destruct (live_on node_id worker).
      * destruct Hp1 as [Hn1 Hk1].
        assert (Hc1 : worker_count s1 node_id = (worker_count s node_id + 1)%Z)
          by (unfold worker_count; now rewrite Hn1).
        destruct (List.filter (live_on node_id) workers) as [|w live].
        -- split.
           ++ unfold node_field. rewrite Hp2. exact Hn1.
           ++ intros k Hk. unfold node_field. rewrite Hp2. now apply Hk1.
        -- destruct Hp2 as [Hn2 Hk2]. split.
           ++ rewrite Hn2, Hc1. do 2 f_equal.
              change (List.length (worker :: w :: live))
                with (S (List.length (w :: live))). lia.
           ++ intros k Hk. rewrite Hk2 by assumption. now apply Hk1.
      * destruct (List.filter (live_on node_id) workers) as [|w live].
        -- now rewrite Hp2.
        -- destruct Hp2 as [Hn2 Hk2].
           assert (Hc1 : worker_count s1 node_id = worker_count s node_id)
             by (unfold worker_count, node_field; now rewrite Hp1).
           split; [now rewrite Hn2, Hc1|].
           intros k Hk. rewrite Hk2 by assumption. unfold node_field. now rewrite Hp1.
Qed.

(** Three workers, two of them alive on n1 and one dead on n2, counted
    into a mapping that has an entry for n1 and for n2. *)
Lemma summary_counts_live_workers_witness :
  let worker (worker_id node_id : string) (alive : bool) : record :=
    [("worker_id", VStr worker_id); ("is_alive", VBool alive);
     ("worker_address", VDict [("raylet_id", VStr node_id)])] in
  let workers := [worker "w1" "n1" true; worker "w2" "n2" false;
                  worker "w3" "n1" true] in
  let s := SDict DictFactory [(VStr "n1", SDict NoFactory [(VStr "cpu", SStr "12%")]);
                              (VStr "n2", SDict NoFactory [(VStr "cpu", SStr "7%")])] in
  (Forall (fun worker => countable_worker worker = true) workers /\ worker_store s)
  /\ (exists s',
         for_each workers summarize_worker s = Ok (tt, s')
         /\ worker_store s'
         /\ forall node_id,
             match List.filter (live_on node_id) workers with
             | [] => top_entry s' node_id = top_entry s node_id
             | live =>
                 node_field s' node_id "num_workers"
                 = Some (SInt (worker_count s node_id + Z.of_nat (List.length live)))
                 /\ forall k, k <> "num_workers" ->
                              node_field s' node_id k = node_field s node_id k
             end)
  /\ List.length (List.filter (live_on "n1") workers) = 2
  /\ List.filter (live_on "n2") workers = [].
Proof.
  intros worker workers s.
  assert (H1 : Forall (fun worker => countable_worker worker = true) workers)
    by (repeat constructor).
  assert (H2 : worker_store s).
  { eexists. split; [reflexivity|]. intros node_id e. cbn -[String.eqb].
    destruct (String.eqb "n1" node_id).
    - intros [= <-]. do 2 eexists. split; [reflexivity|]. discriminate.
    - destruct (String.eqb "n2" node_id); [|discriminate].
      intros [= <-]. do 2 eexists. split; [reflexivity|]. discriminate. }
  split; [exact (conj H1 H2)|]. split; [|split; reflexivity].
  exact (@summary_counts_live_workers workers s H1 H2).
Defined.

(** ** The summary without the coordination service *)

Section SummaryFailure.

Variable message : Type.
Variable message_to_dict : message -> list string -> bool -> bool -> result record.
Variables ActorState WorkerState TaskState : list string.
Variable JobInfo : Type.
Variable client : StateDataSourceClient message JobInfo.
Variable format_value : value -> string.
Variable format_quotient : Z -> Z -> string.
Variable format_percent : Z -> Z -> string.
Variable get_all_node_summary : result (list NodeSummary).

Local Abbreviation summary :=
  (StateAPIManager.summary message_to_dict ActorState WorkerState TaskState client
     format_value format_quotient format_percent get_all_node_summary).
Local Abbreviation op := {| limit := 1000; timeout := 30; filter := "" |}.

Lemma lift_data_values_none (r : StateApiResult (list (value * record))) s :
  data r = None -> lift (data_values r) s = Err AttributeError.
Proof. intros H. unfold lift, data_values. now rewrite H. Qed.

(** X12.  [summary] cannot do without the coordination service: when the
    request for the actors or the request for the workers got no reply,
    the list operation reports it as a warning with [data = None], and
    [summary] calls [.values()] on that: it never returns a summary.  When
    it is the actors that are missing, the other two list operations have
    returned and the node summaries are readable with non-zero object-store
    totals, what it raises is [AttributeError]. *)
Theorem summary_needs_coordination_service :
  get_all_actor_info client 30 = Ok None \/ get_all_worker_info client 30 = Ok None ->
  (forall out, summary <> Ok out)
  /\ (get_all_actor_info client 30 = Ok None ->
      forall nodes tasks workers,
        list_tasks message_to_dict TaskState client op = Ok tasks ->
        list_workers message_to_dict WorkerState client op = Ok workers ->
        get_all_node_summary = Ok nodes ->
        Forall (fun n => readable_node n = true) nodes ->
        Forall (fun n => object_store_total n <> Some 0%Z) nodes ->
        summary = Err AttributeError).
Proof.
  intros Hgcs. split.
  - intros out H. unfold StateAPIManager.summary, gather in H. cbv zeta in H.
    simpl mapM in H.
    destruct (list_actors message_to_dict ActorState client op) as [actors|] eqn:Ha;
      cbn [bind] in H; [|discriminate].
    destruct (list_tasks message_to_dict TaskState client op) as [tasks|] eqn:Ht;
      cbn [bind] in H; [|discriminate].
    destruct (list_workers message_to_dict WorkerState client op) as [workers|] eqn:Hw;
      cbn [bind] in H; [|discriminate].
    destruct get_all_node_summary as [nodes|]; cbn [bind] in H; [|discriminate].
    match type of H with
    | bind (?m ?s0) _ = _ => destruct (m s0) as [[[] s']|] eqn:E
    end; [|discriminate].
    apply bindM_ok in E as ([] & s1 & _ & E).
    apply bindM_ok in E as (actor_values & s2 & E2 & E).
    destruct Hgcs as [Hgcs|Hgcs].
    + unfold StateAPIManager.list_actors in Ha. cbn [timeout] in Ha.
      rewrite Hgcs in Ha. cbn [bind] in Ha. injection Ha as <-.
      now rewrite lift_data_values_none in E2.
    + apply bindM_ok in E as ([] & s3 & _ & E).
      apply bindM_ok in E as (task_values & s4 & _ & E).
      apply bindM_ok in E as ([] & s5 & _ & E).
      apply bindM_ok in E as (worker_values & s6 & E6 & _).
      unfold StateAPIManager.list_workers in Hw. cbn [timeout] in Hw.
      rewrite Hgcs in Hw. cbn [bind] in Hw. injection Hw as <-.
      now rewrite lift_data_values_none in E6.
  - intros Ha nodes tasks workers Ht Hw Hn Hr Hz.
    unfold StateAPIManager.summary, gather. cbv zeta. simpl mapM.
    unfold StateAPIManager.list_actors at 1. cbn [timeout]. rewrite Ha. cbn [bind].
    rewrite Ht, Hw. cbn [bind]. rewrite Hn. cbn [bind].
    destruct (@for_each_nodes_completes format_value format_quotient format_percent
                nodes _ Hr Hz node_store_empty) as [s' [E _]].
    rewrite (@bindM_run _ _ _ _ _ _ _ E).
    unfold bindM at 1. now rewrite lift_data_values_none.
Qed.

End SummaryFailure.

(** A coordination service that answers nothing, and one readable node. *)
Lemma summary_needs_coordination_service_witness :
  let n1 := fixture_node "n1" [("object_store_used_memory", VInt 5);
                               ("object_store_available_memory", VInt 95)] in
  let client := fixture_client (Ok None) [] [] in
  let op := {| limit := 1000; timeout := 30; filter := "" |} in
  (get_all_actor_info client 30 = Ok None \/ get_all_worker_info client 30 = Ok None)
  /\ (forall out,
         summary decode_identity fixture_fields fixture_fields fixture_fields client
           fixture_format_value fixture_format_ratio fixture_format_ratio (Ok [n1])
         <> Ok out)
  /\ summary decode_identity fixture_fields fixture_fields fixture_fields client
       fixture_format_value fixture_format_ratio fixture_format_ratio (Ok [n1])
     = Err AttributeError.
Proof.
  intros n1 client op.
  assert (H1 : get_all_actor_info client 30 = Ok None) by reflexivity.
  assert (H2 : Forall (fun n => readable_node n = true) [n1]) by (repeat constructor).
  assert (H3 : Forall (fun n => object_store_total n <> Some 0%Z) [n1])
    by (repeat constructor; discriminate).
  pose proof (@summary_needs_coordination_service _ decode_identity fixture_fields
                fixture_fields fixture_fields _ client fixture_format_value
                fixture_format_ratio fixture_format_ratio (Ok [n1]) (or_introl H1))
    as [Hnever Hraises].
  split; [exact (or_introl H1)|]. split; [exact Hnever|].
  exact (Hraises H1 [n1] _ _ eq_refl eq_refl eq_refl H2 H3).
Defined.

(* ================================================================== *)
(** * Records that share an identifier *)
(* ================================================================== *)

Lemma key_eqb_str_l a k : key_eqb (VStr a) k = true -> k = VStr a.
Proof.
  destruct k as [| [|] | z | s | items]; simpl; try discriminate.
  rewrite String.eqb_eq. congruence.
Qed.

(** Reading a string key after a write under any key. *)
Lemma vlookup_vset_any {V : Type} a k (v : V) items :
  vlookup (VStr a) (vset k v items)
  = if key_eqb k (VStr a) then Some v else vlookup (VStr a) items.
Proof.
  destruct (key_eqb k (VStr a)) eqn:E.
  - apply key_eqb_str in E. subst k. rewrite vlookup_vset_str.
    now rewrite String.eqb_refl.
  - induction items as [|[k1 v1] items IH]; simpl.
    + now rewrite E.
    + destruct (key_eqb k1 k) eqn:E1; simpl.
      * destruct (key_eqb k1 (VStr a)) eqn:E2; [|reflexivity].
        apply key_eqb_str in E2. subst k1. apply key_eqb_str_l in E1. subst k.
        simpl in E. now rewrite String.eqb_refl in E.
      * now rewrite IH.
Qed.

Lemma dict_of_from_last key entries acc out a :
  dict_of_from key entries acc = Ok out ->
  vlookup (VStr a) out
  = match last_with key (VStr a) entries with
    | Some d => Some d
    | None => vlookup (VStr a) acc
    end.
Proof.
  revert acc. induction entries as [|d entries IH]; intros acc; simpl.
  - now intros [= <-].
  - unfold getitem. destruct (lookup key d) as [k|]; simpl; [|discriminate].
    destruct (hashable k); [|discriminate].
    intros H. rewrite (IH _ H).
    destruct (last_with key (VStr a) entries); [reflexivity|].
    rewrite vlookup_vset_any. now destruct (key_eqb k (VStr a)).
Qed.

Lemma dict_of_from_str key entries acc :
  Forall (has_str_id key) entries -> exists out, dict_of_from key entries acc = Ok out.
Proof.
  intros H. revert acc. induction H as [|d entries Hd _ IH]; intros acc; simpl.
  - eauto.
  - rewrite (has_str_id_getitem Hd). simpl. apply IH.
Qed.

(** The insertion of a string key is stable. *)
Lemma insert_sorted_stable_str {A : Type} s (x : A) l l' w :
  str_keyed l -> insert_sorted (VStr s) x l = Ok l' ->
  List.filter (fun q => String.eqb (key_text (fst q)) w) l'
  = List.filter (fun q => String.eqb (key_text (fst q)) w) ((VStr s, x) :: l).
Proof.
  intros Hl. revert l'. induction Hl as [|[k' y] l [s' Hk'] Hl IH]; intros l'.
  - simpl. now intros [= <-].
  - simpl in Hk'. subst k'. cbn [insert_sorted py_lt bind].
    destruct (String.ltb s' s) eqn:L.
    + destruct (insert_sorted (VStr s) x l) as [r|] eqn:R; cbn [bind]; [|discriminate].
      intros [= <-]. cbn [List.filter fst key_text]. rewrite (IH r eq_refl).
      cbn [List.filter fst key_text].
      destruct (String.eqb_spec s' w) as [->|], (String.eqb_spec s w) as [->|];
        try reflexivity.
      apply ltb_asym in L as L'. congruence.
    + now intros [= <-].
Qed.

Lemma sort_keyed_stable_str {A : Type} (l l' : list (value * A)) w :
  str_keyed l -> sort_keyed l = Ok l' ->
  List.filter (fun q => String.eqb (key_text (fst q)) w) l'
  = List.filter (fun q => String.eqb (key_text (fst q)) w) l.
Proof.
  intros Hl. revert l'. induction Hl as [|[k x] l [s Hk] Hl IH]; intros l'; simpl.
  - now intros [= <-].
  - simpl in Hk. subst k.
    destruct (sort_keyed l) as [r|] eqn:R; simpl; [|discriminate].
    intros H.
    assert (Hr : str_keyed r)
      by (apply (Permutation_Forall (Permutation_sym (sort_keyed_perm _ R))); exact Hl).
    rewrite (@insert_sorted_stable_str _ s x r l' w Hr H).
    cbn [List.filter fst key_text]. now rewrite (IH r eq_refl).
Qed.

(** Sorting by a string identifier keeps the records with the same
    identifier in the order they had. *)
Lemma sort_by_stable key entries sorted id :
  Forall (has_str_id key) entries -> sort_by key entries = Ok sorted ->
  with_id key id sorted = with_id key id entries.
Proof.
  intros H. unfold sort_by. rewrite sort_by_keys.
  rewrite (mapM_total _ (fun d => VStr (id_text key d))).
  - cbn [bind].
    set (pairs := combine (map (fun d => VStr (id_text key d)) entries) entries).
    assert (Hpairs : Forall (fun p => fst p = VStr (id_text key (snd p))) pairs).
    { subst pairs. clear H. induction entries as [|d entries IH]; simpl; constructor;
        [reflexivity|assumption]. }
    assert (Hsnd : map snd pairs = entries).
    { subst pairs. apply map_snd_combine. now rewrite length_map. }
    assert (Hstr : str_keyed pairs).
    { apply (Forall_impl _ (P := fun p => fst p = VStr (id_text key (snd p))));
        [|exact Hpairs]. intros p ->. eauto. }
    destruct (sort_keyed pairs) as [sk|] eqn:S; cbn [bind]; [|discriminate].
    intros [= <-].
    assert (Hsk : Forall (fun p => fst p = VStr (id_text key (snd p))) sk)
      by (apply (Permutation_Forall (Permutation_sym (sort_keyed_perm _ S)));
          exact Hpairs).
    unfold with_id.
    rewrite <- (@filter_map_snd _ _ (fun q => String.eqb (key_text (fst q)) id)).
    + rewrite (@sort_keyed_stable_str _ pairs sk id Hstr S).
      rewrite (@filter_map_snd _ _ _ (fun d => String.eqb (id_text key d) id) pairs);
        [now rewrite Hsnd|].
      apply (Forall_impl _ (P := fun p => fst p = VStr (id_text key (snd p))));
        [|exact Hpairs]. now intros p ->.
    + apply (Forall_impl _ (P := fun p => fst p = VStr (id_text key (snd p))));
        [|exact Hsk]. now intros p ->.
  - intros d Hd. rewrite Forall_forall in H. now apply has_str_id_getitem, H.
Qed.

Lemma keyed_page_keeps_last key opt warnings0 records :
  keeps_last key opt records warnings0 (keyed_page key opt warnings0 records).
Proof.
  intros filtered Hf Hstr.
  destruct (sort_by_str Hstr) as [sorted Hs].
  pose proof (sort_by_perm _ _ Hs) as P.
  assert (Hpage : Forall (has_str_id key) (firstn (limit opt) sorted)).
  { rewrite Forall_forall. intros d Hd. apply In_firstn in Hd.
    apply (Permutation_in _ P) in Hd. rewrite Forall_forall in Hstr. now apply Hstr. }
  destruct (@dict_of_from_str key _ [] Hpage) as [entries He].
  exists sorted, entries. split; [assumption|]. split; [|split; [|split]].
  - eapply sort_by_ascending; [exact Hstr|exact Hs].
  - intros id. exact (@sort_by_stable key filtered sorted id Hstr Hs).
  - unfold keyed_page, dict_of, islice. rewrite Hf. cbn [bind]. rewrite Hs. cbn [bind].
    now rewrite He.
  - intros id. rewrite (@dict_of_from_last key _ [] entries id He).
    now destruct (last_with key (VStr id) (firstn (limit opt) sorted)).
Qed.

Section SharedIdentifiers.

Variable message : Type.
Variable message_to_dict : message -> list string -> bool -> bool -> result record.
Variables ActorState PlacementGroupState NodeState WorkerState
          TaskState ObjectState : list string.
Variable construct_memory_table : list record -> result (list record).
Variable JobInfo : Type.
Variable client : StateDataSourceClient message JobInfo.

Local Abbreviation actor_data := (StateAPIManager.actor_data message_to_dict ActorState).
Local Abbreviation placement_group_data :=
  (StateAPIManager.placement_group_data message_to_dict PlacementGroupState).
Local Abbreviation node_data := (StateAPIManager.node_data message_to_dict NodeState).
Local Abbreviation worker_data := (StateAPIManager.worker_data message_to_dict WorkerState).
Local Abbreviation task_reply_data :=
  (StateAPIManager.task_reply_data message_to_dict TaskState).
Local Abbreviation object_reply_data := (StateAPIManager.object_reply_data message_to_dict).
Local Abbreviation object_data := (StateAPIManager.object_data ObjectState).
Local Abbreviation list_actors := (StateAPIManager.list_actors message_to_dict ActorState client).
Local Abbreviation list_placement_groups :=
  (StateAPIManager.list_placement_groups message_to_dict PlacementGroupState client).
Local Abbreviation list_nodes := (StateAPIManager.list_nodes message_to_dict NodeState client).
Local Abbreviation list_workers :=
  (StateAPIManager.list_workers message_to_dict WorkerState client).
Local Abbreviation list_tasks := (StateAPIManager.list_tasks message_to_dict TaskState client).
Local Abbreviation list_objects :=
  (StateAPIManager.list_objects message_to_dict ObjectState construct_memory_table client).
Local Abbreviation raylet_warnings replies :=
  (expected_warnings RAYLET_QUERY_FAILURE_WARNING
     (List.length (get_all_registered_raylet_ids client)) (failures replies)).

(** X13.  Records that share an identifier are merged, and the last one
    wins.  For each of the six keyed list operations, when the records
    that pass the filter have string identifiers (distinct or not), the
    operation returns: the filtered records are sorted by identifier, the
    records with the same identifier staying in the order in which they
    were fetched, and looking an identifier up in the returned mapping
    gives the last of the first [limit] sorted records that carries it, and
    nothing when none does. *)
Theorem shared_identifier_keeps_last (opt : ListApiOptions) :
  (forall reply records,
      get_all_actor_info client (timeout opt) = Ok (Some reply) ->
      mapM actor_data (actor_table_data reply) = Ok records ->
      keeps_last "actor_id" opt records None (list_actors opt))
  /\ (forall reply records,
      get_all_placement_group_info client (timeout opt) = Ok (Some reply) ->
      mapM placement_group_data (placement_group_table_data reply) = Ok records ->
      keeps_last "placement_group_id" opt records None (list_placement_groups opt))
  /\ (forall reply records,
      get_all_node_info client (timeout opt) = Ok (Some reply) ->
      mapM node_data (node_info_list reply) = Ok records ->
      keeps_last "node_id" opt records None (list_nodes opt))
  /\ (forall reply records,
      get_all_worker_info client (timeout opt) = Ok (Some reply) ->
      mapM worker_data (worker_table_data reply) = Ok records ->
      keeps_last "worker_id" opt records None (list_workers opt))
  /\ (forall replies records,
      gather (map (fun node_id => get_task_info client node_id (timeout opt))
                  (get_all_registered_raylet_ids client)) = Ok replies ->
      fetched task_reply_data replies = Ok records ->
      keeps_last "task_id" opt records (raylet_warnings replies) (list_tasks opt))
  /\ (forall replies worker_stats memory_table records,
      gather (map (fun node_id => get_object_info client node_id (timeout opt))
                  (get_all_registered_raylet_ids client)) = Ok replies ->
      fetched object_reply_data replies = Ok worker_stats ->
      construct_memory_table worker_stats = Ok memory_table ->
      mapM object_data memory_table = Ok records ->
      keeps_last "object_id" opt records (raylet_warnings replies) (list_objects opt)).
Proof.
  repeat split.
  - intros reply records H1 H2.
    rewrite (list_actors_fetched message_to_dict ActorState client opt H1 H2).
    apply keyed_page_keeps_last.
  - intros reply records H1 H2.
    rewrite (list_placement_groups_fetched message_to_dict PlacementGroupState
               client opt H1 H2).
    apply keyed_page_keeps_last.
  - intros reply records H1 H2.
    rewrite (list_nodes_fetched message_to_dict NodeState client opt H1 H2).
    apply keyed_page_keeps_last.
  - intros reply records H1 H2.
    rewrite (list_workers_fetched message_to_dict WorkerState client opt H1 H2).
    apply keyed_page_keeps_last.
  - intros replies records H1 H2.
    rewrite (list_tasks_fetched message_to_dict TaskState client opt H1), H2.
    cbn [bind]. apply keyed_page_keeps_last.
  - intros replies stats table records H1 H2 H3 H4.
    rewrite (list_objects_fetched message_to_dict ObjectState construct_memory_table
               client opt H1), H2.
    cbn [bind]. rewrite H3. cbn [bind]. rewrite H4. cbn [bind].
    apply keyed_page_keeps_last.
Qed.

End SharedIdentifiers.

(** Three actors, the first and the last with the identifier a1: the
    mapping holds the last one under a1. *)
Lemma shared_identifier_keeps_last_witness :
  let old := fixture_actor "a1" "Foo" "DEAD" in
  let a0 := fixture_actor "a0" "Bar" "ALIVE" in
  let new := fixture_actor "a1" "Foo" "ALIVE" in
  let client := fixture_client (Ok (Some [old; a0; new])) [] [] in
  let opt := fixture_option 10 "" in
  (get_all_actor_info client (timeout opt)
     = Ok (Some {| actor_table_data := [old; a0; new] |})
   /\ mapM (actor_data decode_identity fixture_fields) [old; a0; new]
      = Ok [old; a0; new]
   /\ _filter (filter opt) [old; a0; new] = Ok [old; a0; new]
   /\ Forall (has_str_id "actor_id") [old; a0; new])
  /\ (exists sorted entries,
         sort_by "actor_id" [old; a0; new] = Ok sorted
         /\ ascending "actor_id" sorted
         /\ (forall id, with_id "actor_id" id sorted
                        = with_id "actor_id" id [old; a0; new])
         /\ list_actors decode_identity fixture_fields client opt
            = Ok {| data := Some entries; warnings := None |}
         /\ forall id,
             vlookup (VStr id) entries
             = last_with "actor_id" (VStr id) (firstn (limit opt) sorted))
  /\ list_actors decode_identity fixture_fields client opt
     = Ok {| data := Some [(VStr "a0", a0); (VStr "a1", new)]; warnings := None |}.
Proof.
  intros old a0 new client opt.
  assert (H1 : get_all_actor_info client (timeout opt)
               = Ok (Some {| actor_table_data := [old; a0; new] |})) by reflexivity.
  assert (H2 : mapM (actor_data decode_identity fixture_fields) [old; a0; new]
               = Ok [old; a0; new]) by reflexivity.
  assert (H3 : _filter (filter opt) [old; a0; new] = Ok [old; a0; new]) by reflexivity.
  assert (H4 : Forall (has_str_id "actor_id") [old; a0; new])
    by (repeat constructor; eexists; reflexivity).
  split; [exact (conj H1 (conj H2 (conj H3 H4)))|]. split; [|reflexivity].
  exact (proj1 (@shared_identifier_keeps_last _ decode_identity fixture_fields
                  fixture_fields fixture_fields fixture_fields fixture_fields
                  fixture_fields (fun stats => Ok stats) _ client opt)
               _ _ H1 H2 _ H3 H4).
Defined.

(* ================================================================== *)
(** * The figures of a node in the summary *)
(* ================================================================== *)

Lemma set_field_again items n entries k v :
  at_key (VStr n) (setitem (VStr k) v)
    (SDict DictFactory (vset (VStr n) (SDict NoFactory entries) items))
  = Ok (tt, SDict DictFactory
              (vset (VStr n) (SDict NoFactory (vset (VStr k) v entries)) items)).
Proof.
  rewrite (@at_key_present _ n _ DictFactory _ (SDict NoFactory entries) tt
             (SDict NoFactory (vset (VStr k) v entries)));
    [now rewrite vset_vset_str|now rewrite vlookup_vset_str, String.eqb_refl
    |reflexivity].
Qed.

Section NodeFigures.

Variable format_value : value -> string.
Variable format_quotient : Z -> Z -> string.
Variable format_percent : Z -> Z -> string.

Local Abbreviation summarize_node :=
  (StateAPIManager.summarize_node format_value format_quotient format_percent).

Lemma summarize_node_figures (node : NodeSummary) (s : sval)
    (node_id : string) (used total : Z) :
  lookup "nodeId" (raylet node) = Some (VStr node_id) ->
  as_int (get_default (raylet node) "object_store_used_memory" (VInt 0)) = Some used ->
  object_store_total node = Some total -> total <> 0%Z ->
  node_store s ->
  exists s',
    summarize_node node s = Ok (tt, s')
    /\ node_store s'
    /\ node_field s' node_id "cpu" = Some (SStr (format_value (cpu node) ++ "%"))
    /\ node_field s' node_id "disk_utilization"
       = Some (SStr (format_value (disk_root_percent node) ++ "%"))
    /\ node_field s' node_id "disk_read"
       = Some (SStr (format_quotient (fst (diskIoSpeed node)) 1026 ++ " MB"))
    /\ node_field s' node_id "disk_write"
       = Some (SStr (format_quotient (snd (diskIoSpeed node)) 1026 ++ " MB"))
    /\ node_field s' node_id "network_sent_speed"
       = Some (SStr (format_quotient (fst (networkSpeed node)) 1024 ++ " KB"))
    /\ node_field s' node_id "network_recv_speed"
       = Some (SStr (format_quotient (snd (networkSpeed node)) 1024 ++ " KB"))
    /\ node_field s' node_id "mem_utilization"
       = Some (SStr (format_value (mem_percent node) ++ "%"))
    /\ node_field s' node_id "object_store_utilization"
       = Some (SStr (format_percent used total ++ "%"))
    /\ (forall k,
           ~ In k ["cpu"; "disk_utilization"; "disk_read"; "disk_write";
                   "network_sent_speed"; "network_recv_speed"; "mem_utilization";
                   "object_store_utilization"] ->
           node_field s' node_id k = node_field s node_id k)
    /\ forall n, n <> node_id -> top_entry s' n = top_entry s n.
Proof.
  intros Hid Hused Htotal Hnz (items & -> & Hitems).
  assert (Hpercent : StateAPIManager.object_store_percent format_percent node
                     = Ok (format_percent used total)).
  { unfold object_store_total in Htotal. rewrite Hused in Htotal.
    unfold StateAPIManager.object_store_percent, getitem, as_number.
    destruct (lookup "object_store_available_memory" (raylet node)) as [v|];
      [|discriminate].
    cbn [bind]. rewrite Hused. cbn [bind].
    destruct (as_int v) as [available|]; [|discriminate]. cbn [bind].
    injection Htotal as <-. apply Z.eqb_neq in Hnz. now rewrite Hnz. }
  assert (Hfirst : exists entries0,
             (forall k, vlookup (VStr k) entries0
                        = node_field (SDict DictFactory items) node_id k)
             /\ forall k v,
                 at_key (VStr node_id) (setitem (VStr k) v) (SDict DictFactory items)
                 = Ok (tt, SDict DictFactory
                             (vset (VStr node_id)
                                (SDict NoFactory (vset (VStr k) v entries0)) items))).
  { destruct (vlookup (VStr node_id) items) as [e|] eqn:He.
    - destruct (vlookup_In _ _ He) as [k' Hin].
      destruct (proj1 (Forall_forall _ _) Hitems _ Hin) as [entries E].
      simpl in E. subst e. exists entries. split.
      + intros k. unfold node_field. simpl. now rewrite He.
      + intros k v.
        exact (@at_key_present _ node_id _ DictFactory _ _ _ _ He
                 (setitem_run k v NoFactory entries)).
    - exists []. split.
      + intros k. unfold node_field. simpl. now rewrite He.
      + intros k v.
        exact (@at_key_absent _ node_id _ items _ _ He (setitem_run k v NoFactory [])). }
  destruct Hfirst as (entries0 & Hfield & Hfirst).
  unfold StateAPIManager.summarize_node.
  run (@lift_getitem _ _ _ (SDict DictFactory items) Hid).
  run (Hfirst "cpu" (SStr (format_value (cpu node) ++ "%"))).
  do 6 (rewrite (@bindM_run _ _ _ _ _ _ _ (set_field_again _ _ _ _ _))).
  unfold bindM at 1, lift at 1. rewrite Hpercent.
  rewrite set_field_again.
  eexists. split; [reflexivity|]. split.
  { eexists. split; [reflexivity|].
    apply (Forall_vset (fun x : sval => exists entries, x = SDict NoFactory entries));
      [assumption|eauto]. }
  unfold node_field. cbn [top_entry]. rewrite vlookup_vset_str, String.eqb_refl.
  cbn [top_entry].
  repeat split;
    try (repeat (rewrite vlookup_vset_str; cbn [String.eqb Ascii.eqb Bool.eqb]);
         reflexivity).
  - intros k Hk. simpl in Hk.
    repeat (rewrite vlookup_vset_str;
            match goal with
            | |- context [String.eqb ?a k] =>
                rewrite (proj2 (String.eqb_neq a k)) by (intros E; tauto)
            end).
    apply Hfield.
  - intros n Hn. rewrite vlookup_vset_str.
    now rewrite (proj2 (String.eqb_neq node_id n)) by congruence.
Qed.

(** X14.  The body of the loop of [summary] over the nodes (lines
    397-424), for a node whose identifier is a string and whose
    object-store total is not zero: it completes and gives the entry of
    the node its eight figures; the other fields of the entry and the
    entries of the other nodes are as they were.  The disk figures are the
    speeds divided by 1026, the value of [1024 ^ 2] (an exclusive or, not a
    power), and labelled MB; the network figures are divided by 1024; the
    object-store figure is used / (used + available), with 0 for an absent
    used memory. *)
Theorem summary_node_figures (node : NodeSummary) (s : sval)
    (node_id : string) (used total : Z) :
  lookup "nodeId" (raylet node) = Some (VStr node_id) ->
  as_int (get_default (raylet node) "object_store_used_memory" (VInt 0)) = Some used ->
  object_store_total node = Some total -> total <> 0%Z ->
  node_store s ->
  exists s',
    summarize_node node s = Ok (tt, s')
    /\ node_store s'
    /\ node_field s' node_id "cpu" = Some (SStr (format_value (cpu node) ++ "%"))
    /\ node_field s' node_id "disk_utilization"
       = Some (SStr (format_value (disk_root_percent node) ++ "%"))
    /\ node_field s' node_id "disk_read"
       = Some (SStr (format_quotient (fst (diskIoSpeed node)) 1026 ++ " MB"))
    /\ node_field s' node_id "disk_write"
       = Some (SStr (format_quotient (snd (diskIoSpeed node)) 1026 ++ " MB"))
    /\ node_field s' node_id "network_sent_speed"
       = Some (SStr (format_quotient (fst (networkSpeed node)) 1024 ++ " KB"))
    /\ node_field s' node_id "network_recv_speed"
       = Some (SStr (format_quotient (snd (networkSpeed node)) 1024 ++ " KB"))
    /\ node_field s' node_id "mem_utilization"
       = Some (SStr (format_value (mem_percent node) ++ "%"))
    /\ node_field s' node_id "object_store_utilization"
       = Some (SStr (format_percent used total ++ "%"))
    /\ (forall k,
           ~ In k ["cpu"; "disk_utilization"; "disk_read"; "disk_write";
                   "network_sent_speed"; "network_recv_speed"; "mem_utilization";
                   "object_store_utilization"] ->
           node_field s' node_id k = node_field s node_id k)
    /\ forall n, n <> node_id -> top_entry s' n = top_entry s n.
Proof. apply summarize_node_figures. Qed.

End NodeFigures.

(** A node with 5 of 100 units of object store used, summarized into an
    empty mapping. *)
Lemma summary_node_figures_witness :
  let node := fixture_node "n1" [("object_store_used_memory", VInt 5);
                                 ("object_store_available_memory", VInt 95)] in
  let s := SDict DictFactory [] in
  (lookup "nodeId" (raylet node) = Some (VStr "n1")
   /\ as_int (get_default (raylet node) "object_store_used_memory" (VInt 0)) = Some 5%Z
   /\ object_store_total node = Some 100%Z
   /\ node_store s)
  /\ exists s',
      summarize_node fixture_format_value fixture_format_ratio fixture_format_ratio
        node s = Ok (tt, s')
      /\ node_field s' "n1" "disk_read" = Some (SStr "2052/1026 MB")
      /\ node_field s' "n1" "network_sent_speed" = Some (SStr "2048/1024 KB")
      /\ node_field s' "n1" "object_store_utilization" = Some (SStr "5/100%").
Proof.
  intros node s.
  assert (H1 : lookup "nodeId" (raylet node) = Some (VStr "n1")) by reflexivity.
  assert (H2 : as_int (get_default (raylet node) "object_store_used_memory" (VInt 0))
               = Some 5%Z) by reflexivity.
  assert (H3 : object_store_total node = Some 100%Z) by reflexivity.
  assert (H4 : (100 <> 0)%Z) by discriminate.
  split; [exact (conj H1 (conj H2 (conj H3 node_store_empty)))|].
  destruct (@summary_node_figures fixture_format_value fixture_format_ratio
              fixture_format_ratio node s "n1" 5%Z 100%Z H1 H2 H3 H4 node_store_empty)
    as (s' & Hrun & _ & _ & _ & Hread & _ & Hsent & _ & _ & Hstore & _).
  exists s'. exact (conj Hrun (conj Hread (conj Hsent Hstore))).
Defined.

(* ================================================================== *)
(** * The breakdown of the actors *)
(* ================================================================== *)

(** Two writes under different keys commute once the second key is in the
    dictionary. *)
Lemma vset_commute_str {V : Type} n a (y y' x : V) items :
  n <> a ->
  vset (VStr n) y' (vset (VStr a) x (vset (VStr n) y items))
  = vset (VStr a) x (vset (VStr n) y' items).
Proof.
  intros Hna.
  assert (Hf : String.eqb n a = false) by now apply String.eqb_neq.
  induction items as [|[k1 v1] items IH]; simpl.
  - rewrite Hf. simpl. now rewrite String.eqb_refl.
  - destruct (key_eqb k1 (VStr n)) eqn:E1; simpl.
    + apply key_eqb_str in E1. subst k1. simpl. rewrite Hf. simpl.
      now rewrite String.eqb_refl.
    + destruct (key_eqb k1 (VStr a)) eqn:E2; simpl; rewrite E1.
      * now rewrite vset_vset_str.
      * now rewrite IH.
Qed.

(** [d[c] += 1] on a [defaultdict(int)] in which [c] is absent or an
    integer. *)
Lemma incr_int c cs :
  (forall v, vlookup (VStr c) cs = Some v -> exists z, v = SInt z) ->
  incr (VStr c) (SDict IntFactory cs)
  = Ok (tt, SDict IntFactory
              (vset (VStr c) (SInt (counter_value (SDict IntFactory cs) c + 1)) cs)).
Proof.
  intros H. unfold incr, counter_value. simpl.
  destruct (vlookup (VStr c) cs) as [v|] eqn:L.
  - destruct (H _ eq_refl) as [z ->]. reflexivity.
  - simpl. now rewrite vset_vset_str.
Qed.

(** A statement run on the breakdown of a node and a statement run on the
    cluster-wide breakdown, when both entries are there. *)
Lemma node_run {A : Type} (m : M A) n f entries d a d' x items :
  n <> "actors" ->
  m d = Ok (a, d') ->
  at_key (VStr n) (at_key (VStr "actors") m)
    (SDict DictFactory
       (vset (VStr "actors") x
          (vset (VStr n) (SDict f (vset (VStr "actors") d entries)) items)))
  = Ok (a, SDict DictFactory
             (vset (VStr "actors") x
                (vset (VStr n) (SDict f (vset (VStr "actors") d' entries)) items))).
Proof.
  intros Hn Hm.
  rewrite (@at_key_present _ n _ DictFactory _
             (SDict f (vset (VStr "actors") d entries)) a
             (SDict f (vset (VStr "actors") d' entries))).
  - now rewrite vset_commute_str.
  - rewrite vlookup_vset_str.
    rewrite (proj2 (String.eqb_neq "actors" n)) by congruence.
    now rewrite vlookup_vset_str, String.eqb_refl.
  - rewrite (@at_key_present _ "actors" _ f _ d a d');
      [now rewrite vset_vset_str|now rewrite vlookup_vset_str, String.eqb_refl
      |assumption].
Qed.

Lemma cluster_run {A : Type} (m : M A) x a x' items :
  m x = Ok (a, x') ->
  at_key (VStr "actors") m (SDict DictFactory (vset (VStr "actors") x items))
  = Ok (a, SDict DictFactory (vset (VStr "actors") x' items)).
Proof.
  intros Hm.
  rewrite (@at_key_present _ "actors" _ DictFactory _ x a x');
    [now rewrite vset_vset_str|now rewrite vlookup_vset_str, String.eqb_refl
    |assumption].
Qed.

Lemma summarize_actor_step actor s :
  countable_actor actor = true -> actor_store s ->
  exists s',
    StateAPIManager.summarize_actor actor s = Ok (tt, s')
    /\ actor_store s'
    /\ (forall n, n <> "actors" ->
                  node_actor_count s' n
                  = (node_actor_count s n + if on_node n actor then 1 else 0)%Z)
    /\ (forall n c k, n <> "actors" -> c <> "cnt" ->
                      node_class_count s' n c k
                      = (node_class_count s n c k
                         + if on_node n actor && of_class c actor && in_state k actor
                           then 1 else 0)%Z)
    /\ (forall c, cluster_counters s' c
                  = if of_class c actor then Some (counters_of_one actor)
                    else cluster_counters s c)
    /\ (forall n k, n <> "actors" -> k <> "actors" ->
                    node_field s' n k = node_field s n k)
    /\ forall n, n <> "actors" -> on_node n actor = false ->
                 top_entry s' n = top_entry s n.
Proof.
  intros Hc (items & -> & HinvA & HinvN). unfold countable_actor in Hc.
  destruct (lookup "address" actor) as [[| | | |address]|] eqn:Haddr; try discriminate.
  destruct (lookup "class_name" actor) as [[| | |c|]|] eqn:Hclass; try discriminate.
  destruct (lookup "state" actor) as [st|] eqn:Hstate; [|discriminate].
  destruct (lookup "raylet_id" address) as [[| | |n|]|] eqn:Hnode; try discriminate.
  apply andb_true_iff in Hc as [Hn Hcnt].
  apply negb_true_iff, String.eqb_neq in Hn. apply negb_true_iff, String.eqb_neq in Hcnt.
  assert (Hon : forall n', on_node n' actor = String.eqb n n')
    by (intros n'; unfold on_node, field; now rewrite Haddr, Hnode).
  assert (Hof : forall c', of_class c' actor = String.eqb c c')
    by (intros c'; unfold of_class, field; now rewrite Hclass).
  assert (Hin : forall k, in_state k actor
                          = match state_counter st with
                            | Some k' => String.eqb k' k
                            | None => false
                            end)
    by (intros k; unfold in_state, field; now rewrite Hstate).
  assert (Hone : counters_of_one actor
                 = SDict IntFactory
                     ((VStr "cnt", SInt 1)
                      :: match state_counter st with
                         | Some counter => [(VStr counter, SInt 1)]
                         | None => []
                         end))
    by (unfold counters_of_one, field; now rewrite Hstate).
  set (s := SDict DictFactory items).
  (* the entry of the node and its breakdown *)
  assert (HA : exists f_n entries_n D0,
             (forall k, k <> "actors" -> vlookup (VStr k) entries_n = node_field s n k)
             /\ (forall v, vlookup (VStr "cnt") D0 = Some v -> exists z, v = SInt z)
             /\ (forall c' e, c' <> "cnt" -> vlookup (VStr c') D0 = Some e ->
                              class_counters e)
             /\ (node_actors s n = Some (SDict IntFactory D0)
                 \/ (node_actors s n = None /\ D0 = []))
             /\ forall K : M unit,
                 (present <- at_key (VStr n) (contains (VStr "actors")) ;;
                  when (negb present)
                    (at_key (VStr n) (setitem (VStr "actors") (SDict IntFactory []))) ;;;
                  K)%store s
                 = K (SDict DictFactory
                        (vset (VStr n)
                           (SDict f_n (vset (VStr "actors") (SDict IntFactory D0)
                                         entries_n))
                           items))).
  { destruct (vlookup (VStr n) items) as [e|] eqn:He.
    - destruct (HinvN n e Hn He) as (f_n & entries_n & -> & Hd).
      assert (Hfield : forall k, vlookup (VStr k) entries_n = node_field s n k)
        by (intros k; unfold node_field, s; simpl; now rewrite He).
      destruct (vlookup (VStr "actors") entries_n) as [d|] eqn:Hact.
      + destruct (Hd d eq_refl) as (D0 & -> & Hcnt0 & Hcls0).
        exists f_n, entries_n, D0. split; [auto|]. split; [assumption|].
        split; [assumption|]. split.
        * left. unfold node_actors. now rewrite <- Hfield.
        * intros K.
          run (@at_key_present _ n _ DictFactory _ _ _ _ He
                 (contains_run "actors" f_n entries_n)).
          rewrite Hact, (@vset_same_str _ _ _ _ He). cbn [negb when].
          run (ret_run tt (SDict DictFactory items)).
          now rewrite (@vset_same_str _ _ _ _ Hact), (@vset_same_str _ _ _ _ He).
      + exists f_n, entries_n, []. split; [auto|]. split; [discriminate|].
        split; [discriminate|]. split.
        * right. split; [|reflexivity]. unfold node_actors. now rewrite <- Hfield.
        * intros K.
          run (@at_key_present _ n _ DictFactory _ _ _ _ He
                 (contains_run "actors" f_n entries_n)).
          rewrite Hact, (@vset_same_str _ _ _ _ He). cbn [negb when].
          run (@at_key_present _ n _ DictFactory _ _ _ _ He
                 (setitem_run "actors" (SDict IntFactory []) f_n entries_n)).
          reflexivity.
    - exists NoFactory, [], []. split; [|split; [discriminate|split; [discriminate|split]]].
      + intros k _. unfold node_field, s. simpl. now rewrite He.
      + right. split; [|reflexivity]. unfold node_actors, node_field, s. simpl.
        now rewrite He.
      + intros K.
        run (@at_key_absent _ n _ items _ _ He (contains_run "actors" NoFactory [])).
        cbn [vlookup negb when].
        assert (He' : vlookup (VStr n) (vset (VStr n) (SDict NoFactory []) items)
                      = Some (SDict NoFactory []))
          by now rewrite vlookup_vset_str, String.eqb_refl.
        run (@at_key_present _ n _ DictFactory _ _ _ _ He'
               (setitem_run "actors" (SDict IntFactory []) NoFactory [])).
        now rewrite vset_vset_str. }
  destruct HA as (f_n & entries_n & D0 & Hfield & Hcnt0 & Hcls0 & Hnode0 & HrunA).
  (* the cluster-wide breakdown *)
  assert (HB : exists fA A0,
             (forall c', vlookup (VStr c') A0 = cluster_counters s c')
             /\ forall L (K : M unit),
                 vlookup (VStr "actors") L = vlookup (VStr "actors") items ->
                 (present <- contains (VStr "actors") ;;
                  when (negb present) (setitem (VStr "actors") (SDict NoFactory [])) ;;;
                  K)%store (SDict DictFactory L)
                 = K (SDict DictFactory (vset (VStr "actors") (SDict fA A0) L))).
  { destruct (vlookup (VStr "actors") items) as [a|] eqn:Ha.
    - destruct (HinvA a eq_refl) as (fA & A0 & ->). exists fA, A0. split.
      + intros c'. unfold cluster_counters, s. simpl. now rewrite Ha.
      + intros L K HL. run (contains_run "actors" DictFactory L). rewrite HL.
        cbn [negb when]. run (ret_run tt (SDict DictFactory L)).
        now rewrite (@vset_same_str _ _ _ _ HL).
    - exists NoFactory, []. split.
      + intros c'. unfold cluster_counters, s. simpl. now rewrite Ha.
      + intros L K HL. run (contains_run "actors" DictFactory L). rewrite HL.
        cbn [negb when].
        now run (setitem_run "actors" (SDict NoFactory []) DictFactory L). }
  destruct HB as (fA & A0 & Hcluster & HrunB).
  assert (HC : forall L (K : M unit),
             (present <- at_key (VStr "actors") (contains (VStr c)) ;;
              when (negb present)
                (at_key (VStr "actors") (setitem (VStr c) (SDict NoFactory []))) ;;;
              at_key (VStr "actors") (setitem (VStr c) (SDict IntFactory [])) ;;;
              K)%store (SDict DictFactory (vset (VStr "actors") (SDict fA A0) L))
             = K (SDict DictFactory
                    (vset (VStr "actors")
                       (SDict fA (vset (VStr c) (SDict IntFactory []) A0)) L))).
  { intros L K. run (@cluster_run _ _ _ _ _ L (contains_run c fA A0)).
    destruct (vlookup (VStr c) A0); cbn [negb when].
    - run (ret_run tt (SDict DictFactory (vset (VStr "actors") (SDict fA A0) L))).
      now run (@cluster_run _ _ _ _ _ L (setitem_run c (SDict IntFactory []) fA A0)).
    - run (@cluster_run _ _ _ _ _ L (setitem_run c (SDict NoFactory []) fA A0)).
      run (@cluster_run _ _ _ _ _ L
             (setitem_run c (SDict IntFactory []) fA
                (vset (VStr c) (SDict NoFactory []) A0))).
      now rewrite vset_vset_str. }
  set (D9 := vset (VStr "cnt") (SInt (counter_value (SDict IntFactory D0) "cnt" + 1)) D0).
  assert (HD9 : forall c', c' <> "cnt" -> vlookup (VStr c') D9 = vlookup (VStr c') D0).
  { intros c' Hc'. unfold D9. rewrite vlookup_vset_str.
    now rewrite (proj2 (String.eqb_neq "cnt" c')) by congruence. }
  (* the counters of the class in the breakdown of the node *)
  assert (HE : exists C0,
             int_valued C0
             /\ (forall k, counter_value (SDict IntFactory C0) k
                           = node_class_count s n c k)
             /\ forall x (K : M unit),
                 (present <- at_key (VStr n)
                               (at_key (VStr "actors") (contains (VStr c))) ;;
                  when (negb present)
                    (at_key (VStr n)
                       (at_key (VStr "actors")
                          (setitem (VStr c) (SDict IntFactory [])))) ;;;
                  K)%store
                   (SDict DictFactory
                      (vset (VStr "actors") x
                         (vset (VStr n)
                            (SDict f_n (vset (VStr "actors") (SDict IntFactory D9)
                                          entries_n))
                            items)))
                 = K (SDict DictFactory
                        (vset (VStr "actors") x
                           (vset (VStr n)
                              (SDict f_n
                                 (vset (VStr "actors")
                                    (SDict IntFactory
                                       (vset (VStr c) (SDict IntFactory C0) D9))
                                    entries_n))
                              items)))).
  { destruct (vlookup (VStr c) D0) as [e|] eqn:He.
    - destruct (Hcls0 c e Hcnt He) as (C0 & -> & HC0).
      exists C0. split; [assumption|]. split.
      + intros k. unfold node_class_count.
        destruct Hnode0 as [->|[_ ->]]; [|discriminate]. simpl. now rewrite He.
      + intros x K.
        run (@node_run _ _ n f_n entries_n _ _ _ x items Hn
               (contains_run c IntFactory D9)).
        rewrite (HD9 c Hcnt), He. cbn [negb when].
        match goal with
        | |- bindM (ret tt) _ ?s0 = _ => run (ret_run tt s0)
        end.
        now rewrite (@vset_same_str _ c (SDict IntFactory C0) D9)
          by (rewrite (HD9 c Hcnt); exact He).
    - exists []. split; [intros k v; discriminate|]. split.
      + intros k. unfold node_class_count.
        destruct Hnode0 as [->|[-> _]]; [|reflexivity]. simpl. now rewrite He.
      + intros x K.
        run (@node_run _ _ n f_n entries_n _ _ _ x items Hn
               (contains_run c IntFactory D9)).
        rewrite (HD9 c Hcnt), He. cbn [negb when].
        now run (@node_run _ _ n f_n entries_n _ _ _ x items Hn
                   (setitem_run c (SDict IntFactory []) IntFactory D9)). }
  destruct HE as (C0 & HC0 & Hclass0 & HrunE).
  set (X10 := SDict fA (vset (VStr c) (SDict IntFactory [(VStr "cnt", SInt 1)]) A0)).
  set (Y12 := fun D : list (value * sval) =>
                SDict f_n (vset (VStr "actors") (SDict IntFactory D) entries_n)).
  assert (Hbump : forall k0,
             String.eqb "cnt" k0 = false ->
             StateAPIManager.count_actor_state (VStr n) (VStr c) k0
               (SDict DictFactory
                  (vset (VStr "actors") X10
                     (vset (VStr n) (Y12 (vset (VStr c) (SDict IntFactory C0) D9))
                        items)))
             = Ok (tt,
                   SDict DictFactory
                     (vset (VStr "actors")
                        (SDict fA
                           (vset (VStr c)
                              (SDict IntFactory
                                 [(VStr "cnt", SInt 1); (VStr k0, SInt 1)]) A0))
                        (vset (VStr n)
                           (Y12 (vset (VStr c)
                                   (SDict IntFactory
                                      (vset (VStr k0)
                                         (SInt (counter_value (SDict IntFactory C0) k0
                                                + 1)) C0))
                                   D9))
                           items)))).
  { intros k0 Hk0. unfold StateAPIManager.count_actor_state, Y12.
    assert (Hm1 : at_key (VStr c) (incr (VStr k0))
                    (SDict IntFactory (vset (VStr c) (SDict IntFactory C0) D9))
                  = Ok (tt, SDict IntFactory
                              (vset (VStr c)
                                 (SDict IntFactory
                                    (vset (VStr k0)
                                       (SInt (counter_value (SDict IntFactory C0) k0
                                              + 1)) C0))
                                 D9))).
    { rewrite (@at_key_present _ c _ IntFactory _ (SDict IntFactory C0) tt _
                 (eq_trans (vlookup_vset_str c c _ D9)
                           (f_equal (fun b : bool =>
                                       if b then Some (SDict IntFactory C0)
                                       else vlookup (VStr c) D9)
                                    (String.eqb_refl c)))
                 (incr_counter k0 HC0)).
      now rewrite vset_vset_str. }
    run (@node_run _ _ n f_n entries_n _ _ _ X10 items Hn Hm1).
    assert (Hm2 : at_key (VStr c) (incr (VStr k0)) X10
                  = Ok (tt, SDict fA
                              (vset (VStr c)
                                 (SDict IntFactory
                                    [(VStr "cnt", SInt 1); (VStr k0, SInt 1)]) A0))).
    { unfold X10.
      assert (Hi : incr (VStr k0) (SDict IntFactory [(VStr "cnt", SInt 1)])
                   = Ok (tt, SDict IntFactory
                               [(VStr "cnt", SInt 1); (VStr k0, SInt 1)])).
      { unfold incr. cbn -[String.eqb]. rewrite Hk0. cbn -[String.eqb].
        rewrite Hk0. cbn -[String.eqb]. now rewrite String.eqb_refl. }
      rewrite (@at_key_present _ c _ fA _ (SDict IntFactory [(VStr "cnt", SInt 1)]) tt _
                 (eq_trans (vlookup_vset_str c c _ A0)
                           (f_equal (fun b : bool =>
                                       if b
                                       then Some (SDict IntFactory
                                                    [(VStr "cnt", SInt 1)])
                                       else vlookup (VStr c) A0)
                                    (String.eqb_refl c)))
                 Hi).
      now rewrite vset_vset_str. }
    exact (@cluster_run _ _ _ _ _ _ Hm2). }
  assert (HF : exists C13,
             int_valued C13
             /\ (forall k, counter_value (SDict IntFactory C13) k
                           = (counter_value (SDict IntFactory C0) k
                              + if in_state k actor then 1 else 0)%Z)
             /\ (state <- lift (getitem actor "state") ;;
                 if eq_str state "DEPENDENCIES_UNREADY" then
                   StateAPIManager.count_actor_state (VStr n) (VStr c) "dep_unready_cnt"
                 else if eq_str state "PENDING_CREATION" then
                   StateAPIManager.count_actor_state (VStr n) (VStr c) "pending_cnt"
                 else if eq_str state "ALIVE" then
                   StateAPIManager.count_actor_state (VStr n) (VStr c) "alive_cnt"
                 else if eq_str state "RESTARTING" then
                   StateAPIManager.count_actor_state (VStr n) (VStr c) "restarting_cnt"
                 else if eq_str state "DEAD" then
                   StateAPIManager.count_actor_state (VStr n) (VStr c) "dead_cnt"
                 else ret tt)%store
                  (SDict DictFactory
                     (vset (VStr "actors") X10
                        (vset (VStr n) (Y12 (vset (VStr c) (SDict IntFactory C0) D9))
                           items)))
                = Ok (tt,
                      SDict DictFactory
                        (vset (VStr "actors")
                           (SDict fA (vset (VStr c) (counters_of_one actor) A0))
                           (vset (VStr n)
                              (Y12 (vset (VStr c) (SDict IntFactory C13) D9))
                              items)))).
  { match goal with
    | |- exists _, _ /\ _ /\ bindM _ _ ?s0 = _ =>
        rewrite (@bindM_run _ _ _ _ _ _ _ (@lift_getitem _ _ _ s0 Hstate))
    end.
    rewrite Hone. unfold state_counter in *.
    assert (Hrest : forall k0,
               String.eqb "cnt" k0 = false ->
               (forall k, in_state k actor = String.eqb k0 k) ->
               exists C13,
                 int_valued C13
                 /\ (forall k, counter_value (SDict IntFactory C13) k
                               = (counter_value (SDict IntFactory C0) k
                                  + if in_state k actor then 1 else 0)%Z)
                 /\ StateAPIManager.count_actor_state (VStr n) (VStr c) k0
                      (SDict DictFactory
                         (vset (VStr "actors") X10
                            (vset (VStr n)
                               (Y12 (vset (VStr c) (SDict IntFactory C0) D9)) items)))
                    = Ok (tt,
                          SDict DictFactory
                            (vset (VStr "actors")
                               (SDict fA
                                  (vset (VStr c)
                                     (SDict IntFactory
                                        [(VStr "cnt", SInt 1); (VStr k0, SInt 1)]) A0))
                               (vset (VStr n)
                                  (Y12 (vset (VStr c) (SDict IntFactory C13) D9))
                                  items)))).
    { intros k0 Hk0 Hin0. eexists. split; [|split; [|exact (Hbump k0 Hk0)]].
      - now apply int_valued_vset.
      - intros k. rewrite counter_value_vset, Hin0.
        destruct (String.eqb_spec k0 k) as [<-|]; lia. }
    destruct (eq_str st "DEPENDENCIES_UNREADY");
      [exact (Hrest "dep_unready_cnt" eq_refl Hin)|].
    destruct (eq_str st "PENDING_CREATION"); [exact (Hrest "pending_cnt" eq_refl Hin)|].
    destruct (eq_str st "ALIVE"); [exact (Hrest "alive_cnt" eq_refl Hin)|].
    destruct (eq_str st "RESTARTING"); [exact (Hrest "restarting_cnt" eq_refl Hin)|].
    destruct (eq_str st "DEAD"); [exact (Hrest "dead_cnt" eq_refl Hin)|].
    exists C0. split; [assumption|]. split; [|reflexivity].
    intros k. rewrite Hin. lia. }
  destruct HF as (C13 & HC13 & Hcount13 & HrunF).
  set (D13 := vset (VStr c) (SDict IntFactory C13) D9) in *.
  set (X13 := SDict fA (vset (VStr c) (counters_of_one actor) A0)) in *.
  exists (SDict DictFactory (vset (VStr "actors") X13 (vset (VStr n) (Y12 D13) items))).
  assert (Htop : forall n', n' <> "actors" ->
             top_entry
               (SDict DictFactory
                  (vset (VStr "actors") X13 (vset (VStr n) (Y12 D13) items))) n'
             = if String.eqb n n' then Some (Y12 D13) else top_entry s n').
  { intros n' Hn'. cbn [top_entry]. rewrite vlookup_vset_str.
    rewrite (proj2 (String.eqb_neq "actors" n')) by congruence.
    now rewrite vlookup_vset_str. }
  assert (Hcnt13 : vlookup (VStr "cnt") D13
                   = Some (SInt (counter_value (SDict IntFactory D0) "cnt" + 1))).
  { unfold D13, D9. rewrite vlookup_vset_str.
    rewrite (proj2 (String.eqb_neq c "cnt")) by assumption.
    now rewrite vlookup_vset_str, String.eqb_refl. }
  assert (Hcls13 : forall c', c' <> "cnt" ->
             vlookup (VStr c') D13
             = if String.eqb c c' then Some (SDict IntFactory C13)
               else vlookup (VStr c') D0).
  { intros c' Hc'. unfold D13. rewrite vlookup_vset_str.
    destruct (String.eqb c c'); [reflexivity|]. now apply HD9. }
  assert (Hact13 : forall k,
             top_entry (Y12 D13) k
             = if String.eqb "actors" k then Some (SDict IntFactory D13)
               else vlookup (VStr k) entries_n).
  { intros k. unfold Y12. cbn [top_entry]. now rewrite vlookup_vset_str. }
  split; [|split; [|split; [|split; [|split; [|split]]]]].
  - unfold StateAPIManager.summarize_actor.
    run (@lift_getitem _ _ _ s Haddr).
    assert (Hid : lift (getitem_value (VDict address) "raylet_id") s = Ok (VStr n, s))
      by (unfold lift, getitem_value, getitem; now rewrite Hnode).
    run Hid. rewrite HrunA.
    rewrite HrunB
      by (rewrite vlookup_vset_str;
          now rewrite (proj2 (String.eqb_neq n "actors")) by assumption).
    match goal with
    | |- bindM _ _ ?s0 = _ =>
        rewrite (@bindM_run _ _ _ _ _ _ _ (@lift_getitem _ _ _ s0 Hclass))
    end.
    rewrite HC.
    run (@node_run _ _ n f_n entries_n _ _ _
           (SDict fA (vset (VStr c) (SDict IntFactory []) A0)) items Hn
           (incr_int "cnt" D0 Hcnt0)).
    fold D9.
    assert (Hm10 : at_key (VStr c) (incr (VStr "cnt"))
                     (SDict fA (vset (VStr c) (SDict IntFactory []) A0))
                   = Ok (tt, X10)).
    { unfold X10.
      rewrite (@at_key_present _ c _ fA _ (SDict IntFactory []) tt
                 (SDict IntFactory [(VStr "cnt", SInt 1)])
                 (eq_trans (vlookup_vset_str c c _ A0)
                           (f_equal (fun b : bool =>
                                       if b then Some (SDict IntFactory [])
                                       else vlookup (VStr c) A0)
                                    (String.eqb_refl c)))
                 eq_refl).
      now rewrite vset_vset_str. }
    run (@cluster_run _ _ _ _ _
           (vset (VStr n)
              (SDict f_n (vset (VStr "actors") (SDict IntFactory D9) entries_n)) items)
           Hm10).
    rewrite HrunE. exact HrunF.
  - eexists. split; [reflexivity|]. split.
    + intros a. rewrite vlookup_vset_str, String.eqb_refl. intros [= <-].
      unfold X13. eauto.
    + intros n' e Hn' He.
      pose proof (Htop n' Hn') as Ht. cbn [top_entry] in Ht. rewrite Ht in He.
      destruct (String.eqb n n'); [|exact (HinvN n' e Hn' He)].
      injection He as <-. unfold Y12. do 2 eexists. split; [reflexivity|].
      intros d. rewrite vlookup_vset_str, String.eqb_refl. intros [= <-].
      exists D13. split; [reflexivity|]. split.
      * intros v. rewrite Hcnt13. intros [= <-]. eauto.
      * intros c' e Hc'. rewrite (Hcls13 c' Hc').
        destruct (String.eqb c c'); [|now apply Hcls0].
        intros [= <-]. exists C13. now split.
  - intros n' Hn'. unfold node_actor_count, node_actors, node_field.
    rewrite (Htop n' Hn'), Hon.
    destruct (String.eqb_spec n n') as [<-|Hne]; [|lia].
    rewrite Hact13. cbn [String.eqb Ascii.eqb Bool.eqb].
    unfold counter_value at 1. cbn [top_entry]. rewrite Hcnt13.
    fold (node_field s n "actors"). fold (node_actors s n).
    destruct Hnode0 as [->|[-> ->]]; [lia|reflexivity].
  - intros n' c' k Hn' Hc'. unfold node_class_count, node_actors, node_field.
    rewrite (Htop n' Hn'), Hon, Hof.
    destruct (String.eqb_spec n n') as [<-|Hne]; [|cbn [andb]; lia].
    rewrite Hact13. cbn [String.eqb Ascii.eqb Bool.eqb top_entry andb].
    rewrite (Hcls13 c' Hc').
    fold (node_field s n "actors"). fold (node_actors s n).
    destruct (String.eqb_spec c c') as [<-|Hnc].
    + rewrite Hcount13, Hclass0. unfold node_class_count. reflexivity.
    + destruct Hnode0 as [->|[-> ->]]; cbn [top_entry vlookup andb]; lia.
  - intros c'. unfold cluster_counters at 1. cbn [top_entry].
    rewrite vlookup_vset_str, String.eqb_refl. unfold X13. cbn [top_entry].
    rewrite vlookup_vset_str, Hof. destruct (String.eqb c c'); [reflexivity|].
    apply Hcluster.
  - intros n' k Hn' Hk. unfold node_field. rewrite (Htop n' Hn').
    destruct (String.eqb_spec n n') as [<-|Hne]; [|reflexivity].
    rewrite Hact13. rewrite (proj2 (String.eqb_neq "actors" k)) by congruence.
    now apply Hfield.
  - intros n' Hn' Hoff. rewrite (Htop n' Hn'). rewrite Hon in Hoff. now rewrite Hoff.
Qed.

Lemma last_with_class c actor actors :
  last_with "class_name" (VStr c) (actor :: actors)
  = match last_with "class_name" (VStr c) actors with
    | Some a => Some a
    | None => if of_class c actor then Some actor else None
    end.
Proof.
  cbn [last_with]. destruct (last_with "class_name" (VStr c) actors); [reflexivity|].
  unfold of_class, field.
  destruct (lookup "class_name" actor) as [[| [|] | z | k | items]|]; reflexivity.
Qed.

Lemma actors_loop_breakdown (actors : list record) (s : sval) :
  Forall (fun actor => countable_actor actor = true) actors -> actor_store s ->
  exists s',
    for_each actors StateAPIManager.summarize_actor s = Ok (tt, s')
    /\ actor_store s'
    /\ (forall n, n <> "actors" ->
                  node_actor_count s' n
                  = (node_actor_count s n
                     + Z.of_nat (List.length (List.filter (on_node n) actors)))%Z)
    /\ (forall n c k, n <> "actors" -> c <> "cnt" ->
                      node_class_count s' n c k
                      = (node_class_count s n c k
                         + Z.of_nat
                             (List.length
                                (List.filter
                                   (fun actor => on_node n actor && of_class c actor
                                                 && in_state k actor)
                                   actors)))%Z)
    /\ (forall c, cluster_counters s' c
                  = match last_with "class_name" (VStr c) actors with
                    | Some actor => Some (counters_of_one actor)
                    | None => cluster_counters s c
                    end)
    /\ (forall n k, n <> "actors" -> k <> "actors" ->
                    node_field s' n k = node_field s n k)
    /\ forall n, n <> "actors" -> List.filter (on_node n) actors = [] ->
                 top_entry s' n = top_entry s n.
Proof.
  intros H. revert s. induction H as [|actor actors Ha _ IH]; intros s Hs.
  - exists s. split; [reflexivity|]. split; [assumption|].
    repeat split; intros; simpl; try reflexivity; lia.
  - destruct (@summarize_actor_step actor s Ha Hs)
      as (s1 & H1 & Hs1 & Hn1 & Hc1 & Hk1 & Hf1 & Ht1).
    destruct (IH s1 Hs1) as (s' & H2 & Hs' & Hn2 & Hc2 & Hk2 & Hf2 & Ht2).
    exists s'. split; [|split; [assumption|split; [|split; [|split; [|split]]]]].
    + simpl. now rewrite (@bindM_run _ _ _ _ _ _ _ H1).
    + intros n Hn. rewrite (Hn2 n Hn), (Hn1 n Hn). cbn [List.filter].
      destruct (on_node n actor); cbn [List.length]; lia.
    + intros n c k Hn Hc. rewrite (Hc2 n c k Hn Hc), (Hc1 n c k Hn Hc).
      cbn [List.filter].
      destruct (on_node n actor && of_class c actor && in_state k actor);
        cbn [List.length]; lia.
    + intros c. rewrite Hk2, Hk1, last_with_class.
      destruct (last_with "class_name" (VStr c) actors); [reflexivity|].
      now destruct (of_class c actor).
    + intros n k Hn Hk. now rewrite (Hf2 n k Hn Hk), (Hf1 n k Hn Hk).
    + intros n Hn. cbn [List.filter].
      destruct (on_node n actor) eqn:Hon; [discriminate|].
      intros Hnone. now rewrite (Ht2 n Hn Hnone), (Ht1 n Hn Hon).
Qed.

(** X15.  The loop of [summary] over the actors (lines 426-465), run on
    actors it can read (an address that names a raylet by a string other
    than "actors", a string class name other than "cnt", a state) and on a
    mapping in the shape the loop keeps, completes.  The breakdown of every
    node is right: its [cnt] grows by the number of actors of the node, and
    the counter of a state under a class by the number of actors of the
    node with that class in that state.  The cluster-wide breakdown is not:
    for every class it holds the counters of the last actor of the class
    alone, [cnt] 1 and the counter of its state 1, and for a class without
    actors what it held before.  The other fields of the nodes, and
    the entries under the keys for which there is no actor, are left as
    they were. *)
Theorem summary_actor_breakdown (actors : list record) (s : sval) :
  Forall (fun actor => countable_actor actor = true) actors -> actor_store s ->
  exists s',
    for_each actors StateAPIManager.summarize_actor s = Ok (tt, s')
    /\ actor_store s'
    /\ (forall n, n <> "actors" ->
                  node_actor_count s' n
                  = (node_actor_count s n
                     + Z.of_nat (List.length (List.filter (on_node n) actors)))%Z)
    /\ (forall n c k, n <> "actors" -> c <> "cnt" ->
                      node_class_count s' n c k
                      = (node_class_count s n c k
                         + Z.of_nat
                             (List.length
                                (List.filter
                                   (fun actor => on_node n actor && of_class c actor
                                                 && in_state k actor)
                                   actors)))%Z)
    /\ (forall c, cluster_counters s' c
                  = match last_with "class_name" (VStr c) actors with
                    | Some actor => Some (counters_of_one actor)
                    | None => cluster_counters s c
                    end)
    /\ (forall n k, n <> "actors" -> k <> "actors" ->
                    node_field s' n k = node_field s n k)
    /\ forall n, n <> "actors" -> List.filter (on_node n) actors = [] ->
                 top_entry s' n = top_entry s n.
Proof. apply actors_loop_breakdown. Qed.

(** Three actors of class Foo on the node n1, in the states ALIVE, DEAD
    and ALIVE: the node has 3 actors and 2 live ones of class Foo, the
    cluster-wide breakdown has the counters of the last actor. *)
Lemma summary_actor_breakdown_witness :
  let a1 := fixture_actor "a1" "Foo" "ALIVE" in
  let a2 := fixture_actor "a2" "Foo" "DEAD" in
  let a3 := fixture_actor "a3" "Foo" "ALIVE" in
  let s := SDict DictFactory [] in
  (Forall (fun actor => countable_actor actor = true) [a1; a2; a3] /\ actor_store s)
  /\ exists s',
      for_each [a1; a2; a3] summarize_actor s = Ok (tt, s')
      /\ node_actor_count s' "n1" = 3%Z
      /\ node_class_count s' "n1" "Foo" "alive_cnt" = 2%Z
      /\ cluster_counters s' "Foo" = Some (counters_of_one a3).
Proof.
  intros a1 a2 a3 s.
  assert (H1 : Forall (fun actor => countable_actor actor = true) [a1; a2; a3])
    by (repeat constructor).
  assert (H2 : actor_store s).
  { eexists. split; [reflexivity|]. split; [discriminate|]. intros n e _. discriminate. }
  split; [exact (conj H1 H2)|].
  destruct (@summary_actor_breakdown [a1; a2; a3] s H1 H2)
    as (s' & Hrun & _ & Hn & Hc & Hk & _ & _).
  exists s'. split; [exact Hrun|]. split; [|split].
  - exact (Hn "n1" ltac:(discriminate)).
  - exact (Hc "n1" "Foo" "alive_cnt" ltac:(discriminate) ltac:(discriminate)).
  - exact (Hk "Foo").
Defined.

(* ================================================================== *)
(** * Entries that cannot be converted *)
(* ================================================================== *)

Lemma mapM_all_err {A B : Type} (f : A -> result B) xs x e :
  In x xs -> f x = Err e -> (forall y e', f y = Err e' -> e' = e) ->
  mapM f xs = Err e.
Proof.
  intros Hx Hf Hall. induction xs as [|a xs IH]; simpl; [destruct Hx|].
  destruct (f a) as [b|e0] eqn:Ea; simpl.
  - destruct Hx as [->|Hx]; [congruence|]. now rewrite (IH Hx).
  - now rewrite (Hall _ _ Ea).
Qed.

Section Conversion.

Variable message : Type.
Variable message_to_dict : message -> list string -> bool -> bool -> result record.
Variables ActorState ObjectState : list string.
Variable construct_memory_table : list record -> result (list record).
Variable JobInfo : Type.
Variable client : StateDataSourceClient message JobInfo.

Local Abbreviation actor_data := (StateAPIManager.actor_data message_to_dict ActorState).
Local Abbreviation object_reply_data := (StateAPIManager.object_reply_data message_to_dict).
Local Abbreviation list_actors := (StateAPIManager.list_actors message_to_dict ActorState client).
Local Abbreviation list_objects :=
  (StateAPIManager.list_objects message_to_dict ObjectState construct_memory_table client).

(** X16.  The entries are converted before the filter and the limit are
    applied, so one entry that cannot be converted fails the whole call,
    whatever the filter and even with a limit of 0: [list_objects] raises
    [KeyError] when an entry of the memory table has no [object_ref], and
    [list_actors] raises when the conversion of one actor of the reply
    raises. *)
Theorem unconvertible_entry_raises (opt : ListApiOptions) :
  (forall replies worker_stats memory_table entry,
      gather (map (fun node_id => get_object_info client node_id (timeout opt))
                  (get_all_registered_raylet_ids client)) = Ok replies ->
      fetched object_reply_data replies = Ok worker_stats ->
      construct_memory_table worker_stats = Ok memory_table ->
      In entry memory_table -> lookup "object_ref" entry = None ->
      list_objects opt = Err KeyError)
  /\ (forall reply actor e,
      get_all_actor_info client (timeout opt) = Ok (Some reply) ->
      In actor (actor_table_data reply) -> actor_data actor = Err e ->
      exists e', list_actors opt = Err e').
Proof.
  split.
  - intros replies stats table entry Hg Hf Ht Hin Hnone.
    rewrite (list_objects_fetched message_to_dict ObjectState construct_memory_table
               client opt Hg), Hf.
    cbn [bind]. rewrite Ht. cbn [bind].
    rewrite (@mapM_all_err _ _ (StateAPIManager.object_data ObjectState) table entry
               KeyError Hin); [reflexivity| |].
    + unfold StateAPIManager.object_data, getitem. now rewrite Hnone.
    + intros y e'. unfold StateAPIManager.object_data.
      destruct (getitem y "object_ref") eqn:E; cbn [bind]; [discriminate|].
      intros [= <-]. exact (getitem_err _ _ E).
  - intros reply actor e Hr Hin He.
    unfold StateAPIManager.list_actors. rewrite Hr. cbn [bind].
    destruct (mapM_In_err _ _ _ Hin He) as [e' ->]. now exists e'.
Qed.

End Conversion.

(** A raylet that reports an entry with a reference and one without, a
    filter that matches nothing and a limit of 0. *)
Lemma unconvertible_entry_raises_witness :
  let good := [("object_ref", VStr "o1"); ("reference_type", VStr "LOCAL_REFERENCE")] in
  let bad := [("reference_type", VStr "LOCAL_REFERENCE")] in
  let client := fixture_client (Ok None) [] [("n1", Ok (Some [good; bad]))] in
  let opt := fixture_option 0 "reference_type=NONE" in
  let replies := [Some {| core_workers_stats := [good; bad] |}] in
  (gather (map (fun node_id => get_object_info client node_id (timeout opt))
               (get_all_registered_raylet_ids client)) = Ok replies
   /\ fetched (object_reply_data decode_identity) replies = Ok [good; bad]
   /\ In bad [good; bad] /\ lookup "object_ref" bad = None)
  /\ list_objects decode_identity fixture_fields (fun stats => Ok stats) client opt
     = Err KeyError.
Proof.
  intros good bad client opt replies.
  assert (H1 : gather (map (fun node_id => get_object_info client node_id (timeout opt))
                           (get_all_registered_raylet_ids client)) = Ok replies)
    by reflexivity.
  assert (H2 : fetched (object_reply_data decode_identity) replies = Ok [good; bad])
    by reflexivity.
  assert (H3 : In bad [good; bad]) by (right; now left).
  assert (H4 : lookup "object_ref" bad = None) by reflexivity.
  split; [exact (conj H1 (conj H2 (conj H3 H4)))|].
  exact (proj1 (@unconvertible_entry_raises _ decode_identity fixture_fields
                  fixture_fields (fun stats => Ok stats) _ client opt)
               replies [good; bad] [good; bad] bad H1 H2 eq_refl H3 H4).
Defined.

(* ================================================================== *)
(** * The bounds of the list operations on concrete clusters *)
(* ================================================================== *)

(** Three actors and a limit of 2. *)
Lemma limit_bounds_entries_witness :
  let a3 := fixture_actor "a3" "Foo" "ALIVE" in
  let a1 := fixture_actor "a1" "Bar" "ALIVE" in
  let a2 := fixture_actor "a2" "Foo" "DEAD" in
  let client := fixture_client (Ok (Some [a3; a1; a2])) [] [] in
  let opt := fixture_option 2 "" in
  let entries := [(VStr "a1", a1); (VStr "a2", a2)] in
  let r := {| data := Some entries; warnings := None |} in
  (list_actors decode_identity fixture_fields client opt = Ok r
   /\ data r = Some entries)
  /\ List.length entries <= limit opt.
Proof.
  intros a3 a1 a2 client opt entries r.
  assert (H1 : list_actors decode_identity fixture_fields client opt = Ok r)
    by reflexivity.
  assert (H2 : data r = Some entries) by reflexivity.
  split; [exact (conj H1 H2)|].
  exact (proj1 (@limit_bounds_entries _ decode_identity fixture_fields fixture_fields
                  fixture_fields fixture_fields fixture_fields fixture_fields
                  fixture_fields (fun stats => Ok stats) (fun v => Ok v) _ client opt)
               r entries H1 H2).
Defined.

(** Two tasks reported by two raylets. *)
Lemma entries_keyed_by_identifier_witness :
  let A := fixture_task "A" "f" "FINISHED" in
  let B := fixture_task "B" "g" "SCHEDULED" in
  let client :=
    fixture_client (Ok None) [] [("n1", Ok (Some [B])); ("n2", Ok (Some [A]))] in
  let opt := fixture_option 10 "" in
  let entries := [(VStr "A", A); (VStr "B", B)] in
  let r := {| data := Some entries; warnings := None |} in
  (list_tasks decode_identity fixture_fields client opt = Ok r
   /\ data r = Some entries /\ In (VStr "B", B) entries)
  /\ exists k', getitem B "task_id" = Ok k' /\ key_eqb (VStr "B") k' = true.
Proof.
  intros A B client opt entries r.
  assert (H1 : list_tasks decode_identity fixture_fields client opt = Ok r)
    by reflexivity.
  assert (H2 : data r = Some entries) by reflexivity.
  assert (H3 : In (VStr "B", B) entries) by (right; now left).
  split; [exact (conj H1 (conj H2 H3))|].
  exact (proj1 (proj2 (proj2 (proj2 (proj2
           (@entries_keyed_by_identifier _ decode_identity fixture_fields
              fixture_fields fixture_fields fixture_fields fixture_fields
              fixture_fields (fun stats => Ok stats) _ client opt)))))
           r entries (VStr "B") B H1 H2 H3).
Defined.

(** Two raylets, neither of which answers. *)
Lemma fanout_without_survivors_witness :
  let client := fixture_client (Ok None) [] [("n1", Ok None); ("n2", Ok None)] in
  let opt := fixture_option 10 "" in
  let replies : list (option (GetTasksInfoReply record)) := [None; None] in
  (gather (map (fun node_id => get_task_info client node_id (timeout opt))
               (get_all_registered_raylet_ids client)) = Ok replies
   /\ survivors replies = [])
  /\ list_tasks decode_identity fixture_fields client opt
     = Ok {| data := Some [];
             warnings := Some [RAYLET_QUERY_FAILURE_WARNING 2 2] |}.
Proof.
  intros client opt replies.
  assert (H1 : gather (map (fun node_id => get_task_info client node_id (timeout opt))
                           (get_all_registered_raylet_ids client)) = Ok replies)
    by reflexivity.
  assert (H2 : survivors replies = []) by reflexivity.
  split; [exact (conj H1 H2)|].
  exact (proj1 (@fanout_without_survivors _ decode_identity fixture_fields
                  fixture_fields fixture_fields (fun stats => Ok stats)
                  (fun v => Ok v) _ client opt)
               replies H1 H2).
Defined.

(* ================================================================== *)
(** * The summary as a whole *)
(* ================================================================== *)

Lemma workers_loop_on (P : string -> Prop) (workers : list record) (s : sval) :
  Forall (fun worker => countable_worker worker = true) workers ->
  (forall worker node_id,
      In worker workers -> live_on node_id worker = true -> P node_id) ->
  worker_store_on P s ->
  exists s',
    for_each workers StateAPIManager.summarize_worker s = Ok (tt, s')
    /\ worker_store_on P s'
    /\ forall node_id,
        match List.filter (live_on node_id) workers with
        | [] => top_entry s' node_id = top_entry s node_id
        | live =>
            node_field s' node_id "num_workers"
            = Some (SInt (worker_count s node_id + Z.of_nat (List.length live)))
            /\ forall k, k <> "num_workers" ->
                         node_field s' node_id k = node_field s node_id k
        end.
Proof.
  intros H. revert s. induction H as [|worker workers Hw _ IH]; intros s HP Hs.
  - exists s. split; [reflexivity|]. split; [assumption|]. reflexivity.
  - destruct (@summarize_worker_step_on P worker s Hw
                (fun node_id => HP worker node_id (or_introl eq_refl)) Hs)
      as (s1 & H1 & Hs1 & Hp1).
    destruct (IH s1 (fun w node_id Hin => HP w node_id (or_intror Hin)) Hs1)
      as (s' & H2 & Hs' & Hp2).
    exists s'. split; [|split; [assumption|]].
    + simpl. now rewrite (@bindM_run _ _ _ _ _ _ _ H1).
    + intros node_id. specialize (Hp1 node_id). specialize (Hp2 node_id).
      cbn [List.filter]. destruct (live_on node_id worker).
      * destruct Hp1 as [Hn1 Hk1].
        assert (Hc1 : worker_count s1 node_id = (worker_count s node_id + 1)%Z)
          by (unfold worker_count; now rewrite Hn1).
        destruct (List.filter (live_on node_id) workers) as [|w live].
        -- split.
           ++ unfold node_field. rewrite Hp2. exact Hn1.
           ++ intros k Hk. unfold node_field. rewrite Hp2. now apply Hk1.
        -- destruct Hp2 as [Hn2 Hk2]. split.
           ++ rewrite Hn2, Hc1. do 2 f_equal.
              change (List.length (worker :: w :: live))
                with (S (List.length (w :: live))). lia.
           ++ intros k Hk. rewrite Hk2 by assumption. now apply Hk1.
      * destruct (List.filter (live_on node_id) workers) as [|w live].
        -- now rewrite Hp2.
        -- destruct Hp2 as [Hn2 Hk2].
           assert (Hc1 : worker_count s1 node_id = worker_count s node_id)
             by (unfold worker_count, node_field; now rewrite Hp1).
           split; [now rewrite Hn2, Hc1|].
           intros k Hk. rewrite Hk2 by assumption. unfold node_field. now rewrite Hp1.
Qed.

(** Whatever the workers, a field of a node other than [num_workers] is
    after the loop what it was before. *)
Lemma workers_loop_fields (workers : list record) s s' :
  (forall node_id,
      match List.filter (live_on node_id) workers with
      | [] => top_entry s' node_id = top_entry s node_id
      | live =>
          node_field s' node_id "num_workers"
          = Some (SInt (worker_count s node_id + Z.of_nat (List.length live)))
          /\ forall k, k <> "num_workers" ->
                       node_field s' node_id k = node_field s node_id k
      end) ->
  forall n k, k <> "num_workers" -> node_field s' n k = node_field s n k.
Proof.
  intros H n k Hk. specialize (H n).
  destruct (List.filter (live_on n) workers).
  - unfold node_field. now rewrite H.
  - now apply H.
Qed.

Section Whole.

Variable format_value : value -> string.
Variable format_quotient : Z -> Z -> string.
Variable format_percent : Z -> Z -> string.

Local Abbreviation summarize_node :=
  (StateAPIManager.summarize_node format_value format_quotient format_percent).

Lemma summarize_node_fresh node s :
  summarizable_node node = true -> fresh_nodes s ->
  exists s', summarize_node node s = Ok (tt, s') /\ fresh_nodes s'.
Proof.
  unfold summarizable_node. intros Hn (Hs & Ha & Ht & Hf).
  destruct (lookup "nodeId" (raylet node)) as [[| | |node_id|]|] eqn:Hid;
    try discriminate.
  destruct (object_store_total node) as [total|] eqn:Htot; [|discriminate].
  apply andb_true_iff in Hn as [Hn Hz]. apply andb_true_iff in Hn as [Hna Hnt].
  apply negb_true_iff, String.eqb_neq in Hna.
  apply negb_true_iff, String.eqb_neq in Hnt.
  apply negb_true_iff, Z.eqb_neq in Hz.
  assert (Hused : exists used,
             as_int (get_default (raylet node) "object_store_used_memory" (VInt 0))
             = Some used).
  { unfold object_store_total in Htot.
    destruct (as_int (get_default (raylet node) "object_store_used_memory" (VInt 0)));
      [eauto|discriminate]. }
  destruct Hused as [used Hused].
  destruct (@summarize_node_figures format_value format_quotient format_percent
              node s node_id used total Hid Hused Htot Hz Hs)
    as (s' & Hrun & Hs' & _ & _ & _ & _ & _ & _ & _ & _ & Hother & Hframe).
  exists s'. split; [assumption|]. split; [assumption|].
  split; [now rewrite Hframe by congruence|].
  split; [now rewrite Hframe by congruence|].
  assert (Hk : forall n k,
             ~ In k ["cpu"; "disk_utilization"; "disk_read"; "disk_write";
                     "network_sent_speed"; "network_recv_speed"; "mem_utilization";
                     "object_store_utilization"] ->
             node_field s' n k = node_field s n k).
  { intros n k Hk. destruct (String.eqb_spec n node_id) as [->|Hne].
    - now apply Hother.
    - unfold node_field. now rewrite Hframe. }
  intros n. split.
  - rewrite Hk; [apply Hf|]. simpl. intuition discriminate.
  - rewrite Hk; [apply Hf|]. simpl. intuition discriminate.
Qed.

Lemma nodes_loop_fresh nodes s :
  Forall (fun node => summarizable_node node = true) nodes -> fresh_nodes s ->
  exists s', for_each nodes summarize_node s = Ok (tt, s') /\ fresh_nodes s'.
Proof.
  intros H. revert s. induction H as [|node nodes Hn _ IH]; intros s Hs.
  - exists s. now split.
  - destruct (@summarize_node_fresh node s Hn Hs) as (s1 & H1 & Hs1).
    destruct (IH s1 Hs1) as (s' & H2 & Hs').
    exists s'. split; [|assumption]. simpl. now rewrite (@bindM_run _ _ _ _ _ _ _ H1).
Qed.

End Whole.

Lemma fresh_nodes_empty : fresh_nodes (SDict DictFactory []).
Proof.
  split; [apply node_store_empty|]. split; [reflexivity|]. split; [reflexivity|].
  intros n. now split.
Qed.

Lemma fresh_nodes_actor_store s : fresh_nodes s -> actor_store s.
Proof.
  intros ((items & -> & Hitems) & Ha & _ & Hf).
  exists items. split; [reflexivity|]. split.
  - intros a. simpl in Ha. congruence.
  - intros n e _ He. destruct (vlookup_In _ _ He) as [k' Hin].
    destruct (proj1 (Forall_forall _ _) Hitems _ Hin) as [entries E].
    simpl in E. subst e. exists NoFactory, entries. split; [reflexivity|].
    intros d Hd. destruct (Hf n) as [Hact _].
    unfold node_field in Hact. simpl in Hact. rewrite He in Hact. simpl in Hact.
    congruence.
Qed.

Lemma filter_none {A : Type} (p : A -> bool) (l : list A) :
  Forall (fun x => p x = false) l -> List.filter p l = [].
Proof.
  induction 1 as [|x l Hx _ IH]; simpl; [reflexivity|]. now rewrite Hx.
Qed.

Section SummaryRollups.

Variable message : Type.
Variable message_to_dict : message -> list string -> bool -> bool -> result record.
Variables ActorState WorkerState TaskState : list string.
Variable JobInfo : Type.
Variable client : StateDataSourceClient message JobInfo.
Variable format_value : value -> string.
Variable format_quotient : Z -> Z -> string.
Variable format_percent : Z -> Z -> string.
Variable get_all_node_summary : result (list NodeSummary).

Local Abbreviation summarize_node :=
  (StateAPIManager.summarize_node format_value format_quotient format_percent).
Local Abbreviation summary :=
  (StateAPIManager.summary message_to_dict ActorState WorkerState TaskState client
     format_value format_quotient format_percent get_all_node_summary).
Local Abbreviation op := {| limit := 1000; timeout := 30; filter := "" |}.

(** X17.  [summary] as a whole.  When the three list operations have
    returned data, and the node summaries, the actors, the tasks and the
    workers are ones it can read, on nodes whose identifier is not one of
    the keys "actors" and "tasks" that the mapping uses for itself,
    [summary] returns a mapping in which: the figures of the nodes are
    those that the loop over the nodes has written; the breakdown of every
    node counts its actors, in all and by class and state; the rollup of
    the tasks counts the tasks by name and scheduling state; every node has
    the number of its live workers; and the cluster-wide breakdown of the
    actors holds, for every class, the counters of the last actor of the
    class alone. *)
Theorem summary_returns_rollups
    (nodes : list NodeSummary)
    (actors_result tasks_result workers_result : StateApiResult (list (value * record)))
    (actors tasks workers : list (value * record)) :
  list_actors message_to_dict ActorState client op = Ok actors_result ->
  data actors_result = Some actors ->
  list_tasks message_to_dict TaskState client op = Ok tasks_result ->
  data tasks_result = Some tasks ->
  list_workers message_to_dict WorkerState client op = Ok workers_result ->
  data workers_result = Some workers ->
  get_all_node_summary = Ok nodes ->
  Forall (fun node => summarizable_node node = true) nodes ->
  Forall (fun actor => summarizable_actor actor = true) (map snd actors) ->
  Forall (fun task => countable_task task = true) (map snd tasks) ->
  Forall (fun worker => summarizable_worker worker = true) (map snd workers) ->
  exists out nodes_done,
    summary = Ok out
    /\ for_each nodes summarize_node (SDict DictFactory []) = Ok (tt, nodes_done)
    /\ (forall n k, node_key n -> k <> "actors" -> k <> "num_workers" ->
                    node_field out n k = node_field nodes_done n k)
    /\ (forall n, node_key n ->
                  node_actor_count out n
                  = Z.of_nat (List.length (List.filter (on_node n) (map snd actors))))
    /\ (forall n c k, node_key n -> c <> "cnt" ->
                      node_class_count out n c k
                      = Z.of_nat
                          (List.length
                             (List.filter
                                (fun actor => on_node n actor && of_class c actor
                                              && in_state k actor)
                                (map snd actors))))
    /\ (forall c, cluster_counters out c
                  = match last_with "class_name" (VStr c) (map snd actors) with
                    | Some actor => Some (counters_of_one actor)
                    | None => None
                    end)
    /\ (forall name c,
           task_count out name c = Z.of_nat (tally (map snd tasks) name c))
    /\ (forall n, node_key n ->
                  worker_count out n
                  = Z.of_nat (List.length (List.filter (live_on n) (map snd workers)))).
Proof.
  intros Hla Hda Hlt Hdt Hlw Hdw Hnodes Hn Ha Ht Hw.
  set (av := map snd actors) in *. set (tv := map snd tasks) in *.
  set (wv := map snd workers) in *.
  (* the nodes *)
  destruct (@nodes_loop_fresh format_value format_quotient format_percent nodes _
              Hn fresh_nodes_empty) as (s1 & H1 & Hfresh1).
  pose proof (fresh_nodes_actor_store Hfresh1) as Hs1.
  destruct Hfresh1 as (_ & Hact1 & Htasks1 & Hfields1).
  (* the actors *)
  assert (Hca : Forall (fun actor => countable_actor actor = true) av).
  { apply (Forall_impl _ (P := fun actor => summarizable_actor actor = true));
      [|exact Ha]. unfold summarizable_actor. intros a H.
    now apply andb_true_iff in H as [H _]. }
  assert (Hoff : List.filter (on_node "tasks") av = []).
  { apply filter_none.
    apply (Forall_impl _ (P := fun actor => summarizable_actor actor = true));
      [|exact Ha]. unfold summarizable_actor. intros a H.
    apply andb_true_iff in H as [_ H]. now apply negb_true_iff in H. }
  destruct (@actors_loop_breakdown av s1 Hca Hs1)
    as (s2 & H2 & Hs2 & Hcnt2 & Hcls2 & Hclu2 & Hfld2 & Htop2).
  assert (Htasks2 : top_entry s2 "tasks" = None)
    by (rewrite (Htop2 "tasks" ltac:(discriminate) Hoff); exact Htasks1).
  (* the tasks *)
  assert (Hr2 : task_rollup s2).
  { destruct Hs2 as (items2 & -> & _). exists DictFactory, items2.
    split; [reflexivity|]. simpl in Htasks2. intros t. congruence. }
  destruct (@tasks_loop_counts tv s2 Ht Hr2)
    as (s3 & H3 & _ & Hfac3 & Hf3 & _ & Hc3).
  (* the workers *)
  assert (Hcw : Forall (fun worker => countable_worker worker = true) wv).
  { apply (Forall_impl _ (P := fun worker => summarizable_worker worker = true));
      [|exact Hw]. unfold summarizable_worker. intros w H.
    apply andb_true_iff in H as [H _]. now apply andb_true_iff in H as [H _]. }
  assert (Hwa : Forall (fun worker => live_on "actors" worker = false) wv).
  { apply (Forall_impl _ (P := fun worker => summarizable_worker worker = true));
      [|exact Hw]. unfold summarizable_worker. intros w H.
    apply andb_true_iff in H as [H _]. apply andb_true_iff in H as [_ H].
    now apply negb_true_iff in H. }
  assert (Hwt : Forall (fun worker => live_on "tasks" worker = false) wv).
  { apply (Forall_impl _ (P := fun worker => summarizable_worker worker = true));
      [|exact Hw]. unfold summarizable_worker. intros w H.
    apply andb_true_iff in H as [_ H]. now apply negb_true_iff in H. }
  assert (HP : forall worker node_id,
             In worker wv -> live_on node_id worker = true -> node_key node_id).
  { intros w node_id Hin Hlive. rewrite Forall_forall in Hwa, Hwt. split.
    - intros ->. rewrite (Hwa w Hin) in Hlive. discriminate.
    - intros ->. rewrite (Hwt w Hin) in Hlive. discriminate. }
  assert (Hnw2 : forall n, n <> "actors" -> node_field s2 n "num_workers" = None).
  { intros n Hn'. rewrite (Hfld2 n "num_workers" Hn' ltac:(discriminate)).
    apply Hfields1. }
  assert (Hs3 : worker_store_on node_key s3).
  { destruct Hs2 as (items2 & -> & _ & Hnodes2).
    destruct s3 as [| |f3 items3]; try discriminate. injection Hfac3 as ->.
    exists items3. split; [reflexivity|]. intros n e [Hna Hnt] He.
    pose proof (Hf3 n Hnt) as E. simpl in E. rewrite He in E. symmetry in E.
    destruct (Hnodes2 n e Hna E) as (f & entries & -> & _).
    exists f, entries. split; [reflexivity|]. intros v Hv.
    pose proof (Hnw2 n Hna) as Hnone. unfold node_field in Hnone. simpl in Hnone.
    rewrite E in Hnone. simpl in Hnone. congruence. }
  destruct (@workers_loop_on node_key wv s3 Hcw HP Hs3) as (out & H4 & _ & Hp4).
  pose proof (@workers_loop_fields wv s3 out Hp4) as Hfld4.
  assert (Htop4 : forall key, List.filter (live_on key) wv = [] ->
                              top_entry out key = top_entry s3 key).
  { intros key Hnone. specialize (Hp4 key). now rewrite Hnone in Hp4. }
  assert (Hfld3 : forall n k, n <> "tasks" -> node_field s3 n k = node_field s2 n k)
    by (intros n k Hnt; unfold node_field; now rewrite (Hf3 n Hnt)).
  exists out, s1. split; [|split; [exact H1|]].
  { unfold StateAPIManager.summary, gather. cbv zeta. simpl mapM.
    rewrite Hla, Hlt, Hlw. cbn [bind]. rewrite Hnodes. cbn [bind].
    rewrite (@bindM_run _ _ _ _ _ _ _ H1).
    unfold bindM at 1, lift at 1, data_values at 1. rewrite Hda.
    rewrite (@bindM_run _ _ _ _ _ _ _ H2).
    unfold bindM at 1, lift at 1, data_values at 1. rewrite Hdt.
    rewrite (@bindM_run _ _ _ _ _ _ _ H3).
    unfold bindM at 1, lift at 1, data_values at 1. rewrite Hdw.
    fold wv. now rewrite H4. }
  split; [|split; [|split; [|split; [|split]]]].
  - intros n k [Hna Hnt] Hka Hkw.
    now rewrite (Hfld4 n k Hkw), (Hfld3 n k Hnt), (Hfld2 n k Hna Hka).
  - intros n [Hna Hnt]. unfold node_actor_count at 1, node_actors.
    rewrite (Hfld4 n "actors" ltac:(discriminate)), (Hfld3 n "actors" Hnt).
    fold (node_actors s2 n). fold (node_actor_count s2 n).
    rewrite (Hcnt2 n Hna). unfold node_actor_count, node_actors.
    now rewrite (proj1 (Hfields1 n)).
  - intros n c k [Hna Hnt] Hc. unfold node_class_count at 1, node_actors.
    rewrite (Hfld4 n "actors" ltac:(discriminate)), (Hfld3 n "actors" Hnt).
    fold (node_actors s2 n). fold (node_class_count s2 n c k).
    rewrite (Hcls2 n c k Hna Hc). unfold node_class_count, node_actors.
    now rewrite (proj1 (Hfields1 n)).
  - intros c. unfold cluster_counters at 1.
    rewrite (Htop4 "actors" (filter_none _ Hwa)), (Hf3 "actors" ltac:(discriminate)).
    fold (cluster_counters s2 c). rewrite Hclu2.
    destruct (last_with "class_name" (VStr c) av); [reflexivity|].
    unfold cluster_counters. now rewrite Hact1.
  - intros name c. unfold task_count at 1, task_counters.
    rewrite (Htop4 "tasks" (filter_none _ Hwt)).
    fold (task_counters s3 name). fold (task_count s3 name c).
    rewrite Hc3. unfold task_count, task_counters. now rewrite Htasks2.
  - intros n [Hna Hnt].
    assert (Hzero : worker_count s3 n = 0%Z).
    { unfold worker_count. now rewrite (Hfld3 n "num_workers" Hnt), (Hnw2 n Hna). }
    specialize (Hp4 n). destruct (List.filter (live_on n) wv) as [|w live].
    + unfold worker_count, node_field. rewrite Hp4.
      fold (node_field s3 n "num_workers"). fold (worker_count s3 n). now rewrite Hzero.
    + destruct Hp4 as [Hp4 _]. unfold worker_count. rewrite Hp4, Hzero. reflexivity.
Qed.

End SummaryRollups.

(** One node with three actors of class Foo, two tasks and three workers,
    two of them alive. *)
Lemma summary_returns_rollups_witness :
  let n1 := fixture_node "n1" [("object_store_used_memory", VInt 5);
                               ("object_store_available_memory", VInt 95)] in
  let a1 := fixture_actor "a1" "Foo" "ALIVE" in
  let a2 := fixture_actor "a2" "Foo" "DEAD" in
  let a3 := fixture_actor "a3" "Foo" "ALIVE" in
  let t1 := fixture_task "t1" "f" "FINISHED" in
  let t2 := fixture_task "t2" "g" "SCHEDULED" in
  let reported (worker_id : string) (alive : bool) : record :=
    [("is_alive", VBool alive);
     ("worker_address",
      VDict [("raylet_id", VStr "n1"); ("worker_id", VStr worker_id)])] in
  let worker (worker_id : string) (alive : bool) : record :=
    reported worker_id alive ++ [("worker_id", VStr worker_id)] in
  let w1 := worker "w1" true in
  let w2 := worker "w2" false in
  let w3 := worker "w3" true in
  let client :=
    fixture_cluster [a1; a2; a3]
      [reported "w1" true; reported "w2" false; reported "w3" true]
      [("n1", Ok (Some [t1; t2]))] in
  let op := {| limit := 1000; timeout := 30; filter := "" |} in
  let actors := [(VStr "a1", a1); (VStr "a2", a2); (VStr "a3", a3)] in
  let tasks := [(VStr "t1", t1); (VStr "t2", t2)] in
  let workers := [(VStr "w1", w1); (VStr "w2", w2); (VStr "w3", w3)] in
  (list_actors decode_identity fixture_fields client op
   = Ok {| data := Some actors; warnings := None |}
   /\ list_tasks decode_identity fixture_fields client op
      = Ok {| data := Some tasks; warnings := None |}
   /\ list_workers decode_identity fixture_fields client op
      = Ok {| data := Some workers; warnings := None |}
   /\ Forall (fun node => summarizable_node node = true) [n1]
   /\ Forall (fun actor => summarizable_actor actor = true) (map snd actors)
   /\ Forall (fun task => countable_task task = true) (map snd tasks)
   /\ Forall (fun worker => summarizable_worker worker = true) (map snd workers))
  /\ exists out,
      summary decode_identity fixture_fields fixture_fields fixture_fields client
        fixture_format_value fixture_format_ratio fixture_format_ratio (Ok [n1])
      = Ok out
      /\ node_field out "n1" "disk_read" = Some (SStr "2052/1026 MB")
      /\ node_actor_count out "n1" = 3%Z
      /\ node_class_count out "n1" "Foo" "alive_cnt" = 2%Z
      /\ cluster_counters out "Foo" = Some (counters_of_one a3)
      /\ task_count out "f" "finished_cnt" = 1%Z
      /\ worker_count out "n1" = 2%Z.
Proof.
  intros n1 a1 a2 a3 t1 t2 reported worker w1 w2 w3 client op actors tasks workers.
  assert (H1 : list_actors decode_identity fixture_fields client op
               = Ok {| data := Some actors; warnings := None |}) by reflexivity.
  assert (H2 : list_tasks decode_identity fixture_fields client op
               = Ok {| data := Some tasks; warnings := None |}) by reflexivity.
  assert (H3 : list_workers decode_identity fixture_fields client op
               = Ok {| data := Some workers; warnings := None |}) by reflexivity.
  assert (H4 : Forall (fun node => summarizable_node node = true) [n1])
    by (repeat constructor).
  assert (H5 : Forall (fun actor => summarizable_actor actor = true) (map snd actors))
    by (repeat constructor).
  assert (H6 : Forall (fun task => countable_task task = true) (map snd tasks))
    by (repeat constructor).
  assert (H7 : Forall (fun worker => summarizable_worker worker = true)
                 (map snd workers)) by (repeat constructor).
  split; [exact (conj H1 (conj H2 (conj H3 (conj H4 (conj H5 (conj H6 H7))))))|].
  assert (Hkey : node_key "n1") by (split; discriminate).
  destruct (@summary_returns_rollups _ decode_identity fixture_fields fixture_fields
              fixture_fields _ client fixture_format_value fixture_format_ratio
              fixture_format_ratio (Ok [n1]) [n1] _ _ _ actors tasks workers
              H1 eq_refl H2 eq_refl H3 eq_refl eq_refl H4 H5 H6 H7)
    as (out & done & Hrun & Hdone & Hfig & Hcnt & Hcls & Hclu & Htask & Hwork).
  exists out. split; [exact Hrun|].
  split.
  { rewrite (Hfig "n1" "disk_read" Hkey ltac:(discriminate) ltac:(discriminate)).
    injection Hdone as <-. reflexivity. }
  split; [exact (Hcnt "n1" Hkey)|].
  split; [exact (Hcls "n1" "Foo" "alive_cnt" Hkey ltac:(discriminate))|].
  split; [exact (Hclu "Foo")|].
  split; [exact (Htask "f" "finished_cnt")|].
  exact (Hwork "n1" Hkey).
Defined.
